(** * Padloc core server: request mediation and authorization engine

    A shallow embedding of [packages/core/src/server.ts] (class
    [Controller] and class [Server]) together with the properties of its
    revision checks, session handshake, replay window, authenticator
    lifecycle and auth-request selection.

    Conventions of the embedding:
    - identifiers, revision tokens, opaque byte blobs and serialized
      parameters are [string]s; timestamps are [Z] (milliseconds);
    - a thrown [Err] is its [ErrorCode]; the human readable message is
      not kept;
    - an [async] method is a computation in the monad [M]: it reads and
      writes a [World] (the storage, the request context and the traces
      of the fire-and-forget collaborators) and either returns a value or
      throws.  What a method wrote before it threw stays written, exactly
      as in the source;
    - the branches of a [Promise.all] are run one after the other in
      program order, each to its end; the error of the first branch that
      failed is thrown where the promises are awaited. *)

From Stdlib Require Import ZArith Lia.
From stdpp Require Import base strings pretty gmap list option.

Local Open Scope string_scope.
Local Open Scope Z_scope.
Local Open Scope list_scope.

(** ** JavaScript array primitives used by the controller *)

Module JS.

(** [Array.prototype.findIndex]: index of the first element satisfying
    [p], or [-1]. *)
Fixpoint findIndex {A} (p : A → bool) (l : list A) : Z :=
  match l with
  | [] => -1
  | x :: l' => if p x then 0 else
      let i := findIndex p l' in if i <? 0 then -1 else i + 1
  end.

(** [Array.prototype.indexOf] on strings. *)
Definition indexOf (l : list string) (x : string) : Z :=
  findIndex (λ y, bool_decide (y = x)) l.

(** [Array.prototype.find]. *)
Fixpoint find {A} (p : A → bool) (l : list A) : option A :=
  match l with
  | [] => None
  | x :: l' => if p x then Some x else find p l'
  end.

(** [Array.prototype.some]. *)
Definition some {A} (p : A → bool) (l : list A) : bool := existsb p l.

(** [Array.prototype.includes] on strings. *)
Definition includes (l : list string) (x : string) : bool :=
  some (λ y, bool_decide (y = x)) l.

(** [Array.prototype.filter]. *)
Fixpoint filter {A} (p : A → bool) (l : list A) : list A :=
  match l with
  | [] => []
  | x :: l' => if p x then x :: filter p l' else filter p l'
  end.

(** [Array.prototype.splice (start, deleteCount)], the array that is
    left.  A negative [start] counts from the end and is clamped at 0;
    a [start] past the end is clamped at the length. *)
Definition splice {A} (l : list A) (start : Z) (deleteCount : nat) : list A :=
  let len := Z.of_nat (length l) in
  let s := if start <? 0 then Z.max (len + start) 0 else Z.min start len in
  take (Z.to_nat s) l ++ drop (Z.to_nat s + deleteCount) l.

(** [arr[i]]: [undefined] outside of the array. *)
Definition index {A} (l : list A) (i : Z) : option A :=
  if i <? 0 then None else l !! Z.to_nat i.

(** The array after a change [f] to the object that [find p] returns. *)
Fixpoint update_found {A} (p : A → bool) (f : A → A) (l : list A) : list A :=
  match l with
  | [] => []
  | x :: l' => if p x then f x :: l' else x :: update_found p f l'
  end.

(** [arr[i] = x] for an index inside the array. *)
Definition assign {A} (l : list A) (i : Z) (x : A) : list A :=
  if i <? 0 then l else <[Z.to_nat i := x]> l.

(** [Array.prototype.sort] with the comparator [(a, b) => key a - key b]:
    a stable sort on an integer key, written as an insertion sort. *)
Fixpoint insert_by {A} (key : A → Z) (x : A) (l : list A) : list A :=
  match l with
  | [] => [x]
  | y :: l' => if key x <=? key y then x :: y :: l' else y :: insert_by key x l'
  end.

Definition sort_by {A} (key : A → Z) (l : list A) : list A :=
  foldr (insert_by key) [] l.

End JS.

(** ** Error codes ([ErrorCode] of [./error]) *)

Inductive ErrorCode :=
  | INVALID_SESSION | SESSION_EXPIRED | INVALID_REQUEST
  | MAX_REQUEST_AGE_EXCEEDED | NOT_FOUND | AUTHENTICATION_REQUIRED
  | AUTHENTICATION_FAILED | INVALID_CREDENTIALS | ACCOUNT_EXISTS
  | OUTDATED_REVISION | INSUFFICIENT_PERMISSIONS
  | PROVISIONING_NOT_ALLOWED | PROVISIONING_QUOTA_EXCEEDED
  | BAD_REQUEST | NOT_SUPPORTED | SERVER_ERROR.

#[global] Instance ErrorCode_eq_dec : EqDecision ErrorCode.
Proof. solve_decision. Defined.

(** The outcome of a call: a value, or a thrown [Err]. *)
Inductive Res (A : Type) :=
  | Ok (a : A)
  | Err (e : ErrorCode).
Arguments Ok {A} a.
Arguments Err {A} e.

(** ** Data model *)

(** Enumerations.  [AuthType] is a string enum; only [AuthType.Email] is
    named by the controller. *)
Abbreviation AuthType := string (only parsing).

(** Modelled from the spec: the string value of [AuthType.Email], whose
    declaration lives in [./auth]. *)
Definition AuthType_Email : AuthType := "email".

Inductive AuthPurpose :=
  | Signup | Login | Recover | GetLegacyData | AccessKeyStore
  | TestAuthenticator.

#[global] Instance AuthPurpose_eq_dec : EqDecision AuthPurpose.
Proof. solve_decision. Defined.

(** Modelled from the spec: the account status of an Auth record
    (Unregistered / Active / Suspended); the enum is declared in
    [./auth], the controller names [Unregistered] and [Active]. *)
Inductive AccountStatus := Unregistered | Active | Suspended.

#[global] Instance AccountStatus_eq_dec : EqDecision AccountStatus.
Proof. solve_decision. Defined.

Inductive AuthenticatorStatus := AuthenticatorRegistering | AuthenticatorActive.

#[global] Instance AuthenticatorStatus_eq_dec : EqDecision AuthenticatorStatus.
Proof. solve_decision. Defined.

Inductive AuthRequestStatus := Pending | Verified.

#[global] Instance AuthRequestStatus_eq_dec : EqDecision AuthRequestStatus.
Proof. solve_decision. Defined.

(** Modelled from the spec: the role hierarchy Owner ⊃ Admin ⊃ Member
    plus the Suspended state; [OrgRole] is declared in [./org]. *)
Inductive OrgRole := RoleOwner | RoleAdmin | RoleMember | RoleSuspended.

#[global] Instance OrgRole_eq_dec : EqDecision OrgRole.
Proof. solve_decision. Defined.

(** Modelled from the spec: the provisioning status; the controller names
    [Active] and [Frozen], the enum is declared in [./provisioning]. *)
Inductive ProvisioningStatus := ProvUnprovisioned | ProvActive | ProvFrozen.

#[global] Instance ProvisioningStatus_eq_dec : EqDecision ProvisioningStatus.
Proof. solve_decision. Defined.

Record DeviceInfo := {
  dev_id : string;
  dev_locale : string;
  dev_appVersion : string }.

#[global] Instance DeviceInfo_eq_dec : EqDecision DeviceInfo.
Proof. solve_decision. Defined.

(** [Session]: the [key] is the shared signing key negotiated by the
    handshake; [undefined] once deleted. *)
Record Session := {
  s_id : string;
  s_account : string;
  s_created : Z;
  s_updated : Z;
  s_lastUsed : Z;
  s_expires : option Z;
  s_key : option string;
  s_device : option DeviceInfo;
  s_lastLocation : option string }.

(** Modelled from the spec: the denormalized session info kept on the Auth
    record (the getter [Session.info] of [./session]): every field of the
    session but the secret key. *)
Record SessionInfo := {
  si_id : string;
  si_account : string;
  si_created : Z;
  si_updated : Z;
  si_lastUsed : Z;
  si_expires : option Z;
  si_device : option DeviceInfo;
  si_lastLocation : option string }.

Definition session_info (s : Session) : SessionInfo :=
  {| si_id := s_id s; si_account := s_account s; si_created := s_created s;
     si_updated := s_updated s; si_lastUsed := s_lastUsed s;
     si_expires := s_expires s; si_device := s_device s;
     si_lastLocation := s_lastLocation s |}.

(** Modelled from the spec: [new Session()] before the controller assigns
    its fields. *)
Definition new_Session : Session :=
  {| s_id := ""; s_account := ""; s_created := 0; s_updated := 0;
     s_lastUsed := 0; s_expires := None; s_key := None; s_device := None;
     s_lastLocation := None |}.

Record Authenticator := {
  a_id : string;
  a_type : AuthType;
  a_status : AuthenticatorStatus;
  a_purposes : list AuthPurpose;
  a_lastUsed : option Z;
  a_device : option DeviceInfo;
  a_state : string }.

Record AuthRequest := {
  r_id : string;
  r_type : AuthType;
  r_purpose : AuthPurpose;
  r_token : string;
  r_tries : nat;
  r_status : AuthRequestStatus;
  r_authenticatorId : string;
  r_verified : option Z;
  r_device : option DeviceInfo;
  r_state : string }.

(** A pending SRP handshake: its id and the serialized server-side state
    of the exchange. *)
Record SRPSession := {
  srp_id : string;
  srp_state : string }.

Record AuthInvite := {
  ai_id : string;
  ai_orgId : string;
  ai_orgName : string }.

(** [Auth]: the per-email authentication record.  The key store entry
    references are left out: no method embedded here reads or writes
    them. *)
Record Auth := {
  auth_id : string;
  auth_email : string;
  auth_account : option string;
  auth_accountStatus : AccountStatus;
  auth_verifier : option string;
  auth_keyParams : string;
  auth_authenticators : list Authenticator;
  auth_mfaOrder : list string;
  auth_sessions : list SessionInfo;
  auth_trustedDevices : list DeviceInfo;
  auth_srpSessions : list SRPSession;
  auth_authRequests : list AuthRequest;
  auth_invites : list AuthInvite }.

Record OrgInfo := {
  oi_id : string;
  oi_name : string;
  oi_revision : option string }.

Record VaultInfo := {
  vi_id : string;
  vi_name : string;
  vi_revision : option string }.

Record Account := {
  acc_id : string;
  acc_email : string;
  acc_name : string;
  acc_publicKey : string;
  acc_keyParams : string;
  acc_encryptionParams : string;
  acc_encryptedData : string;
  acc_revision : string;
  acc_orgs : list OrgInfo;
  acc_mainVault : VaultInfo;
  acc_updated : Z }.

Record OrgMember := {
  m_id : string;
  m_name : string;
  m_email : string;
  m_role : OrgRole;
  m_vaults : list string }.

Record Invite := {
  inv_id : string;
  inv_email : string;
  inv_accepted : bool }.

Record Org := {
  org_id : string;
  org_name : string;
  org_owner : string;
  org_revision : string;
  org_publicKey : string;
  org_keyParams : string;
  org_encryptionParams : string;
  org_encryptedData : string;
  org_signingParams : string;
  org_accessors : string;
  org_members : list OrgMember;
  org_groups : list string;   (* the groups, by name: only their number is read *)
  org_vaults : list VaultInfo;
  org_invites : list Invite;
  org_minMemberUpdated : Z;
  org_updated : Z }.

Record Vault := {
  v_id : string;
  v_name : string;
  v_owner : string;
  v_org : option OrgInfo;
  v_revision : string;
  v_keyParams : string;
  v_encryptionParams : string;
  v_accessors : string;
  v_encryptedData : string;
  v_updated : Z }.

(** ** Requests, configuration and collaborators *)

Record RequestAuth := {
  ra_session : string;
  ra_time : Z;
  ra_signature : string }.

Record Request := {
  req_method : string;
  req_device : option DeviceInfo;
  req_auth : option RequestAuth;
  req_location : option string }.

Record ServerConfig := {
  clientUrl : string;
  reportErrors : string;
  maxRequestAge : Z;
  verifyEmailOnSignup : bool;
  defaultAuthTypes : list AuthType }.

(** [new ServerConfig()]. *)
Definition default_ServerConfig : ServerConfig :=
  {| clientUrl := "http://localhost:8080"; reportErrors := "";
     maxRequestAge := 60 * 60 * 1000; verifyEmailOnSignup := true;
     defaultAuthTypes := [AuthType_Email] |}.

(** An authenticator provider ([AuthServer] of [./auth]).  A provider
    keeps its own data in the opaque [state] of the authenticator or of
    the request it is handed: an initialisation returns the state it
    wrote there, followed by the data for the client. *)
Record AuthServer := {
  supportsType : AuthType → bool;
  initAuthenticator :
    Authenticator → Auth → option string → Res (string * string);
  activateAuthenticator :
    Authenticator → option string → Res (string * string);
  initAuthRequest :
    Authenticator → AuthRequest → option string → Res (string * string);
  verifyAuthRequest :
    Authenticator → AuthRequest → option string → Res unit }.

Record AccountProvisioning := {
  ap_status : ProvisioningStatus;
  ap_quota_orgs : Z }.

Record OrgProvisioning := {
  op_orgId : string;
  op_status : ProvisioningStatus;
  op_quota_members : Z;
  op_quota_groups : Z;
  op_quota_vaults : Z }.

Record Provisioning := {
  prov_account : option AccountProvisioning;
  prov_orgs : list OrgProvisioning }.

(** The server: its configuration, the registered providers, the
    provisioner, and the primitives the controller imports from the
    modules around it (hashing of emails, random ids, request signatures,
    the SRP exchange, the vault permissions computed by [Org]). *)
Record Server := {
  config : ServerConfig;
  authServers : list AuthServer;
  getProvisioning : Auth → Provisioning;
  getIdFromEmail : string → string;
  (** [uuid ()]: the n-th id drawn from the random source *)
  uuid_source : nat → string;
  (** [session.verify (req)] *)
  session_verify : Session → Request → bool;
  (** [new SRPServer (srpState)] followed by [srp.setA (A)]: the
      verification value [M1] and the shared key [K], in this order *)
  srp_setA : SRPSession → string → Res (string * string);
  (** [org.canRead (vault, account)] and [org.canWrite (vault, account)] *)
  canRead : Org → Vault → Account → bool;
  canWrite : Org → Vault → Account → bool }.

(** Calls received by the providers, in order. *)
Inductive ProviderCall :=
  | CallInitAuthenticator (type : AuthType) (authenticator : string)
  | CallActivateAuthenticator (type : AuthType) (authenticator : string)
  | CallInitAuthRequest (type : AuthType) (authenticator request : string)
  | CallVerifyAuthRequest (type : AuthType) (authenticator request : string).

(** A link into the client application: [`${base}/${path}?${params}`],
    kept in parts. *)
Record Link := {
  link_base : string;
  link_path : string;
  link_params : list (string * string) }.

(** Messages handed to the messenger. *)
Inductive Message :=
  | InviteCreatedMessage (invite : Invite) (link : Link)
  | MemberAddedMessage (org : string) (link : Link).

(** ** The world of a controller *)

(** The storage facade: one table per kind, keyed by id.  [save] stores
    the value of the object at the time of the call. *)
Record Storage := {
  st_accounts : gmap string Account;
  st_auths : gmap string Auth;
  st_sessions : gmap string Session;
  st_orgs : gmap string Org;
  st_vaults : gmap string Vault }.

(** The request context. *)
Record Context := {
  ctx_session : option Session;
  ctx_account : option Account;
  ctx_auth : option Auth;
  ctx_device : option DeviceInfo }.

Record World := {
  storage : Storage;
  context : Context;
  (** the clock read by [new Date ()] and [Date.now ()] *)
  now : Z;
  (** how many ids were drawn from [uuid_source] *)
  drawn : nat;
  provider_calls : list ProviderCall;
  outbox : list (string * Message);
  logs : list string }.

Definition set_storage (s : Storage) (w : World) : World :=
  {| storage := s; context := context w; now := now w; drawn := drawn w;
     provider_calls := provider_calls w; outbox := outbox w; logs := logs w |}.

Definition set_context (c : Context) (w : World) : World :=
  {| storage := storage w; context := c; now := now w; drawn := drawn w;
     provider_calls := provider_calls w; outbox := outbox w; logs := logs w |}.

Definition set_drawn (n : nat) (w : World) : World :=
  {| storage := storage w; context := context w; now := now w; drawn := n;
     provider_calls := provider_calls w; outbox := outbox w; logs := logs w |}.

Definition add_provider_call (c : ProviderCall) (w : World) : World :=
  {| storage := storage w; context := context w; now := now w;
     drawn := drawn w; provider_calls := provider_calls w ++ [c];
     outbox := outbox w; logs := logs w |}.

Definition add_message (to : string) (m : Message) (w : World) : World :=
  {| storage := storage w; context := context w; now := now w;
     drawn := drawn w; provider_calls := provider_calls w;
     outbox := outbox w ++ [(to, m)]; logs := logs w |}.

Definition add_log (type : string) (w : World) : World :=
  {| storage := storage w; context := context w; now := now w;
     drawn := drawn w; provider_calls := provider_calls w;
     outbox := outbox w; logs := logs w ++ [type] |}.

(** ** The monad of controller methods *)

Definition M (A : Type) : Type := World → Res A * World.

Definition ret {A} (a : A) : M A := λ w, (Ok a, w).

Definition throw {A} (e : ErrorCode) : M A := λ w, (Err e, w).

Definition bind {A B} (m : M A) (f : A → M B) : M B :=
  λ w, match m w with
       | (Ok a, w') => f a w'
       | (Err e, w') => (Err e, w')
       end.

(** [try { m } catch (e) { h e }] *)
Definition try_catch {A} (m : M A) (h : ErrorCode → M A) : M A :=
  λ w, match m w with
       | (Ok a, w') => (Ok a, w')
       | (Err e, w') => h e w'
       end.

Definition modify (f : World → World) : M unit := λ w, (Ok tt, f w).

(** Lift the outcome of a collaborator. *)
Definition lift {A} (r : Res A) : M A := λ w, (r, w).

Declare Scope m_scope.
Delimit Scope m_scope with M.
Notation "x <- m ;; k" := (bind m (λ x, k))
  (at level 100, m at next level, right associativity) : m_scope.
Notation "m ;;; k" := (bind m (λ _, k))
  (at level 100, right associativity) : m_scope.
Notation "'WHEN' b 'THROW' e ;; k" := (if b then throw e else k)
  (at level 100, b at next level, e at next level, right associativity) : m_scope.
Local Open Scope m_scope.

(** A promise that was started: it runs to its end, and its error, if
    any, is kept until the promise is awaited. *)
Definition settle (m : M unit) : M (option ErrorCode) :=
  λ w, match m w with
       | (Ok _, w') => (Ok None, w')
       | (Err e, w') => (Ok (Some e), w')
       end.

(** [await Promise.all (promises)], for promises that are settled. *)
Fixpoint Promise_all (promises : list (option ErrorCode)) : M unit :=
  match promises with
  | [] => ret tt
  | Some e :: _ => throw e
  | None :: promises' => Promise_all promises'
  end.

(** [for (const x of l) { body x }] *)
Fixpoint for_each {A} (l : list A) (body : A → M unit) : M unit :=
  match l with
  | [] => ret tt
  | x :: l' => body x ;;; for_each l' body
  end.

(** ** Field updates *)

Definition set_s_key (k : option string) (s : Session) : Session :=
  {| s_id := s_id s; s_account := s_account s; s_created := s_created s;
     s_updated := s_updated s; s_lastUsed := s_lastUsed s;
     s_expires := s_expires s; s_key := k; s_device := s_device s;
     s_lastLocation := s_lastLocation s |}.

Definition set_a_lastUsed (t : option Z) (a : Authenticator) : Authenticator :=
  {| a_id := a_id a; a_type := a_type a; a_status := a_status a;
     a_purposes := a_purposes a; a_lastUsed := t; a_device := a_device a;
     a_state := a_state a |}.

Definition set_a_state (st : string) (a : Authenticator) : Authenticator :=
  {| a_id := a_id a; a_type := a_type a; a_status := a_status a;
     a_purposes := a_purposes a; a_lastUsed := a_lastUsed a;
     a_device := a_device a; a_state := st |}.

Definition set_r_state (st : string) (r : AuthRequest) : AuthRequest :=
  {| r_id := r_id r; r_type := r_type r; r_purpose := r_purpose r;
     r_token := r_token r; r_tries := r_tries r; r_status := r_status r;
     r_authenticatorId := r_authenticatorId r; r_verified := r_verified r;
     r_device := r_device r; r_state := st |}.

Definition set_r_tries (n : nat) (r : AuthRequest) : AuthRequest :=
  {| r_id := r_id r; r_type := r_type r; r_purpose := r_purpose r;
     r_token := r_token r; r_tries := n; r_status := r_status r;
     r_authenticatorId := r_authenticatorId r; r_verified := r_verified r;
     r_device := r_device r; r_state := r_state r |}.

(** [request.status = Verified; request.verified = t] *)
Definition set_r_verified (t : Z) (r : AuthRequest) : AuthRequest :=
  {| r_id := r_id r; r_type := r_type r; r_purpose := r_purpose r;
     r_token := r_token r; r_tries := r_tries r; r_status := Verified;
     r_authenticatorId := r_authenticatorId r; r_verified := Some t;
     r_device := r_device r; r_state := r_state r |}.

Definition set_auth_id (id : string) (a : Auth) : Auth :=
  {| auth_id := id; auth_email := auth_email a;
     auth_account := auth_account a;
     auth_accountStatus := auth_accountStatus a;
     auth_verifier := auth_verifier a; auth_keyParams := auth_keyParams a;
     auth_authenticators := auth_authenticators a;
     auth_mfaOrder := auth_mfaOrder a; auth_sessions := auth_sessions a;
     auth_trustedDevices := auth_trustedDevices a;
     auth_srpSessions := auth_srpSessions a;
     auth_authRequests := auth_authRequests a;
     auth_invites := auth_invites a |}.

Definition set_auth_authenticators (l : list Authenticator) (a : Auth) : Auth :=
  {| auth_id := auth_id a; auth_email := auth_email a;
     auth_account := auth_account a;
     auth_accountStatus := auth_accountStatus a;
     auth_verifier := auth_verifier a; auth_keyParams := auth_keyParams a;
     auth_authenticators := l;
     auth_mfaOrder := auth_mfaOrder a; auth_sessions := auth_sessions a;
     auth_trustedDevices := auth_trustedDevices a;
     auth_srpSessions := auth_srpSessions a;
     auth_authRequests := auth_authRequests a;
     auth_invites := auth_invites a |}.

Definition set_auth_sessions (l : list SessionInfo) (a : Auth) : Auth :=
  {| auth_id := auth_id a; auth_email := auth_email a;
     auth_account := auth_account a;
     auth_accountStatus := auth_accountStatus a;
     auth_verifier := auth_verifier a; auth_keyParams := auth_keyParams a;
     auth_authenticators := auth_authenticators a;
     auth_mfaOrder := auth_mfaOrder a; auth_sessions := l;
     auth_trustedDevices := auth_trustedDevices a;
     auth_srpSessions := auth_srpSessions a;
     auth_authRequests := auth_authRequests a;
     auth_invites := auth_invites a |}.

Definition set_auth_trustedDevices (l : list DeviceInfo) (a : Auth) : Auth :=
  {| auth_id := auth_id a; auth_email := auth_email a;
     auth_account := auth_account a;
     auth_accountStatus := auth_accountStatus a;
     auth_verifier := auth_verifier a; auth_keyParams := auth_keyParams a;
     auth_authenticators := auth_authenticators a;
     auth_mfaOrder := auth_mfaOrder a; auth_sessions := auth_sessions a;
     auth_trustedDevices := l;
     auth_srpSessions := auth_srpSessions a;
     auth_authRequests := auth_authRequests a;
     auth_invites := auth_invites a |}.

Definition set_auth_srpSessions (l : list SRPSession) (a : Auth) : Auth :=
  {| auth_id := auth_id a; auth_email := auth_email a;
     auth_account := auth_account a;
     auth_accountStatus := auth_accountStatus a;
     auth_verifier := auth_verifier a; auth_keyParams := auth_keyParams a;
     auth_authenticators := auth_authenticators a;
     auth_mfaOrder := auth_mfaOrder a; auth_sessions := auth_sessions a;
     auth_trustedDevices := auth_trustedDevices a;
     auth_srpSessions := l;
     auth_authRequests := auth_authRequests a;
     auth_invites := auth_invites a |}.

Definition set_auth_authRequests (l : list AuthRequest) (a : Auth) : Auth :=
  {| auth_id := auth_id a; auth_email := auth_email a;
     auth_account := auth_account a;
     auth_accountStatus := auth_accountStatus a;
     auth_verifier := auth_verifier a; auth_keyParams := auth_keyParams a;
     auth_authenticators := auth_authenticators a;
     auth_mfaOrder := auth_mfaOrder a; auth_sessions := auth_sessions a;
     auth_trustedDevices := auth_trustedDevices a;
     auth_srpSessions := auth_srpSessions a;
     auth_authRequests := l;
     auth_invites := auth_invites a |}.

Definition set_auth_invites (l : list AuthInvite) (a : Auth) : Auth :=
  {| auth_id := auth_id a; auth_email := auth_email a;
     auth_account := auth_account a;
     auth_accountStatus := auth_accountStatus a;
     auth_verifier := auth_verifier a; auth_keyParams := auth_keyParams a;
     auth_authenticators := auth_authenticators a;
     auth_mfaOrder := auth_mfaOrder a; auth_sessions := auth_sessions a;
     auth_trustedDevices := auth_trustedDevices a;
     auth_srpSessions := auth_srpSessions a;
     auth_authRequests := auth_authRequests a;
     auth_invites := l |}.

Definition set_acc_orgs (l : list OrgInfo) (a : Account) : Account :=
  {| acc_id := acc_id a; acc_email := acc_email a; acc_name := acc_name a;
     acc_publicKey := acc_publicKey a; acc_keyParams := acc_keyParams a;
     acc_encryptionParams := acc_encryptionParams a;
     acc_encryptedData := acc_encryptedData a;
     acc_revision := acc_revision a; acc_orgs := l;
     acc_mainVault := acc_mainVault a; acc_updated := acc_updated a |}.

Definition set_acc_mainVault (v : VaultInfo) (a : Account) : Account :=
  {| acc_id := acc_id a; acc_email := acc_email a; acc_name := acc_name a;
     acc_publicKey := acc_publicKey a; acc_keyParams := acc_keyParams a;
     acc_encryptionParams := acc_encryptionParams a;
     acc_encryptedData := acc_encryptedData a;
     acc_revision := acc_revision a; acc_orgs := acc_orgs a;
     acc_mainVault := v; acc_updated := acc_updated a |}.

Definition set_vi_revision (r : option string) (v : VaultInfo) : VaultInfo :=
  {| vi_id := vi_id v; vi_name := vi_name v; vi_revision := r |}.

Definition set_m_name (n : string) (m : OrgMember) : OrgMember :=
  {| m_id := m_id m; m_name := n; m_email := m_email m; m_role := m_role m;
     m_vaults := m_vaults m |}.

Definition set_org_members (l : list OrgMember) (o : Org) : Org :=
  {| org_id := org_id o; org_name := org_name o; org_owner := org_owner o;
     org_revision := org_revision o; org_publicKey := org_publicKey o;
     org_keyParams := org_keyParams o;
     org_encryptionParams := org_encryptionParams o;
     org_encryptedData := org_encryptedData o;
     org_signingParams := org_signingParams o;
     org_accessors := org_accessors o; org_members := l;
     org_groups := org_groups o; org_vaults := org_vaults o;
     org_invites := org_invites o;
     org_minMemberUpdated := org_minMemberUpdated o;
     org_updated := org_updated o |}.

Definition set_org_vaults (l : list VaultInfo) (o : Org) : Org :=
  {| org_id := org_id o; org_name := org_name o; org_owner := org_owner o;
     org_revision := org_revision o; org_publicKey := org_publicKey o;
     org_keyParams := org_keyParams o;
     org_encryptionParams := org_encryptionParams o;
     org_encryptedData := org_encryptedData o;
     org_signingParams := org_signingParams o;
     org_accessors := org_accessors o; org_members := org_members o;
     org_groups := org_groups o; org_vaults := l;
     org_invites := org_invites o;
     org_minMemberUpdated := org_minMemberUpdated o;
     org_updated := org_updated o |}.

(** [org.revision = r; org.updated = t] *)
Definition set_org_revision (r : string) (t : Z) (o : Org) : Org :=
  {| org_id := org_id o; org_name := org_name o; org_owner := org_owner o;
     org_revision := r; org_publicKey := org_publicKey o;
     org_keyParams := org_keyParams o;
     org_encryptionParams := org_encryptionParams o;
     org_encryptedData := org_encryptedData o;
     org_signingParams := org_signingParams o;
     org_accessors := org_accessors o; org_members := org_members o;
     org_groups := org_groups o; org_vaults := org_vaults o;
     org_invites := org_invites o;
     org_minMemberUpdated := org_minMemberUpdated o; org_updated := t |}.

Definition set_ctx_account (a : Account) (c : Context) : Context :=
  {| ctx_session := ctx_session c; ctx_account := Some a;
     ctx_auth := ctx_auth c; ctx_device := ctx_device c |}.

Definition set_ctx_auth (a : Auth) (c : Context) : Context :=
  {| ctx_session := ctx_session c; ctx_account := ctx_account c;
     ctx_auth := Some a; ctx_device := ctx_device c |}.

(** ** The storage facade *)

(** Modelled from the spec: the kinds of entity of the storage facade
    ([./storage]), which are addressed by a stable id within their kind. *)
Class Storable (A : Type) := {
  table : Storage → gmap string A;
  set_table : gmap string A → Storage → Storage;
  id_of : A → string }.

#[global] Instance Storable_Account : Storable Account := {|
  table := st_accounts;
  set_table t s :=
    {| st_accounts := t; st_auths := st_auths s;
       st_sessions := st_sessions s; st_orgs := st_orgs s;
       st_vaults := st_vaults s |};
  id_of := acc_id |}.

#[global] Instance Storable_Auth : Storable Auth := {|
  table := st_auths;
  set_table t s :=
    {| st_accounts := st_accounts s; st_auths := t;
       st_sessions := st_sessions s; st_orgs := st_orgs s;
       st_vaults := st_vaults s |};
  id_of := auth_id |}.

#[global] Instance Storable_Session : Storable Session := {|
  table := st_sessions;
  set_table t s :=
    {| st_accounts := st_accounts s; st_auths := st_auths s;
       st_sessions := t; st_orgs := st_orgs s;
       st_vaults := st_vaults s |};
  id_of := s_id |}.

#[global] Instance Storable_Org : Storable Org := {|
  table := st_orgs;
  set_table t s :=
    {| st_accounts := st_accounts s; st_auths := st_auths s;
       st_sessions := st_sessions s; st_orgs := t;
       st_vaults := st_vaults s |};
  id_of := org_id |}.

#[global] Instance Storable_Vault : Storable Vault := {|
  table := st_vaults;
  set_table t s :=
    {| st_accounts := st_accounts s; st_auths := st_auths s;
       st_sessions := st_sessions s; st_orgs := st_orgs s;
       st_vaults := t |};
  id_of := v_id |}.

(** Modelled from the spec: [storage.get (kind, id)] of [./storage], which
    fails with NOT_FOUND. *)
Definition storage_get (A : Type) `{Storable A} (id : string) : M A :=
  λ w, match table (storage w) !! id with
       | Some a => (Ok a, w)
       | None => (Err NOT_FOUND, w)
       end.

(** Modelled from the spec: [storage.save (entity)] of [./storage]; what
    is stored is the entity as it is at the time of the call. *)
Definition storage_save {A} `{Storable A} (a : A) : M unit :=
  modify (λ w, set_storage
    (set_table (<[id_of a := a]> (table (storage w))) (storage w)) w).

(** Modelled from the spec: [storage.delete (entity)] of [./storage], by
    the id of the entity. *)
Definition storage_delete (A : Type) `{Storable A} (id : string) : M unit :=
  modify (λ w, set_storage
    (set_table (delete id (table (A:=A) (storage w))) (storage w)) w).

(** ** The controller *)

(** Modelled from the spec: [equalCT] of [./encoding], the constant-time
    comparison of two byte strings; its value is their equality. *)
Definition equalCT (a b : string) : bool := bool_decide (a = b).

(** Modelled from the spec: [new Auth (email)], the record created lazily
    on first reference, for an email that has no account yet. *)
Definition new_Auth (email : string) : Auth :=
  {| auth_id := ""; auth_email := email; auth_account := None;
     auth_accountStatus := Unregistered; auth_verifier := None;
     auth_keyParams := ""; auth_authenticators := []; auth_mfaOrder := [];
     auth_sessions := []; auth_trustedDevices := []; auth_srpSessions := [];
     auth_authRequests := []; auth_invites := [] |}.

(** Modelled from the spec: [org.getMember ({ id })] of [./org], the member
    with the id of the account. *)
Definition getMember (org : Org) (id : string) : option OrgMember :=
  JS.find (λ m, bool_decide (m_id m = id)) (org_members org).

(** Modelled from the spec: [org.isMember (account)] of [./org]. *)
Definition isMember (org : Org) (id : string) : bool :=
  bool_decide (is_Some (getMember org id)).

(** Modelled from the spec: [org.isOwner (account)] of [./org], over the
    role hierarchy Owner ⊃ Admin ⊃ Member. *)
Definition isOwner (org : Org) (id : string) : bool :=
  match getMember org id with
  | Some m => bool_decide (m_role m = RoleOwner)
  | None => false
  end.

(** Modelled from the spec: [org.isAdmin (account)] of [./org]: an Owner
    is an Admin too. *)
Definition isAdmin (org : Org) (id : string) : bool :=
  match getMember org id with
  | Some m => bool_decide (m_role m = RoleOwner ∨ m_role m = RoleAdmin)
  | None => false
  end.

(** Modelled from the spec: [org.isSuspended (account)] of [./org], the
    state that revokes both read and write. *)
Definition isSuspended (org : Org) (id : string) : bool :=
  match getMember org id with
  | Some m => bool_decide (m_role m = RoleSuspended)
  | None => false
  end.

(** Modelled from the spec: [org.getInvite (id)] of [./org]. *)
Definition getInvite (org : Org) (id : string) : option Invite :=
  JS.find (λ i, bool_decide (inv_id i = id)) (org_invites org).

Record StartAuthRequestParams := {
  sp_email : string;
  sp_authenticatorId : option string;
  sp_authenticatorIndex : option Z;
  sp_type : option AuthType;
  sp_supportedTypes : option (list AuthType);
  sp_purpose : AuthPurpose;
  sp_data : option string }.

Record StartAuthRequestResponse := {
  sr_id : string;
  sr_data : string;
  sr_token : string;
  sr_type : AuthType;
  sr_authenticatorId : string;
  sr_requestStatus : AuthRequestStatus;
  sr_deviceTrusted : option bool;
  sr_accountStatus : option AccountStatus;
  sr_provisioning : option AccountProvisioning }.

Record CompleteAuthRequestParams := {
  cp_email : string;
  cp_id : string;
  cp_data : option string }.

Record CompleteAuthRequestResponse := {
  cr_accountStatus : AccountStatus;
  cr_deviceTrusted : option bool;
  cr_provisioning : option AccountProvisioning }.

Record CreateSessionParams := {
  cs_account : string;
  cs_srpId : string;
  cs_A : string;
  cs_M : string;
  cs_addTrustedDevice : bool }.

Record UseAuthTokenParams := {
  ut_email : string;
  ut_token : string;
  ut_purpose : AuthPurpose;
  ut_authenticatorId : option string;
  ut_requestId : option string }.

(** [typeof x === "undefined" || p x] *)
Definition undefined_or {A} (x : option A) (p : A → bool) : bool :=
  match x with None => true | Some a => p a end.

(** The value of [this.context.device && auth.trustedDevices.some (...)]:
    [undefined] without a device. *)
Definition device_trusted (device : option DeviceInfo) (auth : Auth) : option bool :=
  match device with
  | None => None
  | Some d =>
      Some (JS.some (λ t, bool_decide (dev_id t = dev_id d))
              (auth_trustedDevices auth))
  end.

(** Truthiness of such a value. *)
Definition truthy (b : option bool) : bool :=
  match b with Some true => true | _ => false end.

(** The filter of [startAuthRequest] on one authenticator [m]. *)
Definition selectable (p : StartAuthRequestParams) (m : Authenticator) : bool :=
  undefined_or (sp_authenticatorId p) (λ id, bool_decide (a_id m = id)) &&
  undefined_or (sp_type p) (λ t, bool_decide (a_type m = t)) &&
  undefined_or (sp_supportedTypes p) (λ ts, JS.includes ts (a_type m)) &&
  (bool_decide (sp_purpose p = TestAuthenticator) ||
   bool_decide (sp_purpose p ∈ a_purposes m)) &&
  bool_decide (a_status m = AuthenticatorActive).

(** [availableAuthenticators] of [startAuthRequest]: the authenticators
    that pass the filter, in the order of preference stored on the Auth
    record.  Each authenticator comes with its position in the array
    [authenticators], which tells the object it is. *)
Definition availableAuthenticators (auth : Auth) (p : StartAuthRequestParams)
    (authenticators : list (nat * Authenticator)) : list (nat * Authenticator) :=
  JS.sort_by (λ x, JS.indexOf (auth_mfaOrder auth) (a_id x.2))
    (JS.filter (λ x, selectable p x.2) authenticators).

(** The status of [prov] in [updateVault], where
    [orgProvisioning = org && provisioning.orgs.find (...)] and
    [prov = orgProvisioning || provisioning.account]; [None] when [prov]
    is undefined. *)
Definition vault_provisioning (provisioning : Provisioning) (org : option Org)
    : option ProvisioningStatus :=
  let orgProvisioning :=
    match org with
    | Some o =>
        JS.find (λ x, bool_decide (op_orgId x = org_id o)) (prov_orgs provisioning)
    | None => None
    end in
  match orgProvisioning with
  | Some x => Some (op_status x)
  | None => ap_status <$> prov_account provisioning
  end.

Section Controller.

Context (srv : Server).

(** [new Date ()] and [Date.now ()]. *)
Definition date_now : M Z := λ w, (Ok (now w), w).

(** [await uuid ()]. *)
Definition uuid : M string :=
  λ w, (Ok (uuid_source srv (drawn w)), set_drawn (S (drawn w)) w).

(** [this.log (type, data)]: the type of the event is kept. *)
Definition log (type : string) : M unit := modify (add_log type).

(** [this.messenger.send (to, message)]. *)
Definition messenger_send (to : string) (m : Message) : M unit :=
  modify (add_message to m).

(** [this.context.device]. *)
Definition get_device : M (option DeviceInfo) :=
  λ w, (Ok (ctx_device (context w)), w).

(** Write a changed [account] or [auth] object of the context back to
    the context that holds it. *)
Definition mutate_ctx_account (a : Account) : M unit :=
  modify (λ w, set_context (set_ctx_account a (context w)) w).

Definition mutate_ctx_auth (a : Auth) : M unit :=
  modify (λ w, set_context (set_ctx_auth a (context w)) w).

(** Modelled from the spec: [Auth.init] of [./auth], which keys the
    record by the hash of its email. *)
Definition Auth_init (auth : Auth) : Auth :=
  set_auth_id (getIdFromEmail srv (auth_email auth)) auth.

(** [Controller._requireAuth] (server.ts, l. 1604-1612). *)
Definition _requireAuth : M (Account * Session * Auth) :=
  λ w, match ctx_session (context w), ctx_account (context w),
             ctx_auth (context w) with
       | Some session, Some account, Some auth =>
           (Ok (account, session, auth), w)
       | _, _, _ => (Err INVALID_SESSION, w)
       end.

(** [Controller._getAuth] (l. 1638-1667). *)
Definition _getAuth (email : string) : M Auth :=
  auth <- try_catch
            (a <- storage_get Auth (getIdFromEmail srv email) ;; ret (Some a))
            (λ e, if bool_decide (e ≠ NOT_FOUND) then throw e else ret None) ;;
  auth <- match auth with
          | Some a => ret (Some a)
          | None =>
              (* the plain email was the key in previous versions *)
              try_catch
                (a <- storage_get Auth email ;;
                 let a := Auth_init a in
                 storage_save a ;;;
                 storage_delete Auth (auth_email a) ;;;
                 ret (Some a))
                (λ _, ret None)
          end ;;
  match auth with
  | Some a => ret a
  | None => ret (Auth_init (new_Auth email))
  end.

(** [Controller._getAuthServer] (l. 1669-1678). *)
Definition _getAuthServer (type : AuthType) : M AuthServer :=
  match JS.find (λ prov, supportsType prov type) (authServers srv) with
  | Some provider => ret provider
  | None => throw NOT_SUPPORTED
  end.

(** [Controller._createAdHocAuthenticator] (l. 1626-1636). *)
Definition _createAdHocAuthenticator (auth : Auth)
    (purposes : list AuthPurpose) (type : AuthType) : M Authenticator :=
  authServer <- _getAuthServer type ;;
  let authenticator :=
    {| a_id := "ad_hoc_" +:+ auth_email auth +:+ "_" +:+ type;
       a_type := type; a_status := AuthenticatorActive;
       a_purposes := purposes; a_lastUsed := None; a_device := None;
       a_state := "" |} in
  modify (add_provider_call (CallInitAuthenticator type (a_id authenticator))) ;;;
  r <- lift (initAuthenticator authServer authenticator auth None) ;;
  ret (set_a_state r.1 authenticator).

(** [await Promise.all (l.map (f))], for branches that return a value. *)
Fixpoint map_M {A B} (f : A → M B) (l : list A) : M (list B) :=
  match l with
  | [] => ret []
  | x :: l' => y <- f x ;; ys <- map_M f l' ;; ret (y :: ys)
  end.

(** [Controller._getAuthenticators] (l. 1614-1624). *)
Definition _getAuthenticators (auth : Auth) : M (list Authenticator) :=
  let purposes := [Signup; Login; Recover; GetLegacyData] in
  adHocAuthenticators <-
    map_M (_createAdHocAuthenticator auth purposes)
      (defaultAuthTypes (config srv)) ;;
  ret (auth_authenticators auth ++ adHocAuthenticators).

(** [Controller._useAuthToken] (l. 1680-1714). *)
Definition _useAuthToken (p : UseAuthTokenParams) : M unit :=
  auth <- _getAuth (ut_email p) ;;
  match JS.find
          (λ r, undefined_or (ut_authenticatorId p)
                  (λ id, bool_decide (r_authenticatorId r = id)) &&
                undefined_or (ut_requestId p) (λ id, bool_decide (r_id r = id)) &&
                bool_decide (r_token r = ut_token p) &&
                bool_decide (r_status r = Verified) &&
                bool_decide (r_purpose r = ut_purpose p))
          (auth_authRequests auth) with
  | None => throw AUTHENTICATION_FAILED
  | Some request =>
      let auth :=
        set_auth_authRequests
          (JS.filter (λ r, negb (bool_decide (r_id r = r_id request)))
             (auth_authRequests auth)) auth in
      storage_save auth
  end.

(** [Controller.authenticate] (l. 149-210); the context [ctx] it fills is
    the one of the controller. *)
Definition authenticate (req : Request) : M unit :=
  match req_auth req with
  | None => ret tt
  | Some ra =>
      session <- try_catch (storage_get Session (ra_session ra))
                   (λ e, if bool_decide (e = NOT_FOUND)
                         then throw INVALID_SESSION else throw e) ;;
      t <- date_now ;;
      WHEN (match s_expires session with
            | Some expires => expires <? t
            | None => false
            end) THROW SESSION_EXPIRED ;;
      WHEN (negb (session_verify srv session req)) THROW INVALID_REQUEST ;;
      let age := t - ra_time ra in
      WHEN (age >? maxRequestAge (config srv)) THROW MAX_REQUEST_AGE_EXCEEDED ;;
      account <- storage_get Account (s_account session) ;;
      auth <- _getAuth (acc_email account) ;;
      device <- get_device ;;
      let session :=
        {| s_id := s_id session; s_account := s_account session;
           s_created := s_created session; s_updated := t; s_lastUsed := t;
           s_expires := s_expires session; s_key := s_key session;
           s_device := device; s_lastLocation := req_location req |} in
      let i := JS.findIndex (λ s, bool_decide (si_id s = s_id session))
                 (auth_sessions auth) in
      let auth :=
        if bool_decide (i ≠ -1)
        then set_auth_sessions
               (JS.assign (auth_sessions auth) i (session_info session)) auth
        else set_auth_sessions
               (auth_sessions auth ++ [session_info session]) auth in
      modify (λ w, set_context
        {| ctx_session := Some session; ctx_account := Some account;
           ctx_auth := Some auth; ctx_device := ctx_device (context w) |} w) ;;;
      storage_save session ;;;
      storage_save account ;;;
      storage_save auth
  end.

(** [Controller.deleteAuthenticator] (l. 360-374). *)
Definition deleteAuthenticator (id : string) : M unit :=
  t <- _requireAuth ;;
  let auth := t.2 in
  WHEN (Z.of_nat (length (auth_authenticators auth)) <=? 1) THROW BAD_REQUEST ;;
  let index := JS.findIndex (λ a, bool_decide (a_id a = id))
                 (auth_authenticators auth) in
  WHEN (index <? 0) THROW NOT_FOUND ;;
  let auth :=
    set_auth_authenticators (JS.splice (auth_authenticators auth) index 1) auth in
  mutate_ctx_auth auth ;;;
  storage_save auth.

(** Modelled from the spec: [new AuthRequest ({...})] followed by
    [request.init ()] of [./auth]: a Pending request without tries, whose
    id and token are drawn from the random source. *)
Definition new_AuthRequest (authenticatorId : string) (type : AuthType)
    (purpose : AuthPurpose) (device : option DeviceInfo) : M AuthRequest :=
  id <- uuid ;;
  token <- uuid ;;
  ret {| r_id := id; r_type := type; r_purpose := purpose; r_token := token;
         r_tries := 0; r_status := Pending;
         r_authenticatorId := authenticatorId; r_verified := None;
         r_device := device; r_state := "" |}.

(** [Controller.startAuthRequest] (l. 376-445). *)
Definition startAuthRequest (p : StartAuthRequestParams)
    : M StartAuthRequestResponse :=
  auth <- _getAuth (sp_email p) ;;
  authenticators <- _getAuthenticators auth ;;
  let available := availableAuthenticators auth p (imap pair authenticators) in
  match JS.index available (default 0 (sp_authenticatorIndex p)) with
  | None => throw NOT_FOUND
  | Some (i, authenticator) =>
      provider <- _getAuthServer (a_type authenticator) ;;
      device <- get_device ;;
      request <- new_AuthRequest (a_id authenticator) (a_type authenticator)
                   (if bool_decide (sp_purpose p = Login) &&
                       bool_decide (auth_accountStatus auth ≠ Active)
                    then Signup else sp_purpose p)
                   device ;;
      modify (add_provider_call
        (CallInitAuthRequest (a_type authenticator) (a_id authenticator)
           (r_id request))) ;;;
      r <- lift (initAuthRequest provider authenticator request (sp_data p)) ;;
      let request := set_r_state r.1 request in
      let responseData := r.2 in
      let requests := auth_authRequests auth in
      let auth := set_auth_authRequests (requests ++ [request]) auth in
      t <- date_now ;;
      (* [authenticator.lastUsed = new Date ()]: the object is the i-th
         registered authenticator, or an ad hoc one that no record holds *)
      let auth :=
        set_auth_authenticators
          (<[i := set_a_lastUsed (Some t) authenticator]>
             (auth_authenticators auth)) auth in
      let deviceTrusted := device_trusted device auth in
      if bool_decide (r_purpose request = Login) && truthy deviceTrusted
      then
        (* the request object is the one pushed on [auth.authRequests] *)
        let request := set_r_verified t request in
        let auth := set_auth_authRequests (requests ++ [request]) auth in
        let response :=
          {| sr_id := r_id request; sr_data := responseData;
             sr_token := r_token request; sr_type := r_type request;
             sr_authenticatorId := a_id authenticator;
             sr_requestStatus := Verified;
             sr_deviceTrusted := deviceTrusted;
             sr_accountStatus := Some (auth_accountStatus auth);
             sr_provisioning := prov_account (getProvisioning srv auth) |} in
        storage_save auth ;;;
        ret response
      else
        let response :=
          {| sr_id := r_id request; sr_data := responseData;
             sr_token := r_token request; sr_type := r_type request;
             sr_authenticatorId := a_id authenticator;
             sr_requestStatus := r_status request;
             sr_deviceTrusted := deviceTrusted;
             sr_accountStatus := None; sr_provisioning := None |} in
        storage_save auth ;;;
        ret response
  end.

(** [Controller.completeAuthRequest] (l. 447-506). *)
Definition completeAuthRequest (p : CompleteAuthRequestParams)
    : M CompleteAuthRequestResponse :=
  auth <- _getAuth (cp_email p) ;;
  let is_request := λ m, bool_decide (r_id m = cp_id p) in
  match JS.find is_request (auth_authRequests auth) with
  | None => throw AUTHENTICATION_FAILED
  | Some request =>
      authenticators <- _getAuthenticators auth ;;
      match JS.find (λ x, bool_decide (a_id x.2 = r_authenticatorId request))
              (imap pair authenticators) with
      | None => throw AUTHENTICATION_FAILED
      | Some (i, authenticator) =>
          WHEN (bool_decide (r_type request ≠ a_type authenticator))
            THROW AUTHENTICATION_FAILED ;;
          provider <- _getAuthServer (r_type request) ;;
          (* [catch (e) { request.tries++; save (auth); throw e }], for the
             [auth] object as it is when the error is thrown *)
          let on_error := λ (auth : Auth) (e : ErrorCode),
            storage_save
              (set_auth_authRequests
                 (JS.update_found is_request
                    (λ r, set_r_tries (S (r_tries r)) r)
                    (auth_authRequests auth)) auth) ;;;
            throw e in
          auth <-
            try_catch
              (modify (add_provider_call
                 (CallVerifyAuthRequest (r_type request) (a_id authenticator)
                    (r_id request))) ;;;
               lift (verifyAuthRequest provider authenticator request (cp_data p)) ;;;
               ret auth)
              (on_error auth) ;;
          t <- date_now ;;
          let auth :=
            set_auth_authRequests
              (JS.update_found is_request (set_r_verified t)
                 (auth_authRequests auth)) auth in
          auth <-
            (if bool_decide (r_purpose request = TestAuthenticator)
             then
               storage_save auth ;;;
               try_catch
                 (_useAuthToken
                    {| ut_email := cp_email p; ut_token := r_token request;
                       ut_purpose := r_purpose request;
                       ut_authenticatorId := Some (r_authenticatorId request);
                       ut_requestId := Some (r_id request) |} ;;;
                  ret auth)
                 (on_error auth)
             else
               let auth :=
                 set_auth_authenticators
                   (<[i := set_a_lastUsed (Some t) authenticator]>
                      (auth_authenticators auth)) auth in
               storage_save auth ;;;
               ret auth) ;;
          storage_save auth ;;;
          device <- get_device ;;
          ret {| cr_accountStatus := auth_accountStatus auth;
                 cr_deviceTrusted := device_trusted device auth;
                 cr_provisioning := prov_account (getProvisioning srv auth) |}
      end
  end.

(** [Controller.createSession] (l. 581-646). *)
Definition createSession (p : CreateSessionParams) : M Session :=
  acc <- storage_get Account (cs_account p) ;;
  auth <- _getAuth (acc_email acc) ;;
  match JS.find (λ s, bool_decide (srp_id s = cs_srpId p))
          (auth_srpSessions auth) with
  | None =>
      log "login" ;;;
      throw INVALID_CREDENTIALS
  | Some srpState =>
      srp <- lift (srp_setA srv srpState (cs_A p)) ;;
      let M1 := srp.1 in
      let K := srp.2 in
      if negb (equalCT (cs_M p) M1)
      then
        log "login" ;;;
        throw INVALID_CREDENTIALS
      else
        id <- uuid ;;
        t <- date_now ;;
        device <- get_device ;;
        let session :=
          {| s_id := id; s_account := cs_account p; s_created := t;
             s_updated := s_updated new_Session;
             s_lastUsed := s_lastUsed new_Session;
             s_expires := s_expires new_Session; s_key := Some K;
             s_device := device;
             s_lastLocation := s_lastLocation new_Session |} in
        let auth :=
          set_auth_sessions (auth_sessions auth ++ [session_info session]) auth in
        let auth :=
          set_auth_srpSessions
            (JS.filter (λ s, negb (bool_decide (srp_id s = srp_id srpState)))
               (auth_srpSessions auth)) auth in
        storage_save session ;;;
        storage_save acc ;;;
        let auth :=
          match device with
          | Some d =>
              if negb (JS.some (λ t, equalCT (dev_id t) (dev_id d))
                         (auth_trustedDevices auth)) &&
                 cs_addTrustedDevice p
              then set_auth_trustedDevices (auth_trustedDevices auth ++ [d]) auth
              else auth
          | None => auth
          end in
        storage_save auth ;;;
        (* [delete session.key], after the session was saved *)
        let session := set_s_key None session in
        log "login" ;;;
        ret session
  end.

(** [Controller.revokeSession] (l. 648-663). *)
Definition revokeSession (id : string) : M unit :=
  t <- _requireAuth ;;
  let account := t.1.1 in
  let auth := t.2 in
  session <- storage_get Session id ;;
  WHEN (bool_decide (s_account session ≠ acc_id account))
    THROW INSUFFICIENT_PERMISSIONS ;;
  let i := JS.findIndex (λ s, bool_decide (si_id s = id)) (auth_sessions auth) in
  let auth := set_auth_sessions (JS.splice (auth_sessions auth) i 1) auth in
  mutate_ctx_auth auth ;;;
  storage_delete Session (s_id session) ;;;
  storage_save auth ;;;
  log "logout".


(** [Server.updateMetaData] (l. 1778-1843): a new revision for the org,
    pushed to the vaults and the member accounts that refer to it;
    references to vaults and members that are gone are pruned. *)
Definition updateMetaData (org : Org) : M Org :=
  rev <- uuid ;;
  t <- date_now ;;
  let org := set_org_revision rev t org in
  vaults <-
    map_M (λ vaultInfo : VaultInfo,
      try_catch
        (vault <- storage_get Vault (vi_id vaultInfo) ;;
         let vault :=
           {| v_id := v_id vault; v_name := vi_name vaultInfo;
              v_owner := v_owner vault;
              v_org := Some {| oi_id := org_id org; oi_name := org_name org;
                               oi_revision := Some (org_revision org) |};
              v_revision := v_revision vault;
              v_keyParams := v_keyParams vault;
              v_encryptionParams := v_encryptionParams vault;
              v_accessors := v_accessors vault;
              v_encryptedData := v_encryptedData vault;
              v_updated := v_updated vault |} in
         storage_save vault ;;;
         ret (set_vi_revision (Some (v_revision vault)) vaultInfo, false))
        (λ e, if bool_decide (e ≠ NOT_FOUND) then throw e
              else ret (vaultInfo, true)))
      (org_vaults org) ;;
  members <-
    map_M (λ member : OrgMember,
      try_catch
        (acc <- storage_get Account (m_id member) ;;
         let acc :=
           set_acc_orgs
             (JS.filter (λ o, bool_decide (oi_id o ≠ org_id org)) (acc_orgs acc)
              ++ [{| oi_id := org_id org; oi_name := org_name org;
                     oi_revision := Some (org_revision org) |}]) acc in
         storage_save acc ;;;
         ret (set_m_name (acc_name acc) member, false))
        (λ e, if bool_decide (e ≠ NOT_FOUND) then throw e
              else ret (member, true)))
      (org_members org) ;;
  let deletedVaults : gset string :=
    list_to_set (vi_id <$> (fst <$> JS.filter snd vaults)) in
  let deletedMembers : gset string :=
    list_to_set (m_id <$> (fst <$> JS.filter snd members)) in
  let org :=
    set_org_vaults
      (JS.filter (λ v, bool_decide (vi_id v ∉ deletedVaults)) (fst <$> vaults))
      org in
  let org :=
    set_org_members
      (JS.filter (λ m, bool_decide (m_id m ∉ deletedMembers)) (fst <$> members))
      org in
  ret org.

(** [Controller.updateAccount] (l. 735-772). *)
Definition updateAccount (p : Account) : M Account :=
  t <- _requireAuth ;;
  let account := t.1.1 in
  (* Check the revision id to make sure the changes are based on the most
     recent version stored on the server. *)
  WHEN (bool_decide (acc_revision p ≠ acc_revision account))
    THROW OUTDATED_REVISION ;;
  rev <- uuid ;;
  let nameChanged := bool_decide (acc_name account ≠ acc_name p) in
  now <- date_now ;;
  let account :=
    {| acc_id := acc_id account; acc_email := acc_email p;
       acc_name := acc_name p; acc_publicKey := acc_publicKey p;
       acc_keyParams := acc_keyParams p;
       acc_encryptionParams := acc_encryptionParams p;
       acc_encryptedData := acc_encryptedData p; acc_revision := rev;
       acc_orgs := acc_orgs account; acc_mainVault := acc_mainVault account;
       acc_updated := now |} in
  mutate_ctx_account account ;;;
  storage_save account ;;;
  (if nameChanged
   then
     for_each (acc_orgs account) (λ o,
       org <- storage_get Org (oi_id o) ;;
       (* [org.getMember (account)!.name = name]: a missing member is a
          [TypeError], which is no [Err] *)
       WHEN (negb (isMember org (acc_id account))) THROW SERVER_ERROR ;;
       let org :=
         set_org_members
           (JS.update_found (λ m, bool_decide (m_id m = acc_id account))
              (set_m_name (acc_name p)) (org_members org)) org in
       org <- updateMetaData org ;;
       storage_save org)
   else ret tt) ;;;
  log "account.update" ;;;
  ret account.

(** [Controller.updateOrg] (l. 933-1135).  The promises that it starts
    for the invites and the removed members are run one after the other,
    each to its end before the next one starts and before
    [updateMetaData], and their errors are kept until [Promise.all]: this
    is the schedule in which every promise is served at once.  In the
    code they are suspended at their first [await] and interleaved with
    each other and with [updateMetaData]; other schedules draw the ids in
    another order and can leave other invites on the Auth record of an
    email that is invited twice.  The checks all come before the first
    promise and do not depend on the schedule. *)
Definition updateOrg (p : Org) : M Org :=
  t <- _requireAuth ;;
  let account := t.1.1 in
  let auth := t.2 in
  (* Get existing org based on the id *)
  org <- storage_get Org (org_id p) ;;
  let provisioning := getProvisioning srv auth in
  match JS.find (λ o, bool_decide (op_orgId o = org_id p))
          (prov_orgs provisioning) with
  | None => throw PROVISIONING_NOT_ALLOWED
  | Some orgProvisioning =>
      WHEN (bool_decide (op_status orgProvisioning = ProvFrozen))
        THROW PROVISIONING_NOT_ALLOWED ;;
      (* Check the revision id *)
      WHEN (bool_decide (org_revision p ≠ org_revision org))
        THROW OUTDATED_REVISION ;;
      let is_owner :=
        bool_decide (org_owner org = acc_id account) ||
        isOwner org (acc_id account) in
      let is_admin := is_owner || isAdmin org (acc_id account) in
      (* Only admins can make any changes to organizations at all. *)
      WHEN (negb is_admin) THROW INSUFFICIENT_PERMISSIONS ;;
      WHEN (org_minMemberUpdated p <? org_minMemberUpdated org)
        THROW BAD_REQUEST ;;
      let addedMembers :=
        JS.filter (λ m, negb (isMember org (m_id m))) (org_members p) in
      let removedMembers :=
        JS.filter
          (λ m, negb (JS.some (λ m', bool_decide (m_id m = m_id m'))
                        (org_members p)))
          (org_members org) in
      let addedInvites :=
        JS.filter (λ i, negb (bool_decide (is_Some (getInvite org (inv_id i)))))
          (org_invites p) in
      let removedInvites :=
        JS.filter
          (λ i, negb (JS.some (λ i', bool_decide (inv_id i = inv_id i'))
                        (org_invites p)))
          (org_invites org) in
      (* Only org owners can add or remove members, change roles or
         create invites *)
      WHEN (negb is_owner &&
            (negb (bool_decide (addedMembers = [])) ||
             negb (bool_decide (removedMembers = [])) ||
             negb (bool_decide (addedInvites = [])) ||
             negb (bool_decide (removedInvites = [])) ||
             JS.some (λ m, match getMember org (m_id m) with
                           | None => true
                           | Some member =>
                               bool_decide (m_role member ≠ m_role m)
                           end) (org_members p)))
        THROW INSUFFICIENT_PERMISSIONS ;;
      (* Check members quota *)
      WHEN (bool_decide (op_quota_members orgProvisioning ≠ -1) &&
            (Z.of_nat (length (org_members p)) >?
               op_quota_members orgProvisioning))
        THROW PROVISIONING_QUOTA_EXCEEDED ;;
      (* Check groups quota *)
      WHEN (bool_decide (op_quota_groups orgProvisioning ≠ -1) &&
            (Z.of_nat (length (org_groups p)) >?
               op_quota_groups orgProvisioning))
        THROW PROVISIONING_QUOTA_EXCEEDED ;;
      let org :=
        {| org_id := org_id org; org_name := org_name org;
           org_owner := org_owner org; org_revision := org_revision org;
           org_publicKey := org_publicKey org;
           org_keyParams := org_keyParams org;
           org_encryptionParams := org_encryptionParams org;
           org_encryptedData := org_encryptedData org;
           org_signingParams := org_signingParams org;
           org_accessors := org_accessors org;
           org_members := org_members p; org_groups := org_groups p;
           org_vaults := org_vaults p; org_invites := org_invites org;
           org_minMemberUpdated := org_minMemberUpdated org;
           org_updated := org_updated org |} in
      (* certain properties may only be updated by organization owners *)
      let org :=
        if is_owner
        then
          {| org_id := org_id org; org_name := org_name p;
             org_owner := org_owner org; org_revision := org_revision org;
             org_publicKey := org_publicKey p;
             org_keyParams := org_keyParams p;
             org_encryptionParams := org_encryptionParams p;
             org_encryptedData := org_encryptedData p;
             org_signingParams := org_signingParams p;
             org_accessors := org_accessors p;
             org_members := org_members org; org_groups := org_groups org;
             org_vaults := org_vaults org; org_invites := org_invites p;
             org_minMemberUpdated := org_minMemberUpdated p;
             org_updated := org_updated org |}
        else org in
      (* New invites *)
      invited <- map_M (λ invite, settle (
        auth <- _getAuth (inv_email invite) ;;
        let auth :=
          set_auth_invites
            (auth_invites auth ++
               [{| ai_id := inv_id invite; ai_orgId := org_id org;
                   ai_orgName := org_name org |}]) auth in
        let path := "invite/" +:+ org_id org +:+ "/" +:+ inv_id invite in
        if bool_decide (auth_accountStatus auth = Unregistered)
        then
          (* account does not exist yet; add verification code to link *)
          signupRequest <- new_AuthRequest "" AuthType_Email Signup None ;;
          now <- date_now ;;
          let signupRequest := set_r_verified now signupRequest in
          let auth :=
            set_auth_authRequests (auth_authRequests auth ++ [signupRequest])
              auth in
          storage_save auth ;;;
          messenger_send (inv_email invite)
            (InviteCreatedMessage invite
               {| link_base := clientUrl (config srv); link_path := "signup/";
                  link_params :=
                    [("email", inv_email invite); ("next", path);
                     ("mfaToken", r_token signupRequest);
                     ("mfaId", r_id signupRequest);
                     ("mfaVerified", "true")] |})
        else
          storage_save auth ;;;
          messenger_send (inv_email invite)
            (InviteCreatedMessage invite
               {| link_base := clientUrl (config srv); link_path := path;
                  link_params := [("email", inv_email invite)] |})))
        addedInvites ;;
      uninvited <- map_M (λ invite, settle (
        auth <- _getAuth (inv_email invite) ;;
        storage_save
          (set_auth_invites
             (JS.filter (λ inv, bool_decide (ai_id inv ≠ inv_id invite))
                (auth_invites auth)) auth)))
        removedInvites ;;
      (* Removed members *)
      removed <- map_M (λ m : OrgMember, settle (
        acc <- storage_get Account (m_id m) ;;
        storage_save
          (set_acc_orgs
             (JS.filter (λ o, bool_decide (oi_id o ≠ org_id org)) (acc_orgs acc))
             acc)))
        removedMembers ;;
      let promises := invited ++ uninvited ++ removed in
      org <- updateMetaData org ;;
      (* Send a notification email to let the new member know they've
         been added *)
      for_each addedMembers (λ member,
        if bool_decide (m_id member ≠ acc_id account)
        then messenger_send (m_email member)
               (MemberAddedMessage (org_id org)
                  {| link_base := clientUrl (config srv);
                     link_path := "org/" +:+ org_id org;
                     link_params := [] |})
        else ret tt) ;;;
      Promise_all promises ;;;
      storage_save org ;;;
      log "org.update" ;;;
      ret org
  end.

(** [Controller.updateVault] (l. 1190-1265). *)
Definition updateVault (p : Vault) : M Vault :=
  t <- _requireAuth ;;
  let account := t.1.1 in
  let auth := t.2 in
  vault <- storage_get Vault (v_id p) ;;
  org <- match v_org vault with
         | Some o => org <- storage_get Org (oi_id o) ;; ret (Some org)
         | None => ret None
         end ;;
  let provisioning := getProvisioning srv auth in
  match vault_provisioning provisioning org with
  | None => throw PROVISIONING_NOT_ALLOWED
  | Some status =>
      WHEN (match org with
            | Some o => isSuspended o (acc_id account)
            | None => false
            end) THROW INSUFFICIENT_PERMISSIONS ;;
      (* Accounts can only read their private vaults and vaults they have
         been assigned to on an organization level. For everyone else,
         pretend like the vault doesn't exist. *)
      WHEN (match org with
            | Some o => negb (canRead srv o vault account)
            | None => bool_decide (v_owner vault ≠ acc_id account)
            end) THROW NOT_FOUND ;;
      (* Vaults can only be updated by accounts that have explicit write
         access *)
      WHEN (match org with
            | Some o => negb (canWrite srv o vault account)
            | None => false
            end) THROW INSUFFICIENT_PERMISSIONS ;;
      WHEN (bool_decide (status = ProvFrozen)) THROW PROVISIONING_NOT_ALLOWED ;;
      (* Check the revision id *)
      WHEN (bool_decide (v_revision p ≠ v_revision vault))
        THROW OUTDATED_REVISION ;;
      rev <- uuid ;;
      now <- date_now ;;
      let vault :=
        {| v_id := v_id vault; v_name := v_name vault; v_owner := v_owner vault;
           v_org := v_org vault; v_revision := rev;
           v_keyParams := v_keyParams p;
           v_encryptionParams := v_encryptionParams p;
           v_accessors := v_accessors p;
           v_encryptedData := v_encryptedData p; v_updated := now |} in
      storage_save vault ;;;
      match org with
      | Some o =>
          (* Update Org revision (since vault info has changed) *)
          o <- updateMetaData o ;;
          storage_save o
      | None =>
          (* Update main vault revision info on account *)
          let account :=
            set_acc_mainVault
              (set_vi_revision (Some (v_revision vault)) (acc_mainVault account))
              account in
          mutate_ctx_account account ;;;
          storage_save account
      end ;;;
      log "vault.update" ;;;
      storage_get Vault (v_id vault)
  end.

End Controller.

(** ** Views of a world *)

(** The context holds a session, an account and an Auth record: what
    [authenticate] leaves behind for a signed request. *)
Definition authenticated (w : World) (session : Session) (account : Account)
    (auth : Auth) : Prop :=
  ctx_session (context w) = Some session ∧
  ctx_account (context w) = Some account ∧
  ctx_auth (context w) = Some auth.

(** The Auth record held by the context and the one in the storage. *)
Definition ctx_sessions (w : World) : option (list SessionInfo) :=
  auth_sessions <$> ctx_auth (context w).

Definition stored_auth (w : World) (id : string) : option Auth :=
  st_auths (storage w) !! id.


(** Two worlds that differ at most in the stored Auth records. *)
Definition only_auths_differ (w w' : World) : Prop :=
  context w' = context w ∧ now w' = now w ∧ drawn w' = drawn w ∧
  provider_calls w' = provider_calls w ∧ outbox w' = outbox w ∧
  logs w' = logs w ∧
  st_accounts (storage w') = st_accounts (storage w) ∧
  st_sessions (storage w') = st_sessions (storage w) ∧
  st_orgs (storage w') = st_orgs (storage w) ∧
  st_vaults (storage w') = st_vaults (storage w).

(** Two worlds that differ at most in the calls received by the
    providers: [calls] are the calls received in between. *)
Definition only_calls_differ (w w' : World) (calls : list ProviderCall) : Prop :=
  storage w' = storage w ∧ context w' = context w ∧ now w' = now w ∧
  drawn w' = drawn w ∧ outbox w' = outbox w ∧ logs w' = logs w ∧
  provider_calls w' = provider_calls w ++ calls.

Definition is_CallInitAuthenticator (c : ProviderCall) : Prop :=
  match c with CallInitAuthenticator _ _ => True | _ => False end.

Definition is_CallVerifyAuthRequest (c : ProviderCall) : Prop :=
  match c with CallVerifyAuthRequest _ _ _ => True | _ => False end.

(** ** A small deployment

    One server with an email provider, the account of Alice with her Auth
    record, one of her sessions, the account of Bob, and an organization
    and a vault owned by Alice.  The examples below are run on it. *)

Module Sample.

Definition device : DeviceInfo :=
  {| dev_id := "device-1"; dev_locale := "en"; dev_appVersion := "4.0.0" |}.

(** An email provider that expects the code 123456. *)
Definition emailProvider : AuthServer :=
  {| supportsType t := bool_decide (t = AuthType_Email);
     initAuthenticator _ _ _ := Ok ("", "");
     activateAuthenticator _ _ := Ok ("", "");
     initAuthRequest _ _ _ := Ok ("123456", "");
     verifyAuthRequest _ r data :=
       if bool_decide (data = Some (r_state r)) then Ok tt
       else Err AUTHENTICATION_FAILED |}.

Definition provisioning (status : ProvisioningStatus) : Provisioning :=
  {| prov_account := Some {| ap_status := ProvActive; ap_quota_orgs := -1 |};
     prov_orgs :=
       [{| op_orgId := "org-1"; op_status := status; op_quota_members := -1;
           op_quota_groups := -1; op_quota_vaults := -1 |}] |}.

(** The server; [status] is the provisioning status of the organization. *)
Definition server (status : ProvisioningStatus) : Server :=
  {| config := default_ServerConfig;
     authServers := [emailProvider];
     getProvisioning _ := provisioning status;
     getIdFromEmail email := "hash:" +:+ email;
     uuid_source n := "uuid-" +:+ pretty n;
     session_verify s req :=
       bool_decide (s_key s = ra_signature <$> req_auth req);
     srp_setA s A := Ok ("M1:" +:+ srp_state s +:+ A, "K:" +:+ srp_state s +:+ A);
     canRead _ _ _ := true;
     canWrite _ _ _ := true |}.

Definition srv : Server := server ProvActive.

Definition totp (id : string) : Authenticator :=
  {| a_id := id; a_type := "totp"; a_status := AuthenticatorActive;
     a_purposes := [Login; AccessKeyStore]; a_lastUsed := None;
     a_device := None; a_state := "" |}.

Definition session : Session :=
  {| s_id := "session-1"; s_account := "alice"; s_created := 1000;
     s_updated := 1000; s_lastUsed := 1000; s_expires := None;
     s_key := Some "key-1"; s_device := Some device; s_lastLocation := None |}.

(** The account of Alice at the revision [rev]; the stored one is at
    "rev-a". *)
Definition alice_at (rev : string) : Account :=
  {| acc_id := "alice"; acc_email := "a@x.com"; acc_name := "Alice";
     acc_publicKey := "pk-a"; acc_keyParams := "kp-a";
     acc_encryptionParams := "ep-a"; acc_encryptedData := "data-a";
     acc_revision := rev;
     acc_orgs := [{| oi_id := "org-1"; oi_name := "Acme";
                     oi_revision := Some "rev-o" |}];
     acc_mainVault := {| vi_id := "vault-a"; vi_name := "My Vault";
                         vi_revision := Some "rev-v" |};
     acc_updated := 1000 |}.

Definition alice : Account := alice_at "rev-a".

Definition bob : Account :=
  {| acc_id := "bob"; acc_email := "b@x.com"; acc_name := "Bob";
     acc_publicKey := "pk-b"; acc_keyParams := "kp-b";
     acc_encryptionParams := "ep-b"; acc_encryptedData := "data-b";
     acc_revision := "rev-b"; acc_orgs := [];
     acc_mainVault := {| vi_id := "vault-b"; vi_name := "My Vault";
                         vi_revision := Some "rev-w" |};
     acc_updated := 1000 |}.

(** The Auth record of Alice, with the given authenticators, sessions,
    trusted devices and account status. *)
Definition auth_of (authenticators : list Authenticator)
    (sessions : list SessionInfo) (trusted : list DeviceInfo)
    (status : AccountStatus) : Auth :=
  {| auth_id := "hash:a@x.com"; auth_email := "a@x.com";
     auth_account := Some "alice"; auth_accountStatus := status;
     auth_verifier := Some "verifier-a"; auth_keyParams := "kp-a";
     auth_authenticators := authenticators; auth_mfaOrder := [];
     auth_sessions := sessions; auth_trustedDevices := trusted;
     auth_srpSessions := [{| srp_id := "srp-1"; srp_state := "b1" |}];
     auth_authRequests := []; auth_invites := [] |}.

Definition auth_bob : Auth :=
  {| auth_id := "hash:b@x.com"; auth_email := "b@x.com";
     auth_account := Some "bob"; auth_accountStatus := Active;
     auth_verifier := Some "verifier-b"; auth_keyParams := "kp-b";
     auth_authenticators := []; auth_mfaOrder := [];
     auth_sessions := []; auth_trustedDevices := [];
     auth_srpSessions := []; auth_authRequests := []; auth_invites := [] |}.

Definition session_bob : Session :=
  {| s_id := "session-2"; s_account := "bob"; s_created := 1000;
     s_updated := 1000; s_lastUsed := 1000; s_expires := None;
     s_key := Some "key-2"; s_device := None; s_lastLocation := None |}.

(** The organization at the revision [rev]; the stored one is at
    "rev-o". *)
Definition org_at (rev : string) : Org :=
  {| org_id := "org-1"; org_name := "Acme"; org_owner := "alice";
     org_revision := rev; org_publicKey := "pk-o";
     org_keyParams := "kp-o"; org_encryptionParams := "ep-o";
     org_encryptedData := "data-o"; org_signingParams := "sp-o";
     org_accessors := "acc-o";
     org_members :=
       [{| m_id := "alice"; m_name := "Alice"; m_email := "a@x.com";
           m_role := RoleOwner; m_vaults := [] |}];
     org_groups := []; org_vaults := []; org_invites := [];
     org_minMemberUpdated := 0; org_updated := 1000 |}.

Definition org : Org := org_at "rev-o".

(** The private vault of Alice at the revision [rev]; the stored one is
    at "rev-v". *)
Definition vault_at (rev : string) : Vault :=
  {| v_id := "vault-a"; v_name := "My Vault"; v_owner := "alice";
     v_org := None; v_revision := rev; v_keyParams := "kp-v";
     v_encryptionParams := "ep-v"; v_accessors := "acc-v";
     v_encryptedData := "data-v"; v_updated := 1000 |}.

Definition vault : Vault := vault_at "rev-v".

(** A second session of Alice, which her Auth record does not list. *)
Definition session_unlisted : Session :=
  {| s_id := "session-3"; s_account := "alice"; s_created := 500;
     s_updated := 500; s_lastUsed := 500; s_expires := None;
     s_key := Some "key-3"; s_device := None; s_lastLocation := None |}.

Definition store (auth : Auth) : Storage :=
  {| st_accounts := {[ "alice" := alice; "bob" := bob ]};
     st_auths := {[ "hash:a@x.com" := auth; "hash:b@x.com" := auth_bob ]};
     st_sessions := {[ "session-1" := session; "session-2" := session_bob;
                       "session-3" := session_unlisted ]};
     st_orgs := {[ "org-1" := org ]};
     st_vaults := {[ "vault-a" := vault ]} |}.

(** A world at time [t] whose context is [ctx]. *)
Definition world (auth : Auth) (ctx : Context) (t : Z) : World :=
  {| storage := store auth; context := ctx; now := t; drawn := 0;
     provider_calls := []; outbox := []; logs := [] |}.

(** The context of a request before it is authenticated, and the one of a
    request signed with the session of Alice, or of Bob. *)
Definition anonymous : Context :=
  {| ctx_session := None; ctx_account := None; ctx_auth := None;
     ctx_device := Some device |}.

Definition as_alice (auth : Auth) : Context :=
  {| ctx_session := Some session; ctx_account := Some alice;
     ctx_auth := Some auth; ctx_device := Some device |}.

Definition as_bob : Context :=
  {| ctx_session := Some session_bob; ctx_account := Some bob;
     ctx_auth := Some auth_bob; ctx_device := None |}.

(** Alice with one authenticator, and with two. *)
Definition auth1 : Auth := auth_of [totp "totp-1"] [session_info session] [] Active.
Definition auth2 : Auth :=
  auth_of [totp "totp-1"; totp "totp-2"] [session_info session] [] Active.

(** Alice with an Auth record that lists no session. *)
Definition auth0 : Auth := auth_of [totp "totp-1"] [] [] Active.
Definition world0 : World := world auth0 (as_alice auth0) 2000.

Definition world1 : World := world auth1 (as_alice auth1) 2000.

(** Bob, who is no member of the organization, signed in. *)
Definition world_bob : World := world auth1 as_bob 2000.
Definition world2 : World := world auth2 (as_alice auth2) 2000.

(** Alice with [device] on her trusted-device list, her account Active
    or Suspended. *)
Definition auth_trusted : Auth :=
  auth_of [totp "totp-1"] [session_info session] [device] Active.
Definition auth_suspended : Auth :=
  auth_of [totp "totp-1"] [session_info session] [device] Suspended.

(** A login by email from [device]. *)
Definition login_by_email : StartAuthRequestParams :=
  {| sp_email := "a@x.com"; sp_authenticatorId := None;
     sp_authenticatorIndex := None; sp_type := Some AuthType_Email;
     sp_supportedTypes := None; sp_purpose := Login; sp_data := None |}.

(** The last message of the handshake "srp-1" of Alice, with the proof
    [M]; the proof that matches is "M1:b1A1". *)
Definition handshake (srpId M : string) : CreateSessionParams :=
  {| cs_account := "alice"; cs_srpId := srpId; cs_A := "A1"; cs_M := M;
     cs_addTrustedDevice := true |}.

(** A request signed with the session of Alice and stamped [time]. *)
Definition request (time : Z) : Request :=
  {| req_method := "getAccount"; req_device := Some device;
     req_auth := Some {| ra_session := "session-1"; ra_time := time;
                         ra_signature := "key-1" |};
     req_location := None |}.

End Sample.

(** * More of the controller

    The methods below complete the part of [Controller] that works on the
    entities modelled above: the devices and parameters of an Auth record,
    the registration of authenticators, the start of the handshake, and
    the reads of organizations and vaults and the deletion of
    organizations. *)

Definition set_auth_verifier (v : option string) (a : Auth) : Auth :=
  {| auth_id := auth_id a; auth_email := auth_email a;
     auth_account := auth_account a;
     auth_accountStatus := auth_accountStatus a;
     auth_verifier := v; auth_keyParams := auth_keyParams a;
     auth_authenticators := auth_authenticators a;
     auth_mfaOrder := auth_mfaOrder a; auth_sessions := auth_sessions a;
     auth_trustedDevices := auth_trustedDevices a;
     auth_srpSessions := auth_srpSessions a;
     auth_authRequests := auth_authRequests a;
     auth_invites := auth_invites a |}.

Definition set_auth_keyParams (k : string) (a : Auth) : Auth :=
  {| auth_id := auth_id a; auth_email := auth_email a;
     auth_account := auth_account a;
     auth_accountStatus := auth_accountStatus a;
     auth_verifier := auth_verifier a; auth_keyParams := k;
     auth_authenticators := auth_authenticators a;
     auth_mfaOrder := auth_mfaOrder a; auth_sessions := auth_sessions a;
     auth_trustedDevices := auth_trustedDevices a;
     auth_srpSessions := auth_srpSessions a;
     auth_authRequests := auth_authRequests a;
     auth_invites := auth_invites a |}.

Definition set_auth_mfaOrder (l : list string) (a : Auth) : Auth :=
  {| auth_id := auth_id a; auth_email := auth_email a;
     auth_account := auth_account a;
     auth_accountStatus := auth_accountStatus a;
     auth_verifier := auth_verifier a; auth_keyParams := auth_keyParams a;
     auth_authenticators := auth_authenticators a;
     auth_mfaOrder := l; auth_sessions := auth_sessions a;
     auth_trustedDevices := auth_trustedDevices a;
     auth_srpSessions := auth_srpSessions a;
     auth_authRequests := auth_authRequests a;
     auth_invites := auth_invites a |}.

(** [authenticator.status = Active], with the state that the provider
    wrote. *)
Definition set_a_active (st : string) (a : Authenticator) : Authenticator :=
  {| a_id := a_id a; a_type := a_type a; a_status := AuthenticatorActive;
     a_purposes := a_purposes a; a_lastUsed := a_lastUsed a;
     a_device := a_device a; a_state := st |}.

Record UpdateAuthParams := {
  ua_verifier : option string;
  ua_keyParams : option string;
  ua_mfaOrder : option (list string) }.

Record StartRegisterAuthenticatorParams := {
  reg_type : AuthType;
  reg_purposes : list AuthPurpose;
  reg_data : option string;
  reg_device : option DeviceInfo }.

Record StartRegisterAuthenticatorResponse := {
  rr_id : string;
  rr_data : string;
  rr_type : AuthType }.

Record CompleteRegisterAuthenticatorParams := {
  ca_id : string;
  ca_data : option string }.

Record CompleteRegisterAuthenticatorResponse := {
  cc_id : string;
  cc_data : string }.

Record InitAuthParams := {
  ia_email : string;
  ia_verify : option string }.

Record InitAuthResponse := {
  ir_account : string;
  ir_keyParams : string;
  ir_B : string;
  ir_srpId : string }.

(** Truthiness of an optional string: [undefined] and the empty string
    are falsy. *)
Definition truthy_string (s : option string) : option string :=
  match s with
  | Some v => if bool_decide (v = "") then None else Some v
  | None => None
  end.

Section MoreController.

Context (srv : Server).

(** [new SRPServer (srpState)] followed by [srp.initialize (verifier)] of
    [./srp], for the handshake session with the given id: the state of
    the exchange that it leaves on the session, and the public value [B]. *)
Context (srp_initialize : string → option string → Res (string * string)).

(** [Controller.updateAuth] (l. 508-526). *)
Definition updateAuth (p : UpdateAuthParams) : M unit :=
  t <- _requireAuth ;;
  let auth := t.2 in
  let auth :=
    match truthy_string (ua_verifier p) with
    | Some verifier => set_auth_verifier (Some verifier) auth
    | None => auth
    end in
  let auth :=
    match ua_keyParams p with
    | Some keyParams => set_auth_keyParams keyParams auth
    | None => auth
    end in
  let auth :=
    match ua_mfaOrder p with
    | Some mfaOrder => set_auth_mfaOrder mfaOrder auth
    | None => auth
    end in
  mutate_ctx_auth auth ;;;
  storage_save auth ;;;
  log "auth.update".

(** [Controller.removeTrustedDevice] (l. 528-536). *)
Definition removeTrustedDevice (id : string) : M unit :=
  t <- _requireAuth ;;
  let auth := t.2 in
  let index := JS.findIndex (λ d, bool_decide (dev_id d = id))
                 (auth_trustedDevices auth) in
  WHEN (index <? 0) THROW NOT_FOUND ;;
  let auth :=
    set_auth_trustedDevices (JS.splice (auth_trustedDevices auth) index 1) auth in
  mutate_ctx_auth auth ;;;
  storage_save auth.

(** Modelled from the spec: [new Authenticator ({ type, purposes, device })]
    followed by [authenticator.init ()] of [./auth]: an authenticator that
    is not Active yet, whose id is drawn from the random source. *)
Definition new_Authenticator (type : AuthType) (purposes : list AuthPurpose)
    (device : option DeviceInfo) : M Authenticator :=
  id <- uuid srv ;;
  ret {| a_id := id; a_type := type; a_status := AuthenticatorRegistering;
         a_purposes := purposes; a_lastUsed := None; a_device := device;
         a_state := "" |}.

(** [Controller.startRegisterAuthenticator] (l. 332-345). *)
Definition startRegisterAuthenticator (p : StartRegisterAuthenticatorParams)
    : M StartRegisterAuthenticatorResponse :=
  t <- _requireAuth ;;
  let auth := t.2 in
  authenticator <- new_Authenticator (reg_type p) (reg_purposes p) (reg_device p) ;;
  provider <- _getAuthServer srv (reg_type p) ;;
  modify (add_provider_call
    (CallInitAuthenticator (reg_type p) (a_id authenticator))) ;;;
  r <- lift (initAuthenticator provider authenticator auth (reg_data p)) ;;
  let authenticator := set_a_state r.1 authenticator in
  let auth :=
    set_auth_authenticators (auth_authenticators auth ++ [authenticator]) auth in
  mutate_ctx_auth auth ;;;
  storage_save auth ;;;
  ret {| rr_id := a_id authenticator; rr_data := r.2; rr_type := reg_type p |}.

(** [Controller.completeRegisterAuthenticator] (l. 347-358). *)
Definition completeRegisterAuthenticator
    (p : CompleteRegisterAuthenticatorParams)
    : M CompleteRegisterAuthenticatorResponse :=
  t <- _requireAuth ;;
  let auth := t.2 in
  let is_method := λ m, bool_decide (a_id m = ca_id p) in
  match JS.find is_method (auth_authenticators auth) with
  | None => throw AUTHENTICATION_FAILED
  | Some method =>
      provider <- _getAuthServer srv (a_type method) ;;
      modify (add_provider_call
        (CallActivateAuthenticator (a_type method) (a_id method))) ;;;
      r <- lift (activateAuthenticator provider method (ca_data p)) ;;
      (* [method] is the object that [find] returned *)
      let auth :=
        set_auth_authenticators
          (JS.update_found is_method (set_a_active r.1)
             (auth_authenticators auth)) auth in
      mutate_ctx_auth auth ;;;
      storage_save auth ;;;
      ret {| cc_id := a_id method; cc_data := r.2 |}
  end.

(** [Controller.initAuth] (l. 538-579). *)
Definition initAuth (p : InitAuthParams) : M InitAuthResponse :=
  auth <- _getAuth srv (ia_email p) ;;
  log "auth.init" ;;;
  device <- get_device ;;
  let deviceTrusted := device_trusted device auth in
  (if truthy deviceTrusted then ret tt
   else
     match truthy_string (ia_verify p) with
     | None => throw AUTHENTICATION_REQUIRED
     | Some verify =>
         _useAuthToken srv
           {| ut_email := ia_email p; ut_token := verify; ut_purpose := Login;
              ut_authenticatorId := None; ut_requestId := None |}
     end) ;;;
  match truthy_string (auth_account auth) with
  | None =>
      (* The user has successfully verified their email address so it's
         safe to tell them that this account doesn't exist. *)
      throw NOT_FOUND
  | Some account =>
      srpId <- uuid srv ;;
      srp <- lift (srp_initialize srpId (auth_verifier auth)) ;;
      let srpState := {| srp_id := srpId; srp_state := srp.1 |} in
      let auth :=
        set_auth_srpSessions (auth_srpSessions auth ++ [srpState]) auth in
      storage_save auth ;;;
      ret {| ir_account := account; ir_keyParams := auth_keyParams auth;
             ir_B := srp.2; ir_srpId := srpId |}
  end.

(** [Controller.getOrg] (l. 917-931). *)
Definition getOrg (id : string) : M Org :=
  t <- _requireAuth ;;
  let account := t.1.1 in
  org <- storage_get Org id ;;
  (* Only members can read organization data. For non-members, we pretend
     the organization doesn't exist. *)
  WHEN (bool_decide (org_owner org ≠ acc_id account) &&
        negb (isMember org (acc_id account))) THROW NOT_FOUND ;;
  log "org.get" ;;;
  ret org.

(** [Controller.deleteOrg] (l. 1137-1161). *)
Definition deleteOrg (id : string) : M unit :=
  t <- _requireAuth ;;
  let account := t.1.1 in
  org <- storage_get Org id ;;
  WHEN (negb (isOwner org (acc_id account))) THROW INSUFFICIENT_PERMISSIONS ;;
  (* Delete all associated vaults *)
  for_each (org_vaults org) (λ v, storage_delete Vault (vi_id v)) ;;;
  (* Remove org from all member accounts *)
  detached <- map_M (λ member : OrgMember, settle (
    acc <- storage_get Account (m_id member) ;;
    storage_save
      (set_acc_orgs
         (JS.filter (λ o, bool_decide (oi_id o ≠ org_id org)) (acc_orgs acc))
         acc)))
    (org_members org) ;;
  Promise_all detached ;;;
  storage_delete Org (org_id org) ;;;
  log "org.delete".

(** [Controller.getVault] (l. 1163-1188). *)
Definition getVault (id : string) : M Vault :=
  t <- _requireAuth ;;
  let account := t.1.1 in
  vault <- storage_get Vault id ;;
  org <- match v_org vault with
         | Some o => org <- storage_get Org (oi_id o) ;; ret (Some org)
         | None => ret None
         end ;;
  WHEN (match org with
        | Some o => isSuspended o (acc_id account)
        | None => false
        end) THROW INSUFFICIENT_PERMISSIONS ;;
  (* Accounts can only read their private vaults and vaults they have
     been assigned to on an organization level. For everyone else,
     pretend like the vault doesn't exist. *)
  WHEN (match org with
        | Some o => negb (canRead srv o vault account)
        | None => bool_decide (v_owner vault ≠ acc_id account)
        end) THROW NOT_FOUND ;;
  log "vault.get" ;;;
  ret vault.

End MoreController.

(** ** More views of a world *)

(** Accounts are stored under their own id. *)
Definition accounts_keyed (w : World) : Prop :=
  ∀ k a, st_accounts (storage w) !! k = Some a → acc_id a = k.

(** The accounts stored in [w'] are those stored in [w], but for the
    organizations that they list. *)
Definition accounts_but_orgs (w w' : World) : Prop :=
  ∀ k, set_acc_orgs [] <$> st_accounts (storage w') !! k
       = set_acc_orgs [] <$> st_accounts (storage w) !! k.

(** Two worlds that differ at most in the stored accounts. *)
Definition only_accounts_differ (w w' : World) : Prop :=
  context w' = context w ∧ now w' = now w ∧ drawn w' = drawn w ∧
  provider_calls w' = provider_calls w ∧ outbox w' = outbox w ∧
  logs w' = logs w ∧
  st_auths (storage w') = st_auths (storage w) ∧
  st_sessions (storage w') = st_sessions (storage w) ∧
  st_orgs (storage w') = st_orgs (storage w) ∧
  st_vaults (storage w') = st_vaults (storage w).

(** The parameters [p] of [startAuthRequest] with the index [k]. *)
Definition with_index (k : Z) (p : StartAuthRequestParams)
    : StartAuthRequestParams :=
  {| sp_email := sp_email p; sp_authenticatorId := sp_authenticatorId p;
     sp_authenticatorIndex := Some k; sp_type := sp_type p;
     sp_supportedTypes := sp_supportedTypes p; sp_purpose := sp_purpose p;
     sp_data := sp_data p |}.

(** A request that [_useAuthToken] redeems for the given parameters: the
    token and the purpose are the ones asked for, the request was
    verified, and it is the request and belongs to the authenticator that
    the parameters name, where they name one. *)
Definition redeemable (p : UseAuthTokenParams) (r : AuthRequest) : Prop :=
  (∀ id, ut_authenticatorId p = Some id → r_authenticatorId r = id) ∧
  (∀ id, ut_requestId p = Some id → r_id r = id) ∧
  r_token r = ut_token p ∧ r_status r = Verified ∧
  r_purpose r = ut_purpose p.

(** ** More of the small deployment

    Alice signing in from her trusted device, Auth records of Alice that
    hold an auth request for the ad hoc email authenticator, and a storage
    that has lost the organization.  The examples of the second part are
    run on them. *)

Module Scenario.

(** An SRP server whose state and public value show the session id and
    the verifier they were made from. *)
Definition srp_initialize (srpId : string) (verifier : option string)
    : Res (string * string) :=
  Ok ("state:" +:+ srpId, "B:" +:+ default "" verifier).

(** Alice signed in from her trusted device, and a request of that
    device that is not signed. *)
Definition world_trusted : World :=
  Sample.world Sample.auth_trusted (Sample.as_alice Sample.auth_trusted) 2000.

Definition visitor_trusted : World :=
  Sample.world Sample.auth_trusted Sample.anonymous 2000.

Definition visitor : World := Sample.world Sample.auth1 Sample.anonymous 2000.

(** The ad hoc email authenticator of Alice. *)
Definition adHoc : Authenticator :=
  {| a_id := "ad_hoc_a@x.com_email"; a_type := AuthType_Email;
     a_status := AuthenticatorActive;
     a_purposes := [Signup; Login; Recover; GetLegacyData];
     a_lastUsed := None; a_device := None; a_state := "" |}.

(** A request for the ad hoc email authenticator, whose code is 123456. *)
Definition authRequest (purpose : AuthPurpose) (status : AuthRequestStatus)
    : AuthRequest :=
  {| r_id := "req-1"; r_type := AuthType_Email; r_purpose := purpose;
     r_token := "token-1"; r_tries := 0; r_status := status;
     r_authenticatorId := "ad_hoc_a@x.com_email"; r_verified := None;
     r_device := None; r_state := "123456" |}.

(** The Auth record of Alice, without trusted devices, holding one
    request. *)
Definition auth_with (request : AuthRequest) : Auth :=
  set_auth_authRequests [request] Sample.auth1.

Definition visitor_with (request : AuthRequest) : World :=
  Sample.world (auth_with request) Sample.anonymous 2000.

(** The answer to the request "req-1" of Alice, with the code [code]. *)
Definition answer (code : string) : CompleteAuthRequestParams :=
  {| cp_email := "a@x.com"; cp_id := "req-1"; cp_data := Some code |}.

(** Redeeming the token of the request for [purpose]. *)
Definition redeem (purpose : AuthPurpose) : UseAuthTokenParams :=
  {| ut_email := "a@x.com"; ut_token := "token-1"; ut_purpose := purpose;
     ut_authenticatorId := None; ut_requestId := Some "req-1" |}.

(** A request signed with the session [id] of key [key]. *)
Definition signed (id key : string) : Request :=
  {| req_method := "getAccount"; req_device := Some Sample.device;
     req_auth := Some {| ra_session := id; ra_time := 1990;
                         ra_signature := key |};
     req_location := None |}.

(** Alice signed in, after the organization was lost from the storage. *)
Definition world_without_org : World :=
  {| storage :=
       {| st_accounts := st_accounts (Sample.store Sample.auth1);
          st_auths := st_auths (Sample.store Sample.auth1);
          st_sessions := st_sessions (Sample.store Sample.auth1);
          st_orgs := ∅;
          st_vaults := st_vaults (Sample.store Sample.auth1) |};
     context := Sample.as_alice Sample.auth1; now := 2000; drawn := 0;
     provider_calls := []; outbox := []; logs := [] |}.

(** Alice under another name. *)
Definition alicia : Account :=
  {| acc_id := "alice"; acc_email := "a@x.com"; acc_name := "Alicia";
     acc_publicKey := "pk-a"; acc_keyParams := "kp-a";
     acc_encryptionParams := "ep-a"; acc_encryptedData := "data-a";
     acc_revision := "rev-a"; acc_orgs := []; 
     acc_mainVault := {| vi_id := "vault-a"; vi_name := "My Vault";
                         vi_revision := Some "rev-v" |};
     acc_updated := 1000 |}.

(** The registration of an email authenticator for logins. *)
Definition register_email : StartRegisterAuthenticatorParams :=
  {| reg_type := AuthType_Email; reg_purposes := [Login]; reg_data := None;
     reg_device := None |}.

(** The result of a run, for a run that succeeds. *)
Definition result {A} (d : A) (r : Res A * World) : A :=
  match r.1 with Ok a => a | Err _ => d end.

(** Alice sends the organization, and her account, as they are stored. *)
Definition org_resent : Res Org * World :=
  updateOrg Sample.srv Sample.org Sample.world1.

Definition account_resent : Res Account * World :=
  updateAccount Sample.srv Sample.alice Sample.world1.






(** An auth request of Alice for an email authenticator. *)
Definition by_email (purpose : AuthPurpose) : StartAuthRequestParams :=
  {| sp_email := "a@x.com"; sp_authenticatorId := None;
     sp_authenticatorIndex := None; sp_type := Some AuthType_Email;
     sp_supportedTypes := None; sp_purpose := purpose; sp_data := None |}.

End Scenario.
(** * Properties *)

(** ** Arrays *)

Lemma findIndex_range {A} (p : A → bool) (l : list A) :
  JS.findIndex p l = -1 ∨ 0 ≤ JS.findIndex p l < Z.of_nat (length l).
Proof.
  induction l as [|x l IH]; simpl; [by left|].
  destruct (p x); [right; lia|].
  destruct IH as [-> | IH]; [by left|].
  right. destruct (Z.ltb_spec (JS.findIndex p l) 0); lia.
Qed.

(** [findIndex] misses exactly when no element satisfies the predicate. *)
Lemma findIndex_none {A} (p : A → bool) (l : list A) :
  JS.findIndex p l < 0 ↔ ∀ x, x ∈ l → p x = false.
Proof.
  induction l as [|x l IH]; simpl.
  - split; [intros _ y Hy; by apply elem_of_nil in Hy | lia].
  - destruct (p x) eqn:Hx.
    + split; [lia|]. intros H. specialize (H x (list_elem_of_here _ _)). congruence.
    + destruct (Z.ltb_spec (JS.findIndex p l) 0) as [Hlt|Hge].
      * split; [|lia]. intros _ y Hy.
        apply elem_of_cons in Hy as [->|Hy]; [done|]. by apply IH.
      * split; [lia|]. intros H.
        assert (JS.findIndex p l < 0); [|lia].
        apply IH. intros y Hy. apply H. by right.
Qed.

(** [findIndex] hits the first element satisfying the predicate. *)
Lemma findIndex_first {A} (p : A → bool) (l : list A) :
  0 ≤ JS.findIndex p l →
  ∃ l1 x l2, l = l1 ++ x :: l2 ∧ p x = true ∧
    (∀ y, y ∈ l1 → p y = false) ∧
    JS.findIndex p l = Z.of_nat (length l1).
Proof.
  induction l as [|x l IH]; simpl; [lia|].
  destruct (p x) eqn:Hx.
  - intros _. exists [], x, l. repeat split; try done.
    intros y Hy. by apply elem_of_nil in Hy.
  - destruct (Z.ltb_spec (JS.findIndex p l) 0) as [Hlt|Hge]; [lia|].
    intros _. destruct (IH Hge) as (l1 & y & l2 & -> & Hy & Hl1 & Hi).
    exists (x :: l1), y, l2. repeat split; try done.
    + intros z Hz. apply elem_of_cons in Hz as [->|Hz]; [done|]. by apply Hl1.
    + rewrite Hi. simpl length. lia.
Qed.

Lemma find_some {A} (p : A → bool) (l : list A) (x : A) :
  JS.find p l = Some x → x ∈ l ∧ p x = true.
Proof.
  induction l as [|y l IH]; simpl; [done|].
  destruct (p y) eqn:Hy.
  - intros [= ->]. split; [by left | done].
  - intros H. destruct (IH H). split; [by right | done].
Qed.

Lemma find_none {A} (p : A → bool) (l : list A) :
  JS.find p l = None ↔ ∀ x, x ∈ l → p x = false.
Proof.
  induction l as [|y l IH]; simpl.
  - split; [intros _ x Hx; by apply elem_of_nil in Hx | done].
  - destruct (p y) eqn:Hy.
    + split; [done|]. intros H. specialize (H y (list_elem_of_here _ _)). congruence.
    + rewrite IH. split.
      * intros H x Hx. apply elem_of_cons in Hx as [->|Hx]; [done|]. by apply H.
      * intros H x Hx. apply H. by right.
Qed.

Lemma elem_of_filter {A} (p : A → bool) (l : list A) (x : A) :
  x ∈ JS.filter p l ↔ x ∈ l ∧ p x = true.
Proof.
  induction l as [|y l IH]; simpl.
  - split; [intros H; by apply elem_of_nil in H | intros [H _]; by apply elem_of_nil in H].
  - destruct (p y) eqn:Hy; rewrite ?elem_of_cons, IH, ?elem_of_cons.
    + split; [intros [->|[? ?]]; auto | intros [[->|?] ?]; auto].
    + split; [intros [? ?]; auto | intros [[->|?] ?]; [congruence | auto]].
Qed.

Lemma insert_by_perm {A} (key : A → Z) (x : A) (l : list A) :
  JS.insert_by key x l ≡ₚ x :: l.
Proof.
  induction l as [|y l IH]; simpl; [done|].
  destruct (key x <=? key y); [done|].
  rewrite IH. apply Permutation_swap.
Qed.

(** Sorting permutes. *)
Lemma sort_by_perm {A} (key : A → Z) (l : list A) : JS.sort_by key l ≡ₚ l.
Proof.
  unfold JS.sort_by. induction l as [|x l IH]; simpl; [done|].
  by rewrite insert_by_perm, IH.
Qed.

(** [splice (i, 1)] at an index inside the array takes out that element. *)
Lemma splice_inside {A} (l1 l2 : list A) (x : A) :
  JS.splice (l1 ++ x :: l2) (Z.of_nat (length l1)) 1 = l1 ++ l2.
Proof.
  unfold JS.splice. rewrite length_app. simpl length.
  destruct (Z.ltb_spec (Z.of_nat (length l1)) 0) as [?|_]; [lia|].
  rewrite Z.min_l by lia. rewrite Nat2Z.id.
  rewrite take_app_length.
  replace (length l1 + 1)%nat with (length l1 + 1 + 0)%nat by lia.
  rewrite <- Nat.add_assoc. rewrite drop_app_add'; [|done].
  done.
Qed.

(** [splice (-1, 1)] takes out the last element, if there is one. *)
Lemma splice_minus_one {A} (l : list A) (x : A) :
  JS.splice (l ++ [x]) (-1) 1 = l.
Proof.
  unfold JS.splice. rewrite length_app. simpl.
  rewrite Z.max_l by lia.
  replace (Z.to_nat (Z.of_nat (length l + 1) + -1)) with (length l) by lia.
  rewrite take_app_length.
  rewrite drop_ge; [by rewrite app_nil_r|].
  rewrite length_app. simpl. lia.
Qed.

Lemma splice_minus_one_nil {A} : JS.splice (@nil A) (-1) 1 = [].
Proof. reflexivity. Qed.

(** ** Running the monad *)

Ltac munfold :=
  unfold bind, ret, throw, try_catch, lift, modify, date_now,
    get_device, log, messenger_send, uuid, storage_get, storage_save,
    storage_delete, mutate_ctx_account, mutate_ctx_auth;
  cbn [table set_table id_of Storable_Account Storable_Auth Storable_Session
       Storable_Org Storable_Vault fst snd].

(** ** The authenticated context *)

Lemma _requireAuth_authenticated w session account auth :
  authenticated w session account auth →
  _requireAuth w = (Ok (account, session, auth), w).
Proof. intros (Hs & Ha & Hau). unfold _requireAuth. by rewrite Hs, Ha, Hau. Qed.

Ltac run_requireAuth H :=
  unfold bind at 1; rewrite (_requireAuth_authenticated _ _ _ _ H); cbn beta iota.

(** ** deleteAuthenticator *)

Lemma deleteAuthenticator_last w session account auth id :
  authenticated w session account auth →
  (length (auth_authenticators auth) ≤ 1)%nat →
  deleteAuthenticator id w = (Err BAD_REQUEST, w).
Proof.
  intros Hctx Hlen. unfold deleteAuthenticator. run_requireAuth Hctx.
  cbn [snd]. destruct (Z.leb_spec (Z.of_nat (length (auth_authenticators auth))) 1); [done | lia].
Qed.

Lemma deleteAuthenticator_unknown w session account auth id :
  authenticated w session account auth →
  (2 ≤ length (auth_authenticators auth))%nat →
  (∀ a, a ∈ auth_authenticators auth → a_id a ≠ id) →
  deleteAuthenticator id w = (Err NOT_FOUND, w).
Proof.
  intros Hctx Hlen Hno. unfold deleteAuthenticator. run_requireAuth Hctx.
  cbn [snd]. destruct (Z.leb_spec (Z.of_nat (length (auth_authenticators auth))) 1); [lia|].
  assert (JS.findIndex (λ a, bool_decide (a_id a = id)) (auth_authenticators auth) < 0) as Hi.
  { apply findIndex_none. intros a Ha. apply bool_decide_eq_false. by apply Hno. }
  apply Z.ltb_lt in Hi. by rewrite Hi.
Qed.

Lemma deleteAuthenticator_found w session account auth id l1 a l2 :
  authenticated w session account auth →
  (2 ≤ length (auth_authenticators auth))%nat →
  auth_authenticators auth = l1 ++ a :: l2 →
  a_id a = id →
  (∀ b, b ∈ l1 → a_id b ≠ id) →
  ∃ w', deleteAuthenticator id w = (Ok tt, w') ∧
    ctx_auth (context w') = Some (set_auth_authenticators (l1 ++ l2) auth) ∧
    stored_auth w' (auth_id auth) = Some (set_auth_authenticators (l1 ++ l2) auth).
Proof.
  intros Hctx Hlen Hl Ha Hl1. unfold deleteAuthenticator. run_requireAuth Hctx.
  cbn [snd]. destruct (Z.leb_spec (Z.of_nat (length (auth_authenticators auth))) 1); [lia|].
  assert (JS.findIndex (λ a, bool_decide (a_id a = id)) (auth_authenticators auth)
          = Z.of_nat (length l1)) as Hi.
  { rewrite Hl. clear -Ha Hl1. induction l1 as [|b l1 IH]; simpl.
    - by rewrite bool_decide_eq_true_2.
    - rewrite bool_decide_eq_false_2 by (apply Hl1; by left).
      rewrite IH by (intros c Hc; apply Hl1; by right).
      destruct (Z.ltb_spec (Z.of_nat (length l1)) 0); lia. }
  rewrite Hi. destruct (Z.ltb_spec (Z.of_nat (length l1)) 0); [lia|].
  rewrite Hl, splice_inside.
  eexists. split; [reflexivity|]. split; [reflexivity|].
  unfold stored_auth. simpl. apply lookup_insert_eq.
Qed.

(** C7. Deleting the last authenticator of an Auth record fails and
    leaves the list as it is, in the context and in the storage; deleting
    one of two succeeds and leaves exactly one, the other one. *)
Theorem C7_deleteAuthenticator_keeps_one w session account auth id :
  authenticated w session account auth →
  (length (auth_authenticators auth) = 1%nat →
     ∃ e, deleteAuthenticator id w = (Err e, w)) ∧
  (∀ a b, auth_authenticators auth = [a; b] → a_id a = id ∨ a_id b = id →
     ∃ w' auth' c,
       deleteAuthenticator id w = (Ok tt, w') ∧
       ctx_auth (context w') = Some auth' ∧
       stored_auth w' (auth_id auth) = Some auth' ∧
       auth_authenticators auth' = [c] ∧
       c = (if bool_decide (a_id a = id) then b else a)).
Proof.
  intros Hctx. split.
  - intros Hlen. exists BAD_REQUEST.
    apply (deleteAuthenticator_last _ _ _ _ _ Hctx). lia.
  - intros a b Hl Hid.
    destruct (decide (a_id a = id)) as [Ha|Ha].
    + destruct (deleteAuthenticator_found w session account auth id [] a [b])
        as (w' & Hrun & Hc & Hs); try done.
      { rewrite Hl. simpl. lia. }
      { intros c Hc. by apply elem_of_nil in Hc. }
      exists w', (set_auth_authenticators [b] auth), b.
      rewrite bool_decide_eq_true_2 by done. by repeat split.
    + destruct Hid as [?|Hb]; [done|].
      destruct (deleteAuthenticator_found w session account auth id [a] b [])
        as (w' & Hrun & Hc & Hs); try done.
      { rewrite Hl. simpl. lia. }
      { intros c Hc. apply list_elem_of_singleton in Hc as ->. done. }
      exists w', (set_auth_authenticators [a] auth), a.
      rewrite bool_decide_eq_false_2 by done. by repeat split.
Qed.

(** C8. The last-authenticator guard comes before the lookup of the id:
    with at most one authenticator the call fails with BAD_REQUEST
    whatever the id, and NOT_FOUND is raised exactly when the record holds
    two or more authenticators and none of them has the id. *)
Theorem C8_deleteAuthenticator_guard_order w session account auth id :
  authenticated w session account auth →
  ((length (auth_authenticators auth) ≤ 1)%nat →
     deleteAuthenticator id w = (Err BAD_REQUEST, w)) ∧
  ((deleteAuthenticator id w).1 = Err NOT_FOUND ↔
     (2 ≤ length (auth_authenticators auth))%nat ∧
     ∀ a, a ∈ auth_authenticators auth → a_id a ≠ id).
Proof.
  intros Hctx. split; [apply (deleteAuthenticator_last _ _ _ _ _ Hctx)|].
  split.
  - intros Hrun.
    destruct (decide (length (auth_authenticators auth) ≤ 1)%nat) as [Hlen|Hlen].
    { rewrite (deleteAuthenticator_last _ _ _ _ _ Hctx Hlen) in Hrun. done. }
    split; [lia|]. intros a Ha Hid.
    assert (0 ≤ JS.findIndex (λ a, bool_decide (a_id a = id)) (auth_authenticators auth)) as Hi.
    { destruct (Z.lt_ge_cases (JS.findIndex (λ a, bool_decide (a_id a = id))
                                 (auth_authenticators auth)) 0) as [Hlt|]; [|done].
      apply findIndex_none with (x := a) in Hlt; [|done].
      apply bool_decide_eq_false in Hlt. done. }
    destruct (findIndex_first _ _ Hi) as (l1 & x & l2 & Hl & Hx & Hl1 & _).
    apply bool_decide_eq_true in Hx.
    destruct (deleteAuthenticator_found w session account auth id l1 x l2)
      as (w' & Hrun' & _); try done; [lia| |].
    { intros b Hb. specialize (Hl1 b Hb). by apply bool_decide_eq_false in Hl1. }
    rewrite Hrun' in Hrun. done.
  - intros [Hlen Hno].
    by rewrite (deleteAuthenticator_unknown _ _ _ _ _ Hctx Hlen Hno).
Qed.

Lemma C7_deleteAuthenticator_keeps_one_witness :
  (∃ e, deleteAuthenticator "totp-1" Sample.world1 = (Err e, Sample.world1)) ∧
  (∃ w' auth' c,
     deleteAuthenticator "totp-2" Sample.world2 = (Ok tt, w') ∧
     ctx_auth (context w') = Some auth' ∧
     stored_auth w' (auth_id Sample.auth2) = Some auth' ∧
     auth_authenticators auth' = [c] ∧ c = Sample.totp "totp-1").
Proof.
  split.
  - apply (C7_deleteAuthenticator_keeps_one Sample.world1 Sample.session
             Sample.alice Sample.auth1 "totp-1"); [by repeat split | reflexivity].
  - destruct (C7_deleteAuthenticator_keeps_one Sample.world2 Sample.session
                Sample.alice Sample.auth2 "totp-2") as [_ H]; [by repeat split|].
    destruct (H (Sample.totp "totp-1") (Sample.totp "totp-2") eq_refl
                (or_intror eq_refl)) as (w' & auth' & c & ? & ? & ? & ? & Hc).
    exists w', auth', c. repeat split; try done.
Defined.

Lemma C8_deleteAuthenticator_guard_order_witness :
  deleteAuthenticator "no-such-id" Sample.world1 = (Err BAD_REQUEST, Sample.world1) ∧
  (deleteAuthenticator "no-such-id" Sample.world2).1 = Err NOT_FOUND.
Proof.
  split.
  - apply (C8_deleteAuthenticator_guard_order Sample.world1 Sample.session
             Sample.alice Sample.auth1 "no-such-id"); [by repeat split | simpl; lia].
  - apply (C8_deleteAuthenticator_guard_order Sample.world2 Sample.session
             Sample.alice Sample.auth2 "no-such-id"); [by repeat split |].
    split; [simpl; lia|].
    intros a Ha. simpl in Ha.
    apply elem_of_cons in Ha as [->|Ha]; [done|].
    apply list_elem_of_singleton in Ha as ->. done.
Defined.

(** ** _getAuth *)

(** [_getAuth] always returns a record, and writes nothing but the
    migration of a record stored under the plain email. *)
Lemma _getAuth_effect srv email w :
  ∃ auth w', _getAuth srv email w = (Ok auth, w') ∧ only_auths_differ w w'.
Proof.
  unfold _getAuth, bind, try_catch, storage_get, ret. cbn [table Storable_Auth].
  destruct (st_auths (storage w) !! getIdFromEmail srv email) as [a|] eqn:Hh.
  - exists a, w. by repeat split.
  - rewrite bool_decide_eq_false_2 by (intros H; by apply H).
    destruct (st_auths (storage w) !! email) as [a|] eqn:He.
    + eexists _, _. split; [reflexivity|]. by repeat split.
    + eexists _, _. split; [reflexivity|]. by repeat split.
Qed.

(** A record stored under the hash of its email is returned as it is. *)
Lemma _getAuth_stored srv email w auth :
  st_auths (storage w) !! getIdFromEmail srv email = Some auth →
  _getAuth srv email w = (Ok auth, w).
Proof.
  intros H. unfold _getAuth, bind, try_catch, storage_get, ret.
  cbn [table Storable_Auth]. by rewrite H.
Qed.

(** ** authenticate *)

(** C4 (as amended). The session authenticator rejects a request with
    MAX_REQUEST_AGE_EXCEEDED exactly when the checks before it pass (the
    session exists, has not expired, the signature verifies) and the
    signed difference between the current time and the timestamp of the
    request exceeds maxRequestAge: a request at exactly the boundary is
    accepted by this check, one unit over is rejected, and a timestamp in
    the future is never rejected by it. *)
Theorem C4_request_age_window srv req w :
  (authenticate srv req w).1 = Err MAX_REQUEST_AGE_EXCEEDED ↔
  ∃ ra session,
    req_auth req = Some ra ∧
    st_sessions (storage w) !! ra_session ra = Some session ∧
    (∀ expires, s_expires session = Some expires → now w ≤ expires) ∧
    session_verify srv session req = true ∧
    now w - ra_time ra > maxRequestAge (config srv).
Proof.
  unfold authenticate.
  destruct (req_auth req) as [ra|] eqn:Hra.
  2:{ simpl. split; [done|]. by intros (? & ? & ? & _). }
  munfold.
  destruct (st_sessions (storage w) !! ra_session ra) as [session|] eqn:Hs.
  2:{ simpl. split; [done|].
      intros (? & ? & [= <-] & ? & _). congruence. }
  destruct (match s_expires session with Some e => e <? now w | None => false end)
    eqn:Hexp.
  { simpl. split; [done|].
    intros (? & s & [= <-] & Hs' & Hnot & _). rewrite Hs in Hs'.
    injection Hs' as <-.
    destruct (s_expires session) as [e|]; [|done].
    specialize (Hnot e eq_refl). apply Z.ltb_lt in Hexp. lia. }
  destruct (session_verify srv session req) eqn:Hv.
  2:{ simpl. split; [done|].
      intros (? & s & [= <-] & Hs' & _ & Hv' & _). rewrite Hs in Hs'.
      injection Hs' as <-. congruence. }
  cbn [negb].
  destruct (Z.gtb_spec (now w - ra_time ra) (maxRequestAge (config srv))) as [Hage|Hage].
  { simpl. split; [intros _|done].
    exists ra, session. repeat split; try done; [|lia].
    intros e He. rewrite He in Hexp. apply Z.ltb_ge in Hexp. done. }
  split.
  2:{ intros (? & s & [= <-] & _ & _ & _ & ?). lia. }
  destruct (st_accounts (storage w) !! s_account session) as [account|]; [|done].
  destruct (_getAuth_effect srv (acc_email account) w) as (auth & w' & -> & _).
  done.
Qed.

(** C4 as stated fails, the window is not symmetric: a request stamped
    3 600 001 ms in the future, with a valid signature, is accepted. *)
Lemma C4_counterexample :
  let w := Sample.world Sample.auth1 Sample.anonymous 1000000 in
  let req := Sample.request 4600001 in
  req_auth req = Some {| ra_session := "session-1"; ra_time := 4600001;
                         ra_signature := "key-1" |} ∧
  Z.abs (now w - 4600001) > maxRequestAge (config Sample.srv) ∧
  (authenticate Sample.srv req w).1 = Ok tt.
Proof.
  split; [reflexivity|]. split; [reflexivity|]. vm_compute. reflexivity.
Qed.

(** At the boundary and one millisecond over. *)
Example authenticate_boundary :
  let w := Sample.world Sample.auth1 Sample.anonymous 4600000 in
  (authenticate Sample.srv (Sample.request 1000000) w).1 = Ok tt ∧
  (authenticate Sample.srv (Sample.request 999999) w).1
    = Err MAX_REQUEST_AGE_EXCEEDED.
Proof. split; vm_compute; reflexivity. Qed.

(** The account that [authenticate] puts in the context is the stored
    one: it is read from the storage, under the account id of the session,
    and saved again under its own id. *)
Lemma authenticate_account srv req ra w0 w :
  req_auth req = Some ra →
  authenticate srv req w0 = (Ok tt, w) →
  ∃ session0 account,
    st_sessions (storage w0) !! ra_session ra = Some session0 ∧
    st_accounts (storage w0) !! s_account session0 = Some account ∧
    ctx_account (context w) = Some account ∧
    st_accounts (storage w) !! acc_id account = Some account.
Proof.
  intros Hra. unfold authenticate. rewrite Hra. munfold.
  destruct (st_sessions (storage w0) !! ra_session ra) as [session|] eqn:Hs;
    [|done].
  destruct (match s_expires session with Some e => e <? now w0 | None => false end);
    [done|].
  destruct (negb (session_verify srv session req)); [done|].
  destruct (now w0 - ra_time ra >? maxRequestAge (config srv)); [done|].
  destruct (st_accounts (storage w0) !! s_account session) as [account|] eqn:Ha;
    [|done].
  destruct (_getAuth_effect srv (acc_email account) w0) as (auth & w1 & -> & _).
  intros [= <-]. exists session, account.
  split; [done|]. split; [done|]. split; [reflexivity|].
  cbn [storage set_storage st_accounts]. apply lookup_insert_eq.
Qed.

(** ** startAuthRequest *)

Lemma includes_elem_of (l : list string) (x : string) :
  JS.includes l x = true ↔ x ∈ l.
Proof.
  unfold JS.includes, JS.some. rewrite existsb_exists. split.
  - intros (y & Hy & Heq). apply bool_decide_eq_true in Heq as ->.
    by apply list_elem_of_In.
  - intros H. exists x. split; [by apply list_elem_of_In|].
    by apply bool_decide_eq_true.
Qed.

Lemma selectable_spec p m :
  selectable p m = true ↔
    (∀ id, sp_authenticatorId p = Some id → a_id m = id) ∧
    (∀ t, sp_type p = Some t → a_type m = t) ∧
    (∀ ts, sp_supportedTypes p = Some ts → a_type m ∈ ts) ∧
    (sp_purpose p = TestAuthenticator ∨ sp_purpose p ∈ a_purposes m) ∧
    a_status m = AuthenticatorActive.
Proof.
  unfold selectable, undefined_or.
  rewrite !andb_true_iff, orb_true_iff, !bool_decide_eq_true.
  destruct (sp_authenticatorId p) as [id|], (sp_type p) as [t|],
    (sp_supportedTypes p) as [ts|];
    rewrite ?bool_decide_eq_true, ?includes_elem_of;
    (split; [intros ((((? & ?) & ?) & ?) & ?); repeat split; try done;
               intros ? [= <-]; done
            | intros (H1 & H2 & H3 & ? & ?); repeat split; eauto]).
Qed.

Lemma _createAdHocAuthenticator_effect srv auth purposes type w r w' :
  _createAdHocAuthenticator srv auth purposes type w = (r, w') →
  ∃ calls, only_calls_differ w w' calls ∧ Forall is_CallInitAuthenticator calls.
Proof.
  unfold _createAdHocAuthenticator, _getAuthServer. munfold.
  destruct (JS.find _ (authServers srv)) as [provider|].
  - destruct (initAuthenticator provider _ auth None) as [[st data]|e];
      intros [= <- <-]; eexists [_]; (split; [by repeat split|]);
      by repeat constructor.
  - intros [= <- <-]. exists []. split; [|constructor].
    repeat split; try done. by rewrite app_nil_r.
Qed.

Lemma only_calls_differ_trans w1 w2 w3 c1 c2 :
  only_calls_differ w1 w2 c1 → only_calls_differ w2 w3 c2 →
  only_calls_differ w1 w3 (c1 ++ c2).
Proof.
  intros (?&?&?&?&?&?&Hc1) (?&?&?&?&?&?&Hc2).
  repeat split; try congruence. by rewrite Hc2, Hc1, app_assoc.
Qed.

Lemma only_calls_differ_refl w : only_calls_differ w w [].
Proof. repeat split; try done. by rewrite app_nil_r. Qed.

Lemma map_M_adHoc_effect srv auth purposes types w r w' :
  map_M (_createAdHocAuthenticator srv auth purposes) types w = (r, w') →
  ∃ calls, only_calls_differ w w' calls ∧ Forall is_CallInitAuthenticator calls.
Proof.
  revert w r w'. induction types as [|type types IH]; intros w r w'; simpl.
  - intros [= <- <-]. exists []. split; [apply only_calls_differ_refl | constructor].
  - unfold bind at 1.
    destruct (_createAdHocAuthenticator srv auth purposes type w) as [[a|e] w1] eqn:H1;
      apply _createAdHocAuthenticator_effect in H1 as (c1 & Hc1 & Hf1).
    + unfold bind at 1.
      destruct (map_M _ types w1) as [[l|e] w2] eqn:H2;
        apply IH in H2 as (c2 & Hc2 & Hf2); intros [= <- <-];
        exists (c1 ++ c2); (split; [by eapply only_calls_differ_trans|]);
        by apply Forall_app.
    + intros [= <- <-]. by exists c1.
Qed.

(** [_getAuthenticators] only talks to the providers, and only to
    initialise the ad hoc authenticators. *)
Lemma _getAuthenticators_effect srv auth w r w' :
  _getAuthenticators srv auth w = (r, w') →
  ∃ calls, only_calls_differ w w' calls ∧ Forall is_CallInitAuthenticator calls.
Proof.
  unfold _getAuthenticators. unfold bind at 1.
  destruct (map_M _ _ w) as [[l|e] w1] eqn:H;
    apply map_M_adHoc_effect in H as (c & Hc & Hf); intros [= <- <-];
    by exists c.
Qed.

(** Membership in [availableAuthenticators]: an authenticator is among
    the available ones if and only if it is one of the candidates, passes
    the id, type and supported-types filters, is active, and either the
    requested purpose is TestAuthenticator or its purposes list contains
    the requested purpose. *)
Lemma availableAuthenticators_spec auth p authenticators x :
  x ∈ availableAuthenticators auth p authenticators ↔
    x ∈ authenticators ∧
    (∀ id, sp_authenticatorId p = Some id → a_id x.2 = id) ∧
    (∀ t, sp_type p = Some t → a_type x.2 = t) ∧
    (∀ ts, sp_supportedTypes p = Some ts → a_type x.2 ∈ ts) ∧
    (sp_purpose p = TestAuthenticator ∨ sp_purpose p ∈ a_purposes x.2) ∧
    a_status x.2 = AuthenticatorActive.
Proof.
  unfold availableAuthenticators.
  rewrite sort_by_perm, elem_of_filter, selectable_spec. done.
Qed.

(** What a successful [startAuthRequest] did, step by step. *)
Lemma startAuthRequest_inv srv p w resp w' :
  startAuthRequest srv p w = (Ok resp, w') →
  ∃ auth w1 authenticators w2 i authenticator provider st data,
    _getAuth srv (sp_email p) w = (Ok auth, w1) ∧
    _getAuthenticators srv auth w1 = (Ok authenticators, w2) ∧
    JS.index (availableAuthenticators auth p (imap pair authenticators))
      (default 0 (sp_authenticatorIndex p)) = Some (i, authenticator) ∧
    JS.find (λ prov, supportsType prov (a_type authenticator)) (authServers srv)
      = Some provider ∧
    let purpose :=
      if bool_decide (sp_purpose p = Login) &&
         bool_decide (auth_accountStatus auth ≠ Active)
      then Signup else sp_purpose p in
    let request :=
      {| r_id := uuid_source srv (drawn w2); r_type := a_type authenticator;
         r_purpose := purpose; r_token := uuid_source srv (S (drawn w2));
         r_tries := 0; r_status := Pending;
         r_authenticatorId := a_id authenticator; r_verified := None;
         r_device := ctx_device (context w2); r_state := "" |} in
    initAuthRequest provider authenticator request (sp_data p) = Ok (st, data) ∧
    let trusted := device_trusted (ctx_device (context w2)) auth in
    let fast := bool_decide (purpose = Login) && truthy trusted in
    let request' :=
      if fast then set_r_verified (now w2) (set_r_state st request)
      else set_r_state st request in
    let auth' :=
      set_auth_authRequests (auth_authRequests auth ++ [request'])
        (set_auth_authenticators
           (<[i := set_a_lastUsed (Some (now w2)) authenticator]>
              (auth_authenticators auth)) auth) in
    resp =
      {| sr_id := r_id request; sr_data := data; sr_token := r_token request;
         sr_type := a_type authenticator;
         sr_authenticatorId := a_id authenticator;
         sr_requestStatus := r_status request';
         sr_deviceTrusted := trusted;
         sr_accountStatus :=
           if fast then Some (auth_accountStatus auth) else None;
         sr_provisioning :=
           if fast then prov_account (getProvisioning srv auth') else None |} ∧
    stored_auth w' (auth_id auth) = Some auth' ∧
    provider_calls w' = provider_calls w2 ++
      [CallInitAuthRequest (a_type authenticator) (a_id authenticator)
         (r_id request)].
Proof.
  unfold startAuthRequest. unfold bind at 1.
  destruct (_getAuth_effect srv (sp_email p) w) as (auth & w1 & Hget & _).
  rewrite Hget. unfold bind at 1.
  destruct (_getAuthenticators srv auth w1) as [[authenticators|e] w2] eqn:Hall;
    [|done].
  destruct (JS.index _ _) as [[i authenticator]|] eqn:Hsel; [|done].
  unfold bind at 1. unfold _getAuthServer.
  destruct (JS.find _ (authServers srv)) as [provider|] eqn:Hprov; [|done].
  unfold new_AuthRequest. munfold.
  destruct (initAuthRequest provider authenticator _ (sp_data p))
    as [[st data]|e] eqn:Hinit; [|done].
  cbn [fst snd drawn context set_drawn now set_storage add_provider_call r_purpose set_r_state].
  intros H. exists auth, w1, authenticators, w2, i, authenticator, provider, st, data.
  split; [done|]. split; [done|]. split; [done|]. split; [done|].
  cbn zeta. split; [exact Hinit|].
  cbn [device_trusted auth_trustedDevices set_auth_authenticators
       set_auth_authRequests] in H |- *.
  destruct (bool_decide _ && truthy _) eqn:Hfast.
  - munfold. cbn [id_of Storable_Auth] in H. injection H as <- <-.
    split; [reflexivity|]. split; [|reflexivity].
    unfold stored_auth. cbn. apply lookup_insert_eq.
  - munfold. cbn [id_of Storable_Auth] in H. injection H as <- <-.
    split; [reflexivity|]. split; [|reflexivity].
    unfold stored_auth. cbn. apply lookup_insert_eq.
Qed.

Lemma some_exists {A} (p : A → bool) (l : list A) :
  JS.some p l = true ↔ ∃ x, x ∈ l ∧ p x = true.
Proof.
  unfold JS.some. rewrite existsb_exists.
  split; intros (x & Hx & Hp); exists x; (split; [by apply list_elem_of_In | done]).
Qed.

(** C6 (as amended). A startAuthRequest call with purpose Login, from a
    device on the trusted-device list of an Auth record whose account
    status is Active, that creates a request, creates it Verified: the
    response and the stored request are Verified, and the account status
    and the account's provisioning are attached to the response.  The
    providers are called to initialise the ad hoc authenticators and,
    once, to initialise the request; none is asked to verify it. *)
Theorem C6_trusted_device_fast_path srv p w auth d resp w' :
  sp_purpose p = Login →
  (_getAuth srv (sp_email p) w).1 = Ok auth →
  ctx_device (context w) = Some d →
  (∃ t, t ∈ auth_trustedDevices auth ∧ dev_id t = dev_id d) →
  auth_accountStatus auth = Active →
  startAuthRequest srv p w = (Ok resp, w') →
  sr_requestStatus resp = Verified ∧
  sr_deviceTrusted resp = Some true ∧
  sr_accountStatus resp = Some Active ∧
  (∃ auth' request,
     stored_auth w' (auth_id auth) = Some auth' ∧
     auth_authRequests auth' = auth_authRequests auth ++ [request] ∧
     r_id request = sr_id resp ∧ r_token request = sr_token resp ∧
     r_purpose request = Login ∧ r_status request = Verified ∧
     r_verified request = Some (now w) ∧
     sr_provisioning resp = prov_account (getProvisioning srv auth')) ∧
  (∃ calls,
     provider_calls w' = provider_calls w ++ calls ++
       [CallInitAuthRequest (sr_type resp) (sr_authenticatorId resp) (sr_id resp)] ∧
     Forall is_CallInitAuthenticator calls ∧
     Forall (λ c, ¬ is_CallVerifyAuthRequest c)
       (calls ++
          [CallInitAuthRequest (sr_type resp) (sr_authenticatorId resp)
             (sr_id resp)])).
Proof.
  intros Hpurpose Hauth Hdev Htrusted Hactive Hrun.
  apply startAuthRequest_inv in Hrun
    as (auth0 & w1 & authenticators & w2 & i & authenticator & provider & st
        & data & Hget & Hall & Hsel & Hprov & Hinit & -> & Hstored & Hcalls).
  rewrite Hget in Hauth. injection Hauth as ->.
  destruct (_getAuth_effect srv (sp_email p) w) as (? & ? & Hget' & Hw1).
  rewrite Hget in Hget'. injection Hget' as <- <-.
  destruct Hw1 as (Hctx1 & Hnow1 & _ & Hcalls1 & _).
  apply _getAuthenticators_effect in Hall
    as (calls & (_ & Hctx2 & Hnow2 & _ & _ & _ & Hcalls2) & Hinits).
  rewrite Hctx2, Hctx1, Hdev, Hnow2, Hnow1 in *.
  rewrite Hpurpose, Hactive in *.
  rewrite (bool_decide_eq_false_2 (Active ≠ Active)) in * by (intros H; by apply H).
  cbn [andb] in *. rewrite (bool_decide_eq_true_2 (Login = Login)) in * by done.
  assert (device_trusted (Some d) auth = Some true) as Hdt.
  { unfold device_trusted. f_equal. apply some_exists.
    destruct Htrusted as (t & Ht & Hid). exists t. split; [done|].
    by apply bool_decide_eq_true. }
  rewrite Hdt in *. cbn [andb truthy] in *.
  cbn [sr_requestStatus sr_deviceTrusted sr_accountStatus sr_provisioning
       sr_id sr_token sr_type sr_authenticatorId r_status set_r_verified].
  split; [done|]. split; [done|]. split; [done|]. split.
  - eexists _, _. split; [exact Hstored|]. by repeat split.
  - exists calls. split; [|split; [done|]].
    + rewrite Hcalls, Hcalls2, Hcalls1. by rewrite <- app_assoc.
    + apply Forall_app. split; [|apply Forall_singleton; by intros ?].
      revert Hinits. apply Forall_impl. intros c Hc Hv. by destruct c.
Qed.

Lemma C6_trusted_device_fast_path_witness :
  ∃ resp w',
    startAuthRequest Sample.srv Sample.login_by_email
      (Sample.world Sample.auth_trusted Sample.anonymous 2000) = (Ok resp, w') ∧
    sr_requestStatus resp = Verified ∧
    sr_accountStatus resp = Some Active ∧
    sr_provisioning resp
      = Some {| ap_status := ProvActive; ap_quota_orgs := -1 |}.
Proof.
  destruct (startAuthRequest Sample.srv Sample.login_by_email
              (Sample.world Sample.auth_trusted Sample.anonymous 2000))
    as [[resp|e] w'] eqn:Hrun.
  2:{ vm_compute in Hrun. discriminate Hrun. }
  exists resp, w'. split; [reflexivity|].
  destruct (C6_trusted_device_fast_path Sample.srv Sample.login_by_email
              (Sample.world Sample.auth_trusted Sample.anonymous 2000)
              Sample.auth_trusted Sample.device resp w')
    as (Hstatus & _ & Haccount & (auth' & request & _ & _ & _ & _ & _ & _ & _ & Hprov) & _).
  - reflexivity.
  - vm_compute. reflexivity.
  - reflexivity.
  - exists Sample.device. split; [by left | reflexivity].
  - reflexivity.
  - exact Hrun.
  - split; [exact Hstatus|]. split; [exact Haccount|]. rewrite Hprov. reflexivity.
Defined.

(** C6 as stated fails: on an Auth record whose account is not Active the
    request of a trusted device stays Pending and no provisioning is
    attached; the provider has been called twice by then. *)
Lemma C6_counterexample :
  let w := Sample.world Sample.auth_suspended Sample.anonymous 2000 in
  let r := startAuthRequest Sample.srv Sample.login_by_email w in
  sp_purpose Sample.login_by_email = Login ∧
  (_getAuth Sample.srv "a@x.com" w).1 = Ok Sample.auth_suspended ∧
  ctx_device (context w) = Some Sample.device ∧
  auth_trustedDevices Sample.auth_suspended = [Sample.device] ∧
  r.1 = Ok {| sr_id := "uuid-0"; sr_data := ""; sr_token := "uuid-1";
              sr_type := "email";
              sr_authenticatorId := "ad_hoc_a@x.com_email";
              sr_requestStatus := Pending; sr_deviceTrusted := Some true;
              sr_accountStatus := None; sr_provisioning := None |} ∧
  provider_calls r.2 =
    [CallInitAuthenticator "email" "ad_hoc_a@x.com_email";
     CallInitAuthRequest "email" "ad_hoc_a@x.com_email" "uuid-0"].
Proof.
  split; [reflexivity|]. split; [vm_compute; reflexivity|].
  split; [reflexivity|]. split; [reflexivity|].
  split; vm_compute; reflexivity.
Qed.

(** ** createSession *)

Lemma createSession_no_handshake srv p w acc auth w1 :
  st_accounts (storage w) !! cs_account p = Some acc →
  _getAuth srv (acc_email acc) w = (Ok auth, w1) →
  JS.find (λ s, bool_decide (srp_id s = cs_srpId p)) (auth_srpSessions auth) = None →
  createSession srv p w = (Err INVALID_CREDENTIALS, add_log "login" w1).
Proof.
  intros Hacc Hget Hfind. unfold createSession.
  unfold bind at 1. unfold storage_get at 1. cbn [table Storable_Account].
  rewrite Hacc. unfold bind at 1. rewrite Hget, Hfind. reflexivity.
Qed.

Lemma createSession_wrong_proof srv p w acc auth w1 srpState M1 K :
  st_accounts (storage w) !! cs_account p = Some acc →
  _getAuth srv (acc_email acc) w = (Ok auth, w1) →
  JS.find (λ s, bool_decide (srp_id s = cs_srpId p)) (auth_srpSessions auth)
    = Some srpState →
  srp_setA srv srpState (cs_A p) = Ok (M1, K) →
  cs_M p ≠ M1 →
  createSession srv p w = (Err INVALID_CREDENTIALS, add_log "login" w1).
Proof.
  intros Hacc Hget Hfind HsetA HM. unfold createSession.
  unfold bind at 1. unfold storage_get at 1. cbn [table Storable_Account].
  rewrite Hacc. unfold bind at 1. rewrite Hget, Hfind.
  unfold bind at 1. unfold lift at 1. rewrite HsetA. cbn [fst snd].
  unfold equalCT. rewrite bool_decide_eq_false_2 by done. reflexivity.
Qed.

Lemma createSession_success srv p w acc auth w1 srpState M1 K :
  st_accounts (storage w) !! cs_account p = Some acc →
  _getAuth srv (acc_email acc) w = (Ok auth, w1) →
  JS.find (λ s, bool_decide (srp_id s = cs_srpId p)) (auth_srpSessions auth)
    = Some srpState →
  srp_setA srv srpState (cs_A p) = Ok (M1, K) →
  cs_M p = M1 →
  ∃ session w' auth',
    createSession srv p w = (Ok session, w') ∧
    s_key session = None ∧
    s_id session = uuid_source srv (drawn w1) ∧
    s_account session = cs_account p ∧
    st_sessions (storage w')
      = <[s_id session := set_s_key (Some K) session]> (st_sessions (storage w1)) ∧
    stored_auth w' (auth_id auth) = Some auth' ∧
    auth_srpSessions auth'
      = JS.filter (λ s, negb (bool_decide (srp_id s = srp_id srpState)))
          (auth_srpSessions auth) ∧
    auth_sessions auth'
      = auth_sessions auth ++ [session_info (set_s_key (Some K) session)].
Proof.
  intros Hacc Hget Hfind HsetA HM. unfold createSession.
  unfold bind at 1. unfold storage_get at 1. cbn [table Storable_Account].
  rewrite Hacc. unfold bind at 1. rewrite Hget, Hfind.
  unfold bind at 1. unfold lift at 1. rewrite HsetA. cbn [fst snd].
  unfold equalCT. rewrite bool_decide_eq_true_2 by done. cbn [negb].
  munfold. cbn [context set_drawn storage now drawn].
  destruct (ctx_device (context w1)) as [d|] eqn:Hd; cbn beta iota;
    [destruct (negb _ && cs_addTrustedDevice p) eqn:Hadd|];
    (eexists _, _, _; split; [reflexivity|];
     cbn [s_key s_id s_account set_s_key];
     split; [reflexivity|]; split; [reflexivity|]; split; [reflexivity|];
     split; [reflexivity|]; split;
     [unfold stored_auth; cbn [storage set_storage st_auths add_log];
      apply lookup_insert_eq | split; reflexivity]).
Qed.

(** A successful [createSession] went through every step of the
    handshake. *)
Lemma createSession_inv srv p w session w' :
  createSession srv p w = (Ok session, w') →
  ∃ acc auth w1 srpState M1 K,
    st_accounts (storage w) !! cs_account p = Some acc ∧
    _getAuth srv (acc_email acc) w = (Ok auth, w1) ∧
    JS.find (λ s, bool_decide (srp_id s = cs_srpId p)) (auth_srpSessions auth)
      = Some srpState ∧
    srp_setA srv srpState (cs_A p) = Ok (M1, K) ∧
    cs_M p = M1.
Proof.
  intros Hrun.
  destruct (st_accounts (storage w) !! cs_account p) as [acc|] eqn:Hacc.
  2:{ unfold createSession in Hrun. unfold bind at 1 in Hrun.
      unfold storage_get at 1 in Hrun. cbn [table Storable_Account] in Hrun.
      rewrite Hacc in Hrun. discriminate Hrun. }
  destruct (_getAuth_effect srv (acc_email acc) w) as (auth & w1 & Hget & _).
  destruct (JS.find (λ s, bool_decide (srp_id s = cs_srpId p))
              (auth_srpSessions auth)) as [srpState|] eqn:Hfind.
  2:{ rewrite (createSession_no_handshake _ _ _ _ _ _ Hacc Hget Hfind) in Hrun.
      discriminate Hrun. }
  destruct (srp_setA srv srpState (cs_A p)) as [[M1 K]|e] eqn:HsetA.
  2:{ unfold createSession in Hrun. unfold bind at 1 in Hrun.
      unfold storage_get at 1 in Hrun. cbn [table Storable_Account] in Hrun.
      rewrite Hacc in Hrun. unfold bind at 1 in Hrun.
      rewrite Hget, Hfind in Hrun. unfold bind at 1 in Hrun.
      unfold lift at 1 in Hrun. rewrite HsetA in Hrun. discriminate Hrun. }
  destruct (decide (cs_M p = M1)) as [HM|HM].
  2:{ rewrite (createSession_wrong_proof _ _ _ _ _ _ _ _ _ Hacc Hget Hfind HsetA HM)
        in Hrun. discriminate Hrun. }
  by exists acc, auth, w1, srpState, M1, K.
Qed.

(** C2. The session that a successful [createSession] returns carries no
    key, while the session it stored carries the shared key [K] that the
    handshake negotiated, and is the returned session in every other
    field. *)
Theorem C2_session_key_stripped srv p w session w' :
  createSession srv p w = (Ok session, w') →
  s_key session = None ∧
  ∃ acc auth srpState M1 K,
    st_accounts (storage w) !! cs_account p = Some acc ∧
    (_getAuth srv (acc_email acc) w).1 = Ok auth ∧
    JS.find (λ s, bool_decide (srp_id s = cs_srpId p)) (auth_srpSessions auth)
      = Some srpState ∧
    srp_setA srv srpState (cs_A p) = Ok (M1, K) ∧
    st_sessions (storage w') !! s_id session
      = Some (set_s_key (Some K) session).
Proof.
  intros Hrun.
  destruct (createSession_inv _ _ _ _ _ Hrun)
    as (acc & auth & w1 & srpState & M1 & K & Hacc & Hget & Hfind & HsetA & HM).
  destruct (createSession_success _ _ _ _ _ _ _ _ _ Hacc Hget Hfind HsetA HM)
    as (session0 & w0 & auth' & Hrun0 & Hkey & _ & _ & Hstored & _).
  rewrite Hrun in Hrun0. injection Hrun0 as <- <-.
  split; [exact Hkey|].
  exists acc, auth, srpState, M1, K.
  split; [done|]. split; [by rewrite Hget|]. split; [done|]. split; [done|].
  rewrite Hstored. apply lookup_insert_eq.
Qed.

Lemma find_filter_out {A} (p : A → bool) (l : list A) :
  JS.find p (JS.filter (λ x, negb (p x)) l) = None.
Proof.
  apply find_none. intros x Hx. apply elem_of_filter in Hx as [_ Hx].
  by apply negb_true_iff in Hx.
Qed.

(** C3. Given the account, both failures of the handshake raise
    INVALID_CREDENTIALS: no pending handshake state with the given id on
    the Auth record, and a client proof [M] that differs from [M1].  A
    failed call writes a log entry and nothing else, so the handshake
    state stays on the record and the call can be repeated with the right
    proof; a successful call stores the record without the handshake
    state. *)
Theorem C3_invalid_credentials srv p w acc auth w1 :
  st_accounts (storage w) !! cs_account p = Some acc →
  _getAuth srv (acc_email acc) w = (Ok auth, w1) →
  let pending :=
    JS.find (λ s, bool_decide (srp_id s = cs_srpId p)) (auth_srpSessions auth) in
  (pending = None →
     createSession srv p w = (Err INVALID_CREDENTIALS, add_log "login" w1)) ∧
  (∀ srpState M1 K,
     pending = Some srpState → srp_setA srv srpState (cs_A p) = Ok (M1, K) →
     cs_M p ≠ M1 →
     createSession srv p w = (Err INVALID_CREDENTIALS, add_log "login" w1)) ∧
  (∀ srpState M1 K,
     pending = Some srpState → srp_setA srv srpState (cs_A p) = Ok (M1, K) →
     cs_M p = M1 →
     ∃ session w' auth',
       createSession srv p w = (Ok session, w') ∧
       stored_auth w' (auth_id auth) = Some auth' ∧
       auth_srpSessions auth'
         = JS.filter (λ s, negb (bool_decide (srp_id s = cs_srpId p)))
             (auth_srpSessions auth) ∧
       JS.find (λ s, bool_decide (srp_id s = cs_srpId p))
         (auth_srpSessions auth') = None) ∧
  (stored_auth w (getIdFromEmail srv (acc_email acc)) = Some auth →
     w1 = w ∧
     ∀ srpState M1 K p',
       pending = Some srpState → srp_setA srv srpState (cs_A p) = Ok (M1, K) →
       cs_M p ≠ M1 →
       cs_account p' = cs_account p → cs_srpId p' = cs_srpId p →
       cs_A p' = cs_A p → cs_M p' = M1 →
       ∃ session w'', createSession srv p' (createSession srv p w).2
                        = (Ok session, w'')).
Proof.
  intros Hacc Hget pending. split; [|split; [|split]].
  - intros Hfind. by apply (createSession_no_handshake _ _ _ acc auth).
  - intros srpState M1 K Hfind HsetA HM.
    by apply (createSession_wrong_proof _ _ _ acc auth _ srpState M1 K).
  - intros srpState M1 K Hfind HsetA HM.
    destruct (createSession_success _ _ _ _ _ _ _ _ _ Hacc Hget Hfind HsetA HM)
      as (session & w' & auth' & Hrun & _ & _ & _ & _ & Hstored & Hsrp & _).
    exists session, w', auth'. split; [done|]. split; [done|].
    apply find_some in Hfind as [_ Hid]. apply bool_decide_eq_true in Hid.
    rewrite Hid in Hsrp. split; [done|].
    rewrite Hsrp. apply find_filter_out.
  - intros Hstored.
    pose proof (_getAuth_stored _ _ _ _ Hstored) as Hget'.
    rewrite Hget in Hget'. injection Hget' as Hw. split; [done|].
    intros srpState M1 K p' Hfind HsetA HM Hp1 Hp2 Hp3 Hp4.
    rewrite (createSession_wrong_proof _ _ _ _ _ _ _ _ _ Hacc Hget Hfind HsetA HM).
    cbn [snd]. subst w1.
    destruct (createSession_success srv p' (add_log "login" w) acc auth
                (add_log "login" w) srpState M1 K)
      as (session & w'' & _ & Hrun & _); try done.
    + by rewrite Hp1.
    + unfold _getAuth, bind, try_catch, storage_get, ret.
      cbn [table Storable_Auth storage add_log]. unfold stored_auth in Hstored.
      by rewrite Hstored.
    + by rewrite Hp2.
    + by rewrite Hp3.
    + by exists session, w''.
Qed.

Lemma C2_session_key_stripped_witness :
  ∃ session w',
    createSession Sample.srv (Sample.handshake "srp-1" "M1:b1A1")
      (Sample.world Sample.auth1 Sample.anonymous 2000) = (Ok session, w') ∧
    s_key session = None ∧
    ∃ K, st_sessions (storage w') !! s_id session
           = Some (set_s_key (Some K) session).
Proof.
  destruct (createSession Sample.srv (Sample.handshake "srp-1" "M1:b1A1")
              (Sample.world Sample.auth1 Sample.anonymous 2000))
    as [[session|e] w'] eqn:Hrun.
  2:{ vm_compute in Hrun. discriminate Hrun. }
  exists session, w'. split; [reflexivity|].
  destruct (C2_session_key_stripped _ _ _ _ _ Hrun)
    as (Hkey & _ & _ & _ & _ & K & _ & _ & _ & _ & Hstored).
  split; [exact Hkey|]. by exists K.
Defined.

Lemma C3_invalid_credentials_witness :
  let w := Sample.world Sample.auth1 Sample.anonymous 2000 in
  createSession Sample.srv (Sample.handshake "srp-0" "M1:b1A1") w
    = (Err INVALID_CREDENTIALS, add_log "login" w) ∧
  createSession Sample.srv (Sample.handshake "srp-1" "forged") w
    = (Err INVALID_CREDENTIALS, add_log "login" w) ∧
  ∃ session w'',
    createSession Sample.srv (Sample.handshake "srp-1" "M1:b1A1")
      (createSession Sample.srv (Sample.handshake "srp-1" "forged") w).2
    = (Ok session, w'').
Proof.
  intros w.
  assert (st_accounts (storage w) !! "alice" = Some Sample.alice) as Hacc
    by reflexivity.
  assert (_getAuth Sample.srv "a@x.com" w = (Ok Sample.auth1, w)) as Hget
    by (apply _getAuth_stored; reflexivity).
  split; [|split].
  - pose proof (C3_invalid_credentials Sample.srv
                  (Sample.handshake "srp-0" "M1:b1A1") w Sample.alice
                  Sample.auth1 w Hacc Hget) as H.
    cbv zeta in H. destruct H as (H & _). apply H. reflexivity.
  - pose proof (C3_invalid_credentials Sample.srv
                  (Sample.handshake "srp-1" "forged") w Sample.alice
                  Sample.auth1 w Hacc Hget) as H.
    cbv zeta in H. destruct H as (_ & H & _).
    apply (H {| srp_id := "srp-1"; srp_state := "b1" |} "M1:b1A1" "K:b1A1");
      [reflexivity | reflexivity | done].
  - pose proof (C3_invalid_credentials Sample.srv
                  (Sample.handshake "srp-1" "forged") w Sample.alice
                  Sample.auth1 w Hacc Hget) as H.
    cbv zeta in H. destruct H as (_ & _ & _ & H).
    destruct H as [_ H]; [reflexivity|].
    apply (H {| srp_id := "srp-1"; srp_state := "b1" |} "M1:b1A1" "K:b1A1");
      try reflexivity. done.
Defined.

(** ** updateAccount, updateOrg, updateVault *)

Lemma updateAccount_outdated srv w session account auth p :
  authenticated w session account auth →
  acc_revision p ≠ acc_revision account →
  updateAccount srv p w = (Err OUTDATED_REVISION, w).
Proof.
  intros Hctx Hrev. unfold updateAccount. run_requireAuth Hctx. cbn [fst].
  by rewrite bool_decide_eq_true_2.
Qed.

Ltac run_updateOrg Hctx Horg :=
  unfold updateOrg; run_requireAuth Hctx; cbn [fst snd];
  unfold bind at 1; unfold storage_get at 1; cbn [table Storable_Org];
  rewrite Horg.

Lemma updateOrg_unprovisioned srv w session account auth org p :
  authenticated w session account auth →
  st_orgs (storage w) !! org_id p = Some org →
  JS.find (λ o, bool_decide (op_orgId o = org_id p))
    (prov_orgs (getProvisioning srv auth)) = None →
  updateOrg srv p w = (Err PROVISIONING_NOT_ALLOWED, w).
Proof. intros Hctx Horg Hprov. run_updateOrg Hctx Horg. by rewrite Hprov. Qed.

Lemma updateOrg_frozen srv w session account auth org p op :
  authenticated w session account auth →
  st_orgs (storage w) !! org_id p = Some org →
  JS.find (λ o, bool_decide (op_orgId o = org_id p))
    (prov_orgs (getProvisioning srv auth)) = Some op →
  op_status op = ProvFrozen →
  updateOrg srv p w = (Err PROVISIONING_NOT_ALLOWED, w).
Proof.
  intros Hctx Horg Hprov Hfrozen. run_updateOrg Hctx Horg. rewrite Hprov.
  by rewrite bool_decide_eq_true_2.
Qed.

Lemma updateOrg_outdated srv w session account auth org p op :
  authenticated w session account auth →
  st_orgs (storage w) !! org_id p = Some org →
  JS.find (λ o, bool_decide (op_orgId o = org_id p))
    (prov_orgs (getProvisioning srv auth)) = Some op →
  op_status op ≠ ProvFrozen →
  org_revision p ≠ org_revision org →
  updateOrg srv p w = (Err OUTDATED_REVISION, w).
Proof.
  intros Hctx Horg Hprov Hfrozen Hrev. run_updateOrg Hctx Horg. rewrite Hprov.
  rewrite bool_decide_eq_false_2 by done. by rewrite bool_decide_eq_true_2.
Qed.

Lemma updateOrg_not_admin srv w session account auth org p op :
  authenticated w session account auth →
  st_orgs (storage w) !! org_id p = Some org →
  JS.find (λ o, bool_decide (op_orgId o = org_id p))
    (prov_orgs (getProvisioning srv auth)) = Some op →
  op_status op ≠ ProvFrozen →
  org_revision p = org_revision org →
  org_owner org ≠ acc_id account →
  isAdmin org (acc_id account) = false →
  updateOrg srv p w = (Err INSUFFICIENT_PERMISSIONS, w).
Proof.
  intros Hctx Horg Hprov Hfrozen Hrev Howner Hadmin.
  run_updateOrg Hctx Horg. rewrite Hprov.
  rewrite bool_decide_eq_false_2 by done.
  rewrite (bool_decide_eq_false_2 (org_revision p ≠ org_revision org))
    by (intros H; by apply H).
  rewrite (bool_decide_eq_false_2 (org_owner org = acc_id account)) by done.
  assert (isOwner org (acc_id account) = false) as ->.
  { unfold isOwner, isAdmin in *.
    destruct (getMember org (acc_id account)) as [m|]; [|done].
    apply bool_decide_eq_false. apply bool_decide_eq_false in Hadmin. tauto. }
  by rewrite Hadmin.
Qed.

Lemma isAdmin_non_member org id : isMember org id = false → isAdmin org id = false.
Proof.
  unfold isMember, isAdmin. intros H. apply bool_decide_eq_false in H.
  destruct (getMember org id) as [m|]; [|done]. destruct H. by exists m.
Qed.

(** C5 (as amended). An updateOrg call on a stored organization by an
    authenticated account that is neither a member nor the owner fails
    and writes nothing, and the error is never NOT_FOUND: it is
    PROVISIONING_NOT_ALLOWED when the provisioning of the caller has no
    entry for the organization or a Frozen one, else OUTDATED_REVISION
    when the revision differs, else INSUFFICIENT_PERMISSIONS. *)
Theorem C5_updateOrg_non_member srv w session account auth org p :
  authenticated w session account auth →
  st_orgs (storage w) !! org_id p = Some org →
  org_owner org ≠ acc_id account →
  isMember org (acc_id account) = false →
  let provisioning :=
    JS.find (λ o, bool_decide (op_orgId o = org_id p))
      (prov_orgs (getProvisioning srv auth)) in
  (∃ e, updateOrg srv p w = (Err e, w) ∧ e ≠ NOT_FOUND) ∧
  (provisioning = None →
     updateOrg srv p w = (Err PROVISIONING_NOT_ALLOWED, w)) ∧
  (∀ op, provisioning = Some op → op_status op = ProvFrozen →
     updateOrg srv p w = (Err PROVISIONING_NOT_ALLOWED, w)) ∧
  (∀ op, provisioning = Some op → op_status op ≠ ProvFrozen →
     org_revision p ≠ org_revision org →
     updateOrg srv p w = (Err OUTDATED_REVISION, w)) ∧
  (∀ op, provisioning = Some op → op_status op ≠ ProvFrozen →
     org_revision p = org_revision org →
     updateOrg srv p w = (Err INSUFFICIENT_PERMISSIONS, w)).
Proof.
  intros Hctx Horg Howner Hmember provisioning.
  apply isAdmin_non_member in Hmember.
  assert (provisioning = None →
          updateOrg srv p w = (Err PROVISIONING_NOT_ALLOWED, w)) as H1
    by (intros; by eapply updateOrg_unprovisioned).
  assert (∀ op, provisioning = Some op → op_status op = ProvFrozen →
          updateOrg srv p w = (Err PROVISIONING_NOT_ALLOWED, w)) as H2
    by (intros; by eapply updateOrg_frozen).
  assert (∀ op, provisioning = Some op → op_status op ≠ ProvFrozen →
          org_revision p ≠ org_revision org →
          updateOrg srv p w = (Err OUTDATED_REVISION, w)) as H3
    by (intros; by eapply updateOrg_outdated).
  assert (∀ op, provisioning = Some op → op_status op ≠ ProvFrozen →
          org_revision p = org_revision org →
          updateOrg srv p w = (Err INSUFFICIENT_PERMISSIONS, w)) as H4
    by (intros; by eapply updateOrg_not_admin).
  split; [|done].
  destruct provisioning as [op|] eqn:Hprov.
  - destruct (decide (op_status op = ProvFrozen)) as [Hf|Hf].
    { exists PROVISIONING_NOT_ALLOWED. split; [by eapply H2 | done]. }
    destruct (decide (org_revision p = org_revision org)) as [Hr|Hr].
    + exists INSUFFICIENT_PERMISSIONS. split; [by eapply H4 | done].
    + exists OUTDATED_REVISION. split; [by eapply H3 | done].
  - exists PROVISIONING_NOT_ALLOWED. split; [by apply H1 | done].
Qed.







Lemma C5_updateOrg_non_member_witness :
  updateOrg Sample.srv Sample.org Sample.world_bob
    = (Err INSUFFICIENT_PERMISSIONS, Sample.world_bob) ∧
  updateOrg (Sample.server ProvFrozen) Sample.org Sample.world_bob
    = (Err PROVISIONING_NOT_ALLOWED, Sample.world_bob).
Proof.
  split.
  - pose proof (C5_updateOrg_non_member Sample.srv Sample.world_bob
                  Sample.session_bob Sample.bob Sample.auth_bob Sample.org
                  Sample.org) as H.
    cbv zeta in H. destruct H as (_ & _ & _ & _ & H);
      [by repeat split | reflexivity | done | reflexivity |].
    apply (H {| op_orgId := "org-1"; op_status := ProvActive;
                op_quota_members := -1; op_quota_groups := -1;
                op_quota_vaults := -1 |}); [reflexivity | done | reflexivity].
  - pose proof (C5_updateOrg_non_member (Sample.server ProvFrozen)
                  Sample.world_bob Sample.session_bob Sample.bob
                  Sample.auth_bob Sample.org Sample.org) as H.
    cbv zeta in H. destruct H as (_ & _ & H & _);
      [by repeat split | reflexivity | done | reflexivity |].
    apply (H {| op_orgId := "org-1"; op_status := ProvFrozen;
                op_quota_members := -1; op_quota_groups := -1;
                op_quota_vaults := -1 |}); reflexivity.
Defined.

(** C5 as stated fails: Bob, who is neither a member nor the owner of the
    organization, is answered INSUFFICIENT_PERMISSIONS. *)
Lemma C5_counterexample :
  authenticated Sample.world_bob Sample.session_bob Sample.bob Sample.auth_bob ∧
  st_orgs (storage Sample.world_bob) !! "org-1" = Some Sample.org ∧
  org_owner Sample.org ≠ acc_id Sample.bob ∧
  isMember Sample.org (acc_id Sample.bob) = false ∧
  updateOrg Sample.srv Sample.org Sample.world_bob
    = (Err INSUFFICIENT_PERMISSIONS, Sample.world_bob).
Proof.
  split; [by repeat split|]. split; [reflexivity|]. split; [done|].
  split; [reflexivity|]. vm_compute. reflexivity.
Qed.

(** ** revokeSession *)

Lemma revokeSession_run w session account auth id target :
  authenticated w session account auth →
  st_sessions (storage w) !! id = Some target →
  s_account target = acc_id account →
  let auth' :=
    set_auth_sessions
      (JS.splice (auth_sessions auth)
         (JS.findIndex (λ s, bool_decide (si_id s = id)) (auth_sessions auth)) 1)
      auth in
  ∃ w', revokeSession id w = (Ok tt, w') ∧
    ctx_auth (context w') = Some auth' ∧
    stored_auth w' (auth_id auth) = Some auth'.
Proof.
  intros Hctx Hget Hown auth'. unfold revokeSession. run_requireAuth Hctx.
  unfold bind at 1. unfold storage_get at 1. cbn [table Storable_Session].
  rewrite Hget. cbn beta iota. cbn [fst snd].
  rewrite bool_decide_eq_false_2 by (intros Hne; by apply Hne).
  eexists. split; [reflexivity|]. split; [reflexivity|].
  unfold stored_auth. simpl. apply lookup_insert_eq.
Qed.

(** On any authenticated context: the first entry of the session list
    with the given id is removed; when no entry has the id, the last entry
    is removed instead ([splice] with the index -1), unless the list is
    empty, which stays empty. *)
Lemma revokeSession_splice w session account auth id target :
  authenticated w session account auth →
  st_sessions (storage w) !! id = Some target →
  s_account target = acc_id account →
  ∃ w' auth',
    revokeSession id w = (Ok tt, w') ∧
    ctx_auth (context w') = Some auth' ∧
    stored_auth w' (auth_id auth) = Some auth' ∧
    ((∃ s, s ∈ auth_sessions auth ∧ si_id s = id) →
       ∃ l1 x l2, auth_sessions auth = l1 ++ x :: l2 ∧ si_id x = id ∧
         (∀ y, y ∈ l1 → si_id y ≠ id) ∧ auth_sessions auth' = l1 ++ l2) ∧
    ((∀ s, s ∈ auth_sessions auth → si_id s ≠ id) →
       (∀ l x, auth_sessions auth = l ++ [x] → auth_sessions auth' = l) ∧
       (auth_sessions auth = [] → auth_sessions auth' = [])).
Proof.
  intros Hctx Hget Hown.
  destruct (revokeSession_run w session account auth id target Hctx Hget Hown)
    as (w' & Hrun & Hc & Hs).
  eexists w', _. split; [exact Hrun|]. split; [exact Hc|]. split; [exact Hs|].
  cbn [auth_sessions set_auth_sessions]. split.
  - intros (s & Hin & Hid).
    assert (0 ≤ JS.findIndex (λ s, bool_decide (si_id s = id)) (auth_sessions auth)) as Hi.
    { destruct (Z.lt_ge_cases (JS.findIndex (λ s, bool_decide (si_id s = id))
                                 (auth_sessions auth)) 0) as [Hlt|]; [|done].
      apply findIndex_none with (x := s) in Hlt; [|done].
      apply bool_decide_eq_false in Hlt. done. }
    destruct (findIndex_first _ _ Hi) as (l1 & x & l2 & Hl & Hx & Hl1 & Hidx).
    exists l1, x, l2. apply bool_decide_eq_true in Hx.
    repeat split; try done.
    + intros y Hy. specialize (Hl1 y Hy). by apply bool_decide_eq_false in Hl1.
    + rewrite Hidx, Hl. apply splice_inside.
  - intros Hno.
    assert (JS.findIndex (λ s, bool_decide (si_id s = id)) (auth_sessions auth) = -1) as ->.
    { destruct (findIndex_range (λ s, bool_decide (si_id s = id)) (auth_sessions auth))
        as [?|Hr]; [done|].
      assert (JS.findIndex (λ s, bool_decide (si_id s = id)) (auth_sessions auth) < 0); [|lia].
      apply findIndex_none. intros s Hs'. apply bool_decide_eq_false. by apply Hno. }
    split.
    + intros l x ->. apply splice_minus_one.
    + intros ->. reflexivity.
Qed.

(** On a context built by hand around an Auth record that lists no
    session, nothing is removed. *)
Example revokeSession_empty_list :
  let r := revokeSession "session-1" Sample.world0 in
  auth_sessions Sample.auth0 = [] ∧
  r.1 = Ok tt ∧
  ctx_sessions r.2 = Some [] ∧
  auth_sessions <$> stored_auth r.2 "hash:a@x.com" = Some [].
Proof. split; [reflexivity|]. vm_compute. by repeat split. Qed.

(** What [authenticate] leaves in the context of a signed request that
    it accepts: the session, its account, and an Auth record that lists
    the session. *)
Lemma authenticate_context srv req ra w0 w :
  req_auth req = Some ra →
  authenticate srv req w0 = (Ok tt, w) →
  ∃ session account auth,
    authenticated w session account auth ∧
    session_info session ∈ auth_sessions auth.
Proof.
  intros Hra. unfold authenticate. rewrite Hra. munfold.
  destruct (st_sessions (storage w0) !! ra_session ra) as [session|]; [|done].
  destruct (match s_expires session with Some e => e <? now w0 | None => false end);
    [done|].
  destruct (negb (session_verify srv session req)); [done|].
  destruct (now w0 - ra_time ra >? maxRequestAge (config srv)); [done|].
  destruct (st_accounts (storage w0) !! s_account session) as [account|]; [|done].
  destruct (_getAuth_effect srv (acc_email account) w0) as (auth & w1 & -> & _).
  cbn [s_id]. intros [= <-].
  eexists _, account, _. split; [by repeat split|].
  set (info := session_info _).
  set (l := auth_sessions auth).
  set (i := JS.findIndex (λ s, bool_decide (si_id s = s_id session)) l).
  destruct (bool_decide (i ≠ -1)) eqn:Hi; cbn [auth_sessions set_auth_sessions].
  - apply bool_decide_eq_true in Hi.
    destruct (findIndex_range (λ s, bool_decide (si_id s = s_id session)) l)
      as [?|Hr]; [done|]. fold i in Hr.
    unfold JS.assign. destruct (Z.ltb_spec i 0); [lia|].
    apply list_elem_of_lookup. exists (Z.to_nat i).
    apply list_lookup_insert_eq. lia.
  - apply elem_of_app. right. by left.
Qed.

(** C9. A revokeSession call of a signed request, for a session that
    belongs to the caller: when the id is on the session list of the Auth
    record, the first entry with the id is removed and the others stay;
    when it is not, the list is shortened by one all the same, by its last
    entry. *)
Theorem C9_revokeSession_splice srv req ra w0 w account id target :
  req_auth req = Some ra →
  authenticate srv req w0 = (Ok tt, w) →
  ctx_account (context w) = Some account →
  st_sessions (storage w) !! id = Some target →
  s_account target = acc_id account →
  ∃ auth w' auth',
    ctx_auth (context w) = Some auth ∧
    revokeSession id w = (Ok tt, w') ∧
    ctx_auth (context w') = Some auth' ∧
    stored_auth w' (auth_id auth) = Some auth' ∧
    ((∃ s, s ∈ auth_sessions auth ∧ si_id s = id) →
       ∃ l1 x l2, auth_sessions auth = l1 ++ x :: l2 ∧ si_id x = id ∧
         (∀ y, y ∈ l1 → si_id y ≠ id) ∧ auth_sessions auth' = l1 ++ l2) ∧
    ((∀ s, s ∈ auth_sessions auth → si_id s ≠ id) →
       ∃ l x, auth_sessions auth = l ++ [x] ∧ auth_sessions auth' = l ∧
         S (length (auth_sessions auth')) = length (auth_sessions auth)).
Proof.
  intros Hra Hauth Hacc Hget Hown.
  destruct (authenticate_context _ _ _ _ _ Hra Hauth)
    as (session & account' & auth & Hctx & Hin).
  assert (account' = account) as ->.
  { destruct Hctx as (_ & Ha & _). congruence. }
  destruct (revokeSession_splice w session account auth id target Hctx Hget Hown)
    as (w' & auth' & Hrun & Hc & Hs & Hpresent & Habsent).
  exists auth, w', auth'. split; [by destruct Hctx as (_ & _ & ?)|].
  split; [done|]. split; [done|]. split; [done|]. split; [done|].
  intros Hno. destruct (Habsent Hno) as [Hlast Hnil].
  destruct (auth_sessions auth) as [|y l] eqn:Hl using rev_ind.
  { by apply elem_of_nil in Hin. }
  exists l, y. split; [done|]. rewrite (Hlast l y eq_refl).
  split; [done|]. rewrite length_app. simpl. lia.
Qed.

Lemma C9_revokeSession_splice_witness :
  let w := (authenticate Sample.srv (Sample.request 1500)
              (Sample.world Sample.auth1 Sample.anonymous 2000)).2 in
  (∃ w', revokeSession "session-1" w = (Ok tt, w') ∧ ctx_sessions w' = Some []) ∧
  (∃ w', revokeSession "session-3" w = (Ok tt, w') ∧ ctx_sessions w' = Some []).
Proof.
  intros w.
  assert (authenticate Sample.srv (Sample.request 1500)
            (Sample.world Sample.auth1 Sample.anonymous 2000) = (Ok tt, w))
    as Hauth by (vm_compute; reflexivity).
  assert (ctx_account (context w) = Some Sample.alice) as Hacc
    by (vm_compute; reflexivity).
  split.
  - destruct (C9_revokeSession_splice Sample.srv (Sample.request 1500) _ _ w
                Sample.alice "session-1"
                {| s_id := "session-1"; s_account := "alice"; s_created := 1000;
                   s_updated := 2000; s_lastUsed := 2000; s_expires := None;
                   s_key := Some "key-1"; s_device := Some Sample.device;
                   s_lastLocation := None |} eq_refl Hauth Hacc)
      as (auth & w' & auth' & Hc & Hrun & Hc' & _ & Hpresent & _);
      [vm_compute; reflexivity | reflexivity |].
    exists w'. split; [exact Hrun|].
    vm_compute in Hc. injection Hc as <-.
    destruct Hpresent as (l1 & x & l2 & Hl & _ & _ & Hl').
    { eexists. split; [by left | reflexivity]. }
    unfold ctx_sessions. rewrite Hc'. cbn [fmap option_fmap option_map]. f_equal.
    rewrite Hl'. cbn [auth_sessions] in Hl.
    destruct l1 as [|? [|? ?]]; simpl in Hl; [|done..].
    by injection Hl as _ <-.
  - destruct (C9_revokeSession_splice Sample.srv (Sample.request 1500) _ _ w
                Sample.alice "session-3" Sample.session_unlisted eq_refl Hauth Hacc)
      as (auth & w' & auth' & Hc & Hrun & Hc' & _ & _ & Habsent);
      [vm_compute; reflexivity | reflexivity |].
    exists w'. split; [exact Hrun|].
    vm_compute in Hc. injection Hc as <-.
    destruct Habsent as (l & x & Hl & Hl' & _).
    { intros s Hs. cbn [auth_sessions] in Hs.
      apply list_elem_of_singleton in Hs as ->. done. }
    unfold ctx_sessions. rewrite Hc'. cbn [fmap option_fmap option_map]. f_equal.
    rewrite Hl'. cbn [auth_sessions] in Hl.
    destruct l as [|? [|? ?]]; simpl in Hl; done.
Defined.

Lemma index_elem_of {A} (l : list A) (i : Z) (x : A) :
  JS.index l i = Some x → x ∈ l.
Proof.
  unfold JS.index. destruct (i <? 0); [done|].
  intros H. apply list_elem_of_lookup. by exists (Z.to_nat i).
Qed.

(** The authenticator of a request that [startAuthRequest] created is
    one of the available ones. *)
Lemma startAuthRequest_selects_available srv p w resp w' :
  startAuthRequest srv p w = (Ok resp, w') →
  ∃ auth w1 authenticators x,
    _getAuth srv (sp_email p) w = (Ok auth, w1) ∧
    (_getAuthenticators srv auth w1).1 = Ok authenticators ∧
    x ∈ availableAuthenticators auth p (imap pair authenticators) ∧
    a_id x.2 = sr_authenticatorId resp ∧ a_type x.2 = sr_type resp.
Proof.
  intros Hrun. apply startAuthRequest_inv in Hrun
    as (auth & w1 & authenticators & w2 & i & authenticator & provider & st
        & data & Hget & Hall & Hsel & _ & _ & -> & _).
  exists auth, w1, authenticators, (i, authenticator).
  split; [done|]. split; [by rewrite Hall|].
  split; [by eapply index_elem_of | done].
Qed.

Lemma index_head {A} (l : list A) (x : A) :
  x ∈ l → ∃ y, JS.index l 0 = Some y.
Proof.
  destruct l as [|y l]; [by intros ?%elem_of_nil|]. intros _. by exists y.
Qed.

(** C10. In [startAuthRequest], the filter on the purposes of an
    authenticator is skipped exactly for the purpose TestAuthenticator.
    Among the authenticators of the record and the ad hoc ones, call
    eligible those that pass the id, type and supported-types filters and
    are active, and allowed those for which the requested purpose is
    TestAuthenticator or is on their purposes list.  The authenticator
    that a successful call selects is eligible and allowed, so that for
    every purpose but TestAuthenticator its purposes list contains the
    purpose.  When no eligible authenticator is allowed, the call fails
    with NOT_FOUND before an id is drawn, and a call without an index
    fails in this way only then; for TestAuthenticator this is when no
    authenticator is eligible.  Every eligible and allowed authenticator
    can be selected: there is an index with which the call selects it,
    and succeeds as soon as a provider supports its type and initialises
    the request; for TestAuthenticator these are all the eligible ones,
    whatever their purposes lists. *)
Theorem C10_purpose_filter srv p w auth w1 authenticators w2 :
  let eligible := λ m : Authenticator,
    (∀ id, sp_authenticatorId p = Some id → a_id m = id) ∧
    (∀ t, sp_type p = Some t → a_type m = t) ∧
    (∀ ts, sp_supportedTypes p = Some ts → a_type m ∈ ts) ∧
    a_status m = AuthenticatorActive in
  let allowed := λ m : Authenticator,
    sp_purpose p = TestAuthenticator ∨ sp_purpose p ∈ a_purposes m in
  _getAuth srv (sp_email p) w = (Ok auth, w1) →
  _getAuthenticators srv auth w1 = (Ok authenticators, w2) →
  (∀ resp w',
     startAuthRequest srv p w = (Ok resp, w') →
     ∃ m, m ∈ authenticators ∧ eligible m ∧ allowed m ∧
          a_id m = sr_authenticatorId resp ∧ a_type m = sr_type resp ∧
          (sp_purpose p ≠ TestAuthenticator → sp_purpose p ∈ a_purposes m)) ∧
  ((∀ m, m ∈ authenticators → eligible m → ¬ allowed m) →
     startAuthRequest srv p w = (Err NOT_FOUND, w2)) ∧
  (default 0 (sp_authenticatorIndex p) = 0 →
     startAuthRequest srv p w = (Err NOT_FOUND, w2) →
     ∀ m, m ∈ authenticators → eligible m → ¬ allowed m) ∧
  (sp_purpose p = TestAuthenticator →
     default 0 (sp_authenticatorIndex p) = 0 →
     (startAuthRequest srv p w = (Err NOT_FOUND, w2) ↔
      ∀ m, m ∈ authenticators → ¬ eligible m)) ∧
  (∀ i m, authenticators !! i = Some m → eligible m → allowed m →
     ∃ k, 0 ≤ k ∧
       JS.index (availableAuthenticators auth p (imap pair authenticators)) k
         = Some (i, m) ∧
       ∀ provider st data,
         JS.find (λ prov, supportsType prov (a_type m)) (authServers srv)
           = Some provider →
         initAuthRequest provider m
           {| r_id := uuid_source srv (drawn w2); r_type := a_type m;
              r_purpose :=
                (if bool_decide (sp_purpose p = Login) &&
                    bool_decide (auth_accountStatus auth ≠ Active)
                 then Signup else sp_purpose p);
              r_token := uuid_source srv (S (drawn w2)); r_tries := 0;
              r_status := Pending; r_authenticatorId := a_id m;
              r_verified := None; r_device := ctx_device (context w2);
              r_state := "" |} (sp_data p) = Ok (st, data) →
         ∃ resp w',
           startAuthRequest srv (with_index k p) w = (Ok resp, w') ∧
           sr_authenticatorId resp = a_id m ∧ sr_type resp = a_type m).
Proof.
  intros eligible allowed Hget Hall.
  assert (∀ x, x ∈ availableAuthenticators auth p (imap pair authenticators) ↔
               authenticators !! x.1 = Some x.2 ∧ eligible x.2 ∧ allowed x.2)
    as Havailable.
  { intros [i a]. rewrite availableAuthenticators_spec, elem_of_lookup_imap.
    unfold eligible, allowed. cbn [fst snd]. split.
    - intros ((j & y & [= -> ->] & Hy) & ? & ? & ? & ? & ?). done.
    - intros (? & (? & ? & ? & ?) & ?). split; [by exists i, a | done]. }
  assert (startAuthRequest srv p w =
            match JS.index
                    (availableAuthenticators auth p (imap pair authenticators))
                    (default 0 (sp_authenticatorIndex p)) with
            | None => (Err NOT_FOUND, w2)
            | Some x => startAuthRequest srv p w
            end) as Hstart.
  { destruct (JS.index _ _) eqn:Hsel; [done|].
    unfold startAuthRequest. unfold bind at 1. rewrite Hget.
    unfold bind at 1. rewrite Hall. by rewrite Hsel. }
  assert (∀ x,
            JS.index (availableAuthenticators auth p (imap pair authenticators))
              (default 0 (sp_authenticatorIndex p)) = Some x →
            startAuthRequest srv p w ≠ (Err NOT_FOUND, w2)) as Hselected.
  { intros [i a] Hsel. unfold startAuthRequest. unfold bind at 1. rewrite Hget.
    unfold bind at 1. rewrite Hall, Hsel.
    unfold bind at 1. unfold _getAuthServer.
    destruct (JS.find _ (authServers srv)) as [provider|]; [|done].
    unfold new_AuthRequest. munfold.
    destruct (initAuthRequest provider a _ (sp_data p)) as [[st data]|e].
    - destruct (bool_decide _ && truthy _); done.
    - intros [= _ Hw]. apply (f_equal drawn) in Hw.
      cbn [drawn add_provider_call set_drawn] in Hw. lia. }
  assert (default 0 (sp_authenticatorIndex p) = 0 →
          startAuthRequest srv p w = (Err NOT_FOUND, w2) →
          ∀ m, m ∈ authenticators → eligible m → ¬ allowed m) as Hconverse.
  { intros Hindex Hrun m Hm Heligible Hallowed.
    apply list_elem_of_lookup in Hm as [k Hk].
    assert ((k, m) ∈ availableAuthenticators auth p (imap pair authenticators))
      as Hin by (by apply Havailable).
    destruct (index_head _ _ Hin) as [x Hsel]. rewrite <- Hindex in Hsel.
    by apply (Hselected x Hsel). }
  assert ((∀ m, m ∈ authenticators → eligible m → ¬ allowed m) →
          startAuthRequest srv p w = (Err NOT_FOUND, w2)) as Hnot_found.
  { intros Hnone. rewrite Hstart.
    destruct (JS.index _ _) as [[i a]|] eqn:Hsel; [|done].
    apply index_elem_of, Havailable in Hsel as (Hlookup & Heligible & Hallowed).
    cbn [fst snd] in *. destruct (Hnone a); [|done..].
    by eapply list_elem_of_lookup_2. }
  split; [|split; [|split; [|split]]].
  - intros resp w' Hrun. apply startAuthRequest_inv in Hrun
      as (auth' & w1' & authenticators' & w2' & i & a & provider & st
          & data & Hget' & Hall' & Hsel & _ & _ & -> & _).
    rewrite Hget in Hget'. injection Hget' as <- <-.
    rewrite Hall in Hall'. injection Hall' as <- <-.
    apply index_elem_of, Havailable in Hsel as (Hlookup & Heligible & Hallowed).
    cbn [fst snd] in *. exists a.
    split; [by eapply list_elem_of_lookup_2|]. split; [done|].
    split; [done|]. split; [done|]. split; [done|].
    intros Hpurpose. by destruct Hallowed.
  - exact Hnot_found.
  - exact Hconverse.
  - intros Htest Hindex. split.
    + intros Hrun m Hm Heligible.
      apply (Hconverse Hindex Hrun m Hm Heligible). by left.
    + intros Hnone. apply Hnot_found. intros m Hm Heligible _.
      by apply (Hnone m).
  - intros i m Hm Heligible Hallowed.
    assert ((i, m) ∈ availableAuthenticators auth p (imap pair authenticators))
      as Hin by (by apply Havailable).
    apply list_elem_of_lookup in Hin as [n Hn].
    exists (Z.of_nat n). split; [lia|].
    assert (JS.index
              (availableAuthenticators auth p (imap pair authenticators))
              (Z.of_nat n) = Some (i, m)) as Hsel.
    { unfold JS.index. destruct (Z.ltb_spec (Z.of_nat n) 0); [lia|].
      by rewrite Nat2Z.id. }
    split; [done|].
    intros provider st data Hprov Hinit.
    unfold startAuthRequest. unfold bind at 1.
    cbn [sp_email sp_authenticatorIndex with_index default from_option].
    rewrite Hget. unfold bind at 1. rewrite Hall.
    change (availableAuthenticators auth (with_index (Z.of_nat n) p)
              (imap pair authenticators))
      with (availableAuthenticators auth p (imap pair authenticators)).
    change (id (Z.of_nat n)) with (Z.of_nat n).
    rewrite Hsel.
    unfold bind at 1. unfold _getAuthServer. rewrite Hprov.
    unfold new_AuthRequest. munfold.
    cbn [drawn context set_drawn sp_purpose sp_data with_index]. rewrite Hinit.
    destruct (bool_decide _ && truthy _); by eexists _, _.
Qed.

Lemma C10_purpose_filter_witness :
  (∃ k resp w',
     startAuthRequest Sample.srv
       (with_index k (Scenario.by_email TestAuthenticator)) Scenario.visitor
       = (Ok resp, w') ∧
     sr_authenticatorId resp = a_id Scenario.adHoc ∧
     TestAuthenticator ∉ a_purposes Scenario.adHoc) ∧
  (startAuthRequest Sample.srv (Scenario.by_email AccessKeyStore)
     Scenario.visitor).1 = Err NOT_FOUND.
Proof.
  pose proof (C10_purpose_filter Sample.srv (Scenario.by_email TestAuthenticator)
                Scenario.visitor Sample.auth1 Scenario.visitor
                [Sample.totp "totp-1"; Scenario.adHoc]
                (add_provider_call
                   (CallInitAuthenticator AuthType_Email "ad_hoc_a@x.com_email")
                   Scenario.visitor)) as Htest.
  pose proof (C10_purpose_filter Sample.srv (Scenario.by_email AccessKeyStore)
                Scenario.visitor Sample.auth1 Scenario.visitor
                [Sample.totp "totp-1"; Scenario.adHoc]
                (add_provider_call
                   (CallInitAuthenticator AuthType_Email "ad_hoc_a@x.com_email")
                   Scenario.visitor)) as Hother.
  cbv zeta in Htest, Hother.
  destruct Htest as (_ & _ & _ & _ & Hselect);
    [reflexivity | vm_compute; reflexivity |].
  destruct Hother as (_ & Hnone & _);
    [reflexivity | vm_compute; reflexivity |].
  split.
  - destruct (Hselect 1%nat Scenario.adHoc) as (k & _ & _ & Hrun).
    + reflexivity.
    + repeat split; try done. by intros t [= <-].
    + by left.
    + destruct (Hrun Sample.emailProvider "123456" "")
        as (resp & w' & Hok & Hid & _); [reflexivity | reflexivity |].
      exists k, resp, w'. split; [exact Hok|]. split; [exact Hid|].
      intros Hin. simpl in Hin.
      repeat (apply elem_of_cons in Hin as [?|Hin]; [done|]).
      by apply elem_of_nil in Hin.
  - rewrite Hnone; [reflexivity|].
    intros m Hm (_ & Htype & _ & _) [?|Hpurpose]; [done|].
    simpl in Hm. apply elem_of_cons in Hm as [->|Hm].
    + by specialize (Htype _ eq_refl).
    + apply list_elem_of_singleton in Hm as ->. simpl in Hpurpose.
      repeat (apply elem_of_cons in Hpurpose as [?|Hpurpose]; [done|]).
      by apply elem_of_nil in Hpurpose.
Defined.

(** ** The embedding at work *)

(** A payload at the stored revision is accepted by the three updates. *)
Example current_revision_accepted e :
  (updateAccount Sample.srv (Sample.alice_at "rev-a") Sample.world1).1 ≠ Err e ∧
  (updateOrg Sample.srv (Sample.org_at "rev-o") Sample.world1).1 ≠ Err e ∧
  (updateVault Sample.srv (Sample.vault_at "rev-v") Sample.world1).1 ≠ Err e.
Proof. vm_compute. by repeat split. Qed.

(** Without a trusted device the request of a login stays Pending, and it
    is the provider that verifies it when the request is completed. *)
Example login_untrusted_device :
  let w := Sample.world Sample.auth1 Sample.anonymous 2000 in
  let started := startAuthRequest Sample.srv Sample.login_by_email w in
  let completed :=
    completeAuthRequest Sample.srv
      {| cp_email := "a@x.com"; cp_id := "uuid-0"; cp_data := Some "123456" |}
      started.2 in
  sr_requestStatus <$> (match started.1 with Ok r => Some r | Err _ => None end)
    = Some Pending ∧
  completed.1 = Ok {| cr_accountStatus := Active; cr_deviceTrusted := Some false;
                      cr_provisioning :=
                        Some {| ap_status := ProvActive; ap_quota_orgs := -1 |} |} ∧
  provider_calls completed.2 =
    [CallInitAuthenticator "email" "ad_hoc_a@x.com_email";
     CallInitAuthRequest "email" "ad_hoc_a@x.com_email" "uuid-0";
     CallInitAuthenticator "email" "ad_hoc_a@x.com_email";
     CallVerifyAuthRequest "email" "ad_hoc_a@x.com_email" "uuid-0"].
Proof. vm_compute. by repeat split. Qed.

(** * More properties *)

(** ** Trusted devices *)

Lemma findIndex_at {A} (p : A → bool) (l1 l2 : list A) (x : A) :
  p x = true → (∀ y, y ∈ l1 → p y = false) →
  JS.findIndex p (l1 ++ x :: l2) = Z.of_nat (length l1).
Proof.
  intros Hx Hl1. induction l1 as [|y l1 IH]; simpl.
  - by rewrite Hx.
  - rewrite (Hl1 y) by (by left).
    rewrite IH by (intros z Hz; apply Hl1; by right).
    destruct (Z.ltb_spec (Z.of_nat (length l1)) 0); lia.
Qed.

(** X1. removeTrustedDevice fails with NOT_FOUND, changing nothing, when
    no trusted device has the id; otherwise it removes the first device
    with the id, in the context and in the storage.  When the ids on the
    list are distinct, the devices left are exactly the others, so the
    device is not trusted any more. *)
Theorem removeTrustedDevice_spec w session account auth id :
  authenticated w session account auth →
  ((∀ d, d ∈ auth_trustedDevices auth → dev_id d ≠ id) →
     removeTrustedDevice id w = (Err NOT_FOUND, w)) ∧
  (∀ d, d ∈ auth_trustedDevices auth → dev_id d = id →
     ∃ w' auth',
       removeTrustedDevice id w = (Ok tt, w') ∧
       ctx_auth (context w') = Some auth' ∧
       stored_auth w' (auth_id auth) = Some auth' ∧
       S (length (auth_trustedDevices auth')) = length (auth_trustedDevices auth) ∧
       (NoDup (dev_id <$> auth_trustedDevices auth) →
          (∀ x, x ∈ auth_trustedDevices auth' ↔
                  x ∈ auth_trustedDevices auth ∧ dev_id x ≠ id) ∧
          device_trusted (Some d) auth' = Some false)).
Proof.
  intros Hctx. split.
  - intros Hno. unfold removeTrustedDevice. run_requireAuth Hctx. cbn [snd].
    assert (JS.findIndex (λ d, bool_decide (dev_id d = id))
              (auth_trustedDevices auth) < 0) as Hi.
    { apply findIndex_none. intros d Hd. apply bool_decide_eq_false. by apply Hno. }
    apply Z.ltb_lt in Hi. by rewrite Hi.
  - intros d Hd Hid.
    assert (0 ≤ JS.findIndex (λ d, bool_decide (dev_id d = id))
                  (auth_trustedDevices auth)) as Hi.
    { destruct (Z.lt_ge_cases (JS.findIndex (λ d, bool_decide (dev_id d = id))
                                 (auth_trustedDevices auth)) 0) as [Hlt|]; [|done].
      apply findIndex_none with (x := d) in Hlt; [|done].
      apply bool_decide_eq_false in Hlt. done. }
    destruct (findIndex_first _ _ Hi) as (l1 & x & l2 & Hl & Hx & Hl1 & Hidx).
    apply bool_decide_eq_true in Hx.
    unfold removeTrustedDevice. run_requireAuth Hctx. cbn [snd].
    rewrite Hidx. destruct (Z.ltb_spec (Z.of_nat (length l1)) 0); [lia|].
    rewrite Hl, splice_inside. munfold.
    eexists _, _. split; [reflexivity|]. split; [reflexivity|].
    split; [apply lookup_insert_eq|].
    cbn [auth_trustedDevices set_auth_trustedDevices].
    split; [rewrite !length_app; simpl; lia|].
    rewrite fmap_app, fmap_cons. intros Hnd.
    apply list.NoDup_app in Hnd as (Hnd1 & Hdisj & Hnd2).
    apply list.NoDup_cons in Hnd2 as [Hx2 Hnd2].
    assert (∀ y, y ∈ l1 ++ l2 → dev_id y ≠ id) as Hrest.
    { intros y Hy Hyid. apply elem_of_app in Hy as [Hy|Hy].
      - apply (Hdisj (dev_id y)); [by apply list_elem_of_fmap_2|].
        rewrite Hyid, <- Hx. by left.
      - apply Hx2. rewrite Hx, <- Hyid. by apply list_elem_of_fmap_2. }
    split.
    + intros y. rewrite !elem_of_app, elem_of_cons. split.
      * intros Hy. split; [tauto|]. apply Hrest. by apply elem_of_app.
      * intros [[?|[->|?]] Hne]; tauto.
    + unfold device_trusted. f_equal. cbn [auth_trustedDevices].
      apply not_true_is_false. intros Hs. apply some_exists in Hs as (y & Hy & Hyid).
      apply bool_decide_eq_true in Hyid. apply (Hrest y Hy). congruence.
Qed.

(** ** The session authenticator *)

(** X2. A request that [authenticate] rejects leaves no trace: the world
    is as it was.  The error is that of the first check that fails:
    INVALID_SESSION for an unknown session, then SESSION_EXPIRED, then
    INVALID_REQUEST for a signature that does not verify, then
    MAX_REQUEST_AGE_EXCEEDED, and NOT_FOUND when the account of the
    session is gone. *)
Theorem authenticate_rejection srv req w e w' :
  authenticate srv req w = (Err e, w') →
  w' = w ∧
  ∃ ra, req_auth req = Some ra ∧
    match st_sessions (storage w) !! ra_session ra with
    | None => e = INVALID_SESSION
    | Some session =>
        if match s_expires session with
           | Some expires => expires <? now w
           | None => false
           end
        then e = SESSION_EXPIRED
        else if negb (session_verify srv session req) then e = INVALID_REQUEST
        else if now w - ra_time ra >? maxRequestAge (config srv)
        then e = MAX_REQUEST_AGE_EXCEEDED
        else e = NOT_FOUND ∧
             st_accounts (storage w) !! s_account session = None
    end.
Proof.
  unfold authenticate.
  destruct (req_auth req) as [ra|] eqn:Hra; [|done].
  munfold.
  destruct (st_sessions (storage w) !! ra_session ra) as [session|] eqn:Hs.
  2:{ simpl. intros [= <- <-]. split; [done|]. exists ra. by rewrite Hs. }
  destruct (match s_expires session with Some e => e <? now w | None => false end)
    eqn:Hexp.
  { intros [= <- <-]. split; [done|]. exists ra. by rewrite Hs, Hexp. }
  destruct (negb (session_verify srv session req)) eqn:Hv.
  { intros [= <- <-]. split; [done|]. exists ra. by rewrite Hs, Hexp, Hv. }
  destruct (now w - ra_time ra >? maxRequestAge (config srv)) eqn:Hage.
  { intros [= <- <-]. split; [done|]. exists ra. by rewrite Hs, Hexp, Hv, Hage. }
  destruct (st_accounts (storage w) !! s_account session) as [account|] eqn:Hacc.
  2:{ intros [= <- <-]. split; [done|]. exists ra. by rewrite Hs, Hexp, Hv, Hage. }
  destruct (_getAuth_effect srv (acc_email account) w) as (auth & w1 & -> & _).
  done.
Qed.

Lemma insert_middle {A} (l1 l2 : list A) (x y : A) :
  <[length l1 := y]> (l1 ++ x :: l2) = l1 ++ y :: l2.
Proof. induction l1 as [|z l1 IH]; simpl; [done | by rewrite IH]. Qed.

(** X3. A request that [authenticate] accepts: the context holds the
    session, its account and the Auth record; the session is stored as it
    was but for the time of its last use and update, which is the current
    time, and the device and the location, which are those of the
    request; the Auth record is stored as it was read but for its session
    list.  When an entry of the list has the id of the session, the first
    such entry is replaced by the entry of the session and all others
    stay where they are; when none has, the entry is added at the end and
    all others stay. *)
Theorem authenticate_upsert srv req ra w w' :
  req_auth req = Some ra →
  authenticate srv req w = (Ok tt, w') →
  ∃ session0 account auth0 session auth,
    st_sessions (storage w) !! ra_session ra = Some session0 ∧
    st_accounts (storage w) !! s_account session0 = Some account ∧
    (_getAuth srv (acc_email account) w).1 = Ok auth0 ∧
    authenticated w' session account auth ∧
    s_id session = s_id session0 ∧ s_key session = s_key session0 ∧
    s_lastUsed session = now w ∧
    st_sessions (storage w') !! s_id session = Some session ∧
    stored_auth w' (auth_id auth0) = Some auth ∧
    session_info session ∈ auth_sessions auth ∧
    auth = set_auth_sessions (auth_sessions auth) auth0 ∧
    length (auth_sessions auth) =
      (if bool_decide (s_id session ∈ si_id <$> auth_sessions auth0)
       then length (auth_sessions auth0)
       else S (length (auth_sessions auth0))) ∧
    session =
      {| s_id := s_id session0; s_account := s_account session0;
         s_created := s_created session0; s_updated := now w;
         s_lastUsed := now w; s_expires := s_expires session0;
         s_key := s_key session0; s_device := ctx_device (context w);
         s_lastLocation := req_location req |} ∧
    ((∃ s, s ∈ auth_sessions auth0 ∧ si_id s = s_id session) →
       ∃ l1 x l2,
         auth_sessions auth0 = l1 ++ x :: l2 ∧ si_id x = s_id session ∧
         (∀ y, y ∈ l1 → si_id y ≠ s_id session) ∧
         auth_sessions auth = l1 ++ session_info session :: l2) ∧
    ((∀ s, s ∈ auth_sessions auth0 → si_id s ≠ s_id session) →
       auth_sessions auth = auth_sessions auth0 ++ [session_info session]).
Proof.
  intros Hra. unfold authenticate. rewrite Hra. munfold.
  destruct (st_sessions (storage w) !! ra_session ra) as [session|] eqn:Hs;
    [|done].
  destruct (match s_expires session with Some e => e <? now w | None => false end);
    [done|].
  destruct (negb (session_verify srv session req)); [done|].
  destruct (now w - ra_time ra >? maxRequestAge (config srv)); [done|].
  destruct (st_accounts (storage w) !! s_account session) as [account|] eqn:Ha;
    [|done].
  destruct (_getAuth_effect srv (acc_email account) w)
    as (auth & w1 & Hget & Hw1).
  rewrite Hget. destruct Hw1 as (Hctx1 & Hnow1 & _).
  cbn [s_id]. intros [= <-].
  eexists session, account, auth, _, _.
  split; [done|]. split; [done|]. split; [by rewrite Hget|].
  split; [by repeat split|].
  cbn [s_id s_key s_lastUsed storage set_storage st_sessions context set_context].
  split; [done|]. split; [done|]. split; [done|].
  split; [apply lookup_insert_eq|].
  set (info := session_info _).
  set (i := JS.findIndex _ (auth_sessions auth)).
  assert (i ≠ -1 ↔ s_id session ∈ si_id <$> auth_sessions auth) as Hiff.
  { destruct (findIndex_range (λ s, bool_decide (si_id s = s_id session))
                (auth_sessions auth)) as [Hr|Hr]; fold i in Hr.
    - split; [done|]. intros Hin. apply list_elem_of_fmap in Hin as (x & Hx & Hin).
      assert (i < 0) as Hlt by lia.
      apply findIndex_none with (x := x) in Hlt; [|done].
      apply bool_decide_eq_false in Hlt. congruence.
    - split; [intros _|lia].
      destruct (findIndex_first (λ s, bool_decide (si_id s = s_id session))
                  (auth_sessions auth)) as (l1 & x & l2 & Hl & Hx & _);
        [fold i; lia|].
      apply bool_decide_eq_true in Hx. rewrite <- Hx, Hl.
      apply list_elem_of_fmap_2. apply elem_of_app. right. by left. }
  destruct (bool_decide (i ≠ -1)) eqn:Hi.
  - apply bool_decide_eq_true in Hi.
    rewrite (bool_decide_eq_true_2 _ (proj1 Hiff Hi)).
    destruct (findIndex_range (λ s, bool_decide (si_id s = s_id session))
                (auth_sessions auth)) as [?|Hr]; [done|]. fold i in Hr.
    split; [apply lookup_insert_eq|].
    cbn [auth_sessions set_auth_sessions].
    unfold JS.assign. destruct (Z.ltb_spec i 0); [lia|].
    split; [|split; [done | split; [apply length_insert|]]].
    { apply list_elem_of_lookup. exists (Z.to_nat i).
      apply list_lookup_insert_eq. lia. }
    split; [by rewrite Hctx1|]. split.
    + intros _.
      destruct (findIndex_first (λ s, bool_decide (si_id s = s_id session))
                  (auth_sessions auth)) as (l1 & x & l2 & Hl & Hx & Hl1 & Hlen);
        [fold i; lia|].
      exists l1, x, l2. split; [done|].
      split; [by apply bool_decide_eq_true in Hx|].
      split; [intros y Hy; by apply (bool_decide_eq_false_1 _), Hl1|].
      fold i in Hlen. rewrite Hlen, Nat2Z.id, Hl. apply insert_middle.
    + intros Hnone. exfalso. apply Hiff in Hi.
      apply list_elem_of_fmap in Hi as (x & Hx & Hin). by apply (Hnone x).
  - apply bool_decide_eq_false in Hi.
    rewrite bool_decide_eq_false_2 by (intros Hin; apply Hi; by apply Hiff).
    split; [apply lookup_insert_eq|].
    cbn [auth_sessions set_auth_sessions].
    split; [apply elem_of_app; right; by left|].
    split; [done|]. split; [rewrite length_app; simpl; lia|].
    split; [by rewrite Hctx1|]. split; [|done].
    intros (s & Hin & Hid). exfalso. apply Hi, Hiff.
    rewrite <- Hid. by apply list_elem_of_fmap_2.
Qed.

(** ** Revoking sessions *)

(** X4. revokeSession refuses, without changing anything, a session that
    does not exist (NOT_FOUND) and a session of another account
    (INSUFFICIENT_PERMISSIONS). *)
Theorem revokeSession_refused w session account auth id :
  authenticated w session account auth →
  (st_sessions (storage w) !! id = None →
     revokeSession id w = (Err NOT_FOUND, w)) ∧
  (∀ target, st_sessions (storage w) !! id = Some target →
     s_account target ≠ acc_id account →
     revokeSession id w = (Err INSUFFICIENT_PERMISSIONS, w)).
Proof.
  intros Hctx. split.
  - intros Hget. unfold revokeSession. run_requireAuth Hctx.
    unfold bind at 1. unfold storage_get at 1. cbn [table Storable_Session].
    by rewrite Hget.
  - intros target Hget Hown. unfold revokeSession. run_requireAuth Hctx.
    unfold bind at 1. unfold storage_get at 1. cbn [table Storable_Session].
    rewrite Hget. cbn [fst snd]. by rewrite bool_decide_eq_true_2.
Qed.


(** ** Reading organizations, vaults and invites *)

(** X6. getOrg hides organizations from accounts that are neither their
    owner nor a member: the answer is NOT_FOUND, with nothing written,
    exactly when the organization does not exist or the caller is such an
    account, so the two cases cannot be told apart; the owner and the
    members get the stored organization. *)
Theorem getOrg_existence_hiding w session account auth id :
  authenticated w session account auth →
  (getOrg id w = (Err NOT_FOUND, w) ↔
     match st_orgs (storage w) !! id with
     | None => True
     | Some org =>
         org_owner org ≠ acc_id account ∧
         isMember org (acc_id account) = false
     end) ∧
  (∀ org, st_orgs (storage w) !! id = Some org →
     org_owner org = acc_id account ∨ isMember org (acc_id account) = true →
     getOrg id w = (Ok org, add_log "org.get" w)).
Proof.
  intros Hctx.
  assert (getOrg id w =
          match st_orgs (storage w) !! id with
          | None => (Err NOT_FOUND, w)
          | Some org =>
              if bool_decide (org_owner org ≠ acc_id account) &&
                 negb (isMember org (acc_id account))
              then (Err NOT_FOUND, w) else (Ok org, add_log "org.get" w)
          end) as ->.
  { unfold getOrg. run_requireAuth Hctx.
    unfold bind at 1. unfold storage_get at 1. cbn [table Storable_Org].
    destruct (st_orgs (storage w) !! id) as [org|]; [|done]. cbn [fst].
    by destruct (_ && _). }
  destruct (st_orgs (storage w) !! id) as [org|]; [|by split].
  destruct (decide (org_owner org = acc_id account)) as [Ho|Ho].
  - rewrite bool_decide_eq_false_2 by (intros H; by apply H). cbn [andb].
    split; [split; [done | tauto]|]. by intros ? [= <-] _.
  - rewrite bool_decide_eq_true_2 by done. cbn [andb].
    destruct (isMember org (acc_id account)) eqn:Hm; cbn [negb].
    + split; [split; [done | by intros [_ ?]]|]. by intros ? [= <-] _.
    + split; [split; [by intros _ | done]|].
      intros ? [= <-] [?|?]; [done | congruence].
Qed.

(** The checks of [getVault], for a vault that is stored. *)
Lemma getVault_checks srv w session account auth vault org id :
  authenticated w session account auth →
  st_vaults (storage w) !! id = Some vault →
  match v_org vault with
  | Some o => st_orgs (storage w) !! oi_id o = org ∧ is_Some org
  | None => org = None
  end →
  getVault srv id w =
    if match org with
       | Some o => isSuspended o (acc_id account)
       | None => false
       end
    then (Err INSUFFICIENT_PERMISSIONS, w)
    else if match org with
            | Some o => negb (canRead srv o vault account)
            | None => bool_decide (v_owner vault ≠ acc_id account)
            end
    then (Err NOT_FOUND, w)
    else (Ok vault, add_log "vault.get" w).
Proof.
  intros Hctx Hvault Horg.
  unfold getVault. run_requireAuth Hctx. cbn [fst snd].
  unfold bind at 1. unfold storage_get at 1. cbn [table Storable_Vault].
  rewrite Hvault. unfold bind at 1.
  assert (match v_org vault with
          | Some o => org0 <- storage_get Org (oi_id o);; ret (Some org0)
          | None => ret None
          end w = (Ok org, w)) as ->.
  { destruct (v_org vault) as [o|]; [|by subst org].
    destruct Horg as [Horg [o' ->]]. unfold bind, storage_get, ret.
    cbn [table Storable_Org]. by rewrite Horg. }
  destruct (match org with Some o => isSuspended o _ | None => false end); [done|].
  by destruct (match org with Some o => negb _ | None => bool_decide _ end).
Qed.

(** X7. getVault hides a private vault from every account but its owner,
    and a vault of an organization from the members that may not read it:
    the answer is NOT_FOUND, as for a vault that does not exist.  A
    suspended member is told INSUFFICIENT_PERMISSIONS instead, whether the
    member may read the vault or not. *)
Theorem getVault_existence_hiding srv w session account auth id :
  authenticated w session account auth →
  (st_vaults (storage w) !! id = None →
     getVault srv id w = (Err NOT_FOUND, w)) ∧
  (∀ vault, st_vaults (storage w) !! id = Some vault → v_org vault = None →
     getVault srv id w =
       if bool_decide (v_owner vault = acc_id account)
       then (Ok vault, add_log "vault.get" w) else (Err NOT_FOUND, w)) ∧
  (∀ vault o org, st_vaults (storage w) !! id = Some vault →
     v_org vault = Some o → st_orgs (storage w) !! oi_id o = Some org →
     getVault srv id w =
       if isSuspended org (acc_id account)
       then (Err INSUFFICIENT_PERMISSIONS, w)
       else if canRead srv org vault account
       then (Ok vault, add_log "vault.get" w) else (Err NOT_FOUND, w)).
Proof.
  intros Hctx. split; [|split].
  - intros Hvault. unfold getVault. run_requireAuth Hctx.
    unfold bind at 1. unfold storage_get at 1. cbn [table Storable_Vault].
    by rewrite Hvault.
  - intros vault Hvault Ho.
    rewrite (getVault_checks srv w session account auth vault None);
      [|done..|by rewrite Ho].
    destruct (decide (v_owner vault = acc_id account)) as [H|H].
    + rewrite (bool_decide_eq_true_2 (v_owner vault = acc_id account)) by done.
      by rewrite bool_decide_eq_false_2 by (intros H'; by apply H').
    + rewrite (bool_decide_eq_false_2 (v_owner vault = acc_id account)) by done.
      by rewrite bool_decide_eq_true_2.
  - intros vault o org Hvault Ho Horg.
    rewrite (getVault_checks srv w session account auth vault (Some org));
      [|done..|rewrite Ho; split; [done | by exists org]].
    destruct (isSuspended org (acc_id account)); [done|].
    by destruct (canRead srv org vault account).
Qed.

(** X8. What getVault refuses, updateVault refuses: when getVault fails
    on the vault of a payload, updateVault fails on the payload and writes
    nothing, with the same error, or with PROVISIONING_NOT_ALLOWED when no
    provisioning is found for the vault. *)
Theorem updateVault_needs_read_access srv w session account auth p e w' :
  authenticated w session account auth →
  getVault srv (v_id p) w = (Err e, w') →
  ∃ e', updateVault srv p w = (Err e', w) ∧
    (e' = e ∨ e' = PROVISIONING_NOT_ALLOWED).
Proof.
  intros Hctx Hget.
  destruct (st_vaults (storage w) !! v_id p) as [vault|] eqn:Hvault.
  2:{ destruct (getVault_existence_hiding srv w session account auth (v_id p) Hctx)
        as (Hnone & _). rewrite (Hnone Hvault) in Hget. injection Hget as <- <-.
      exists NOT_FOUND. split; [|by left].
      unfold updateVault. run_requireAuth Hctx.
      unfold bind at 1. unfold storage_get at 1. cbn [table Storable_Vault].
      by rewrite Hvault. }
  assert (∃ org, match v_org vault with
                 | Some o => st_orgs (storage w) !! oi_id o = org ∧ is_Some org
                 | None => org = None
                 end ∨ (∃ o, v_org vault = Some o ∧
                             st_orgs (storage w) !! oi_id o = None)) as [org Horg].
  { destruct (v_org vault) as [o|] eqn:Ho; [|by exists None; left].
    destruct (st_orgs (storage w) !! oi_id o) as [org|] eqn:Horg.
    - exists (Some org). left. split; [done | by exists org].
    - exists None. right. by exists o. }
  destruct Horg as [Horg|(o & Ho & Horg)].
  2:{ exists NOT_FOUND.
      assert (e = NOT_FOUND) as ->.
      { revert Hget. unfold getVault. run_requireAuth Hctx.
        unfold bind at 1. unfold storage_get at 1. cbn [table Storable_Vault].
        rewrite Hvault. unfold bind at 1. rewrite Ho.
        unfold bind at 1. unfold storage_get at 1. cbn [table Storable_Org].
        rewrite Horg. by intros [= <- _]. }
      split; [|by left].
      unfold updateVault. run_requireAuth Hctx.
      unfold bind at 1. unfold storage_get at 1. cbn [table Storable_Vault].
      rewrite Hvault. unfold bind at 1. rewrite Ho.
      unfold bind at 1. unfold storage_get at 1. cbn [table Storable_Org].
      by rewrite Horg. }
  rewrite (getVault_checks srv w session account auth vault org) in Hget by done.
  unfold updateVault. run_requireAuth Hctx. cbn [fst snd].
  unfold bind at 1. unfold storage_get at 1. cbn [table Storable_Vault].
  rewrite Hvault. unfold bind at 1.
  assert (match v_org vault with
          | Some o => org0 <- storage_get Org (oi_id o);; ret (Some org0)
          | None => ret None
          end w = (Ok org, w)) as ->.
  { destruct (v_org vault) as [o|]; [|by subst org].
    destruct Horg as [Horg [o' ->]]. unfold bind, storage_get, ret.
    cbn [table Storable_Org]. by rewrite Horg. }
  destruct (vault_provisioning (getProvisioning srv auth) org) as [status|];
    [|exists PROVISIONING_NOT_ALLOWED; split; [done | by right]].
  destruct (match org with Some o => isSuspended o _ | None => false end).
  { injection Hget as <- _. exists INSUFFICIENT_PERMISSIONS. split; [done | by left]. }
  destruct (match org with Some o => negb _ | None => bool_decide _ end).
  { injection Hget as <- _. exists NOT_FOUND. split; [done | by left]. }
  done.
Qed.

(** ** Deleting an organization *)

Lemma for_each_delete_vaults (l : list VaultInfo) w :
  ∃ w', for_each l (λ v, storage_delete Vault (vi_id v)) w = (Ok tt, w') ∧
    st_accounts (storage w') = st_accounts (storage w) ∧
    st_auths (storage w') = st_auths (storage w) ∧
    st_sessions (storage w') = st_sessions (storage w) ∧
    st_orgs (storage w') = st_orgs (storage w) ∧
    context w' = context w ∧ logs w' = logs w ∧
    ∀ k, st_vaults (storage w') !! k =
           if bool_decide (k ∈ vi_id <$> l) then None
           else st_vaults (storage w) !! k.
Proof.
  revert w. induction l as [|v l IH]; intros w.
  - exists w. repeat split; try done.
  - simpl for_each. munfold.
    destruct (IH (set_storage
                    {| st_accounts := st_accounts (storage w);
                       st_auths := st_auths (storage w);
                       st_sessions := st_sessions (storage w);
                       st_orgs := st_orgs (storage w);
                       st_vaults := delete (vi_id v) (st_vaults (storage w)) |} w))
      as (w' & Hrun & Ha & Hau & Hs & Ho & Hc & Hl & Hv).
    exists w'. fold (@for_each VaultInfo). unfold modify, storage_delete in Hrun.
    cbn [table set_table Storable_Vault] in Hrun.
    split; [exact Hrun|]. repeat split; try done.
    intros k. rewrite Hv. cbn [storage set_storage st_vaults].
    rewrite fmap_cons.
    destruct (decide (k = vi_id v)) as [->|Hk].
    + rewrite (bool_decide_eq_true_2 (vi_id v ∈ vi_id v :: _)) by (by left).
      rewrite lookup_delete_eq. by destruct (bool_decide _).
    + rewrite lookup_delete_ne by done.
      destruct (decide (k ∈ vi_id <$> l)) as [Hin|Hin].
      * rewrite !bool_decide_eq_true_2; [done | by right | done].
      * rewrite !bool_decide_eq_false_2; [done | | done].
        intros [?|?]%elem_of_cons; done.
Qed.

Lemma filter_idemp {A} (p : A → bool) (l : list A) :
  JS.filter p (JS.filter p l) = JS.filter p l.
Proof.
  induction l as [|x l IH]; simpl; [done|].
  destruct (p x) eqn:Hx; simpl; [rewrite Hx; by f_equal | done].
Qed.

(** The loop of [deleteOrg] and [updateOrg] over member accounts: every
    member account that exists loses its entries for the organization;
    the promise of a member whose account is gone fails with NOT_FOUND. *)
Lemma detach_members (orgid : string) (members : list OrgMember) w :
  accounts_keyed w →
  let strip := λ acc,
    set_acc_orgs
      (JS.filter (λ o, bool_decide (oi_id o ≠ orgid)) (acc_orgs acc)) acc in
  ∃ rs w',
    map_M (λ member : OrgMember, settle (
      acc <- storage_get Account (m_id member) ;;
      storage_save (strip acc))) members w = (Ok rs, w') ∧
    only_accounts_differ w w' ∧ accounts_keyed w' ∧
    (∀ k, st_accounts (storage w') !! k =
            if bool_decide (k ∈ m_id <$> members)
            then strip <$> st_accounts (storage w) !! k
            else st_accounts (storage w) !! k) ∧
    ((∀ m, m ∈ members → is_Some (st_accounts (storage w) !! m_id m)) →
       ∀ w'', Promise_all rs w'' = (Ok tt, w'')) ∧
    ((∃ m, m ∈ members ∧ st_accounts (storage w) !! m_id m = None) →
       ∀ w'', Promise_all rs w'' = (Err NOT_FOUND, w'')).
Proof.
  intros Hkeyed strip. revert w Hkeyed.
  induction members as [|m members IH]; intros w Hkeyed.
  - exists [], w. split; [done|]. split; [by repeat split|]. split; [done|].
    split; [done|]. split; [done|]. intros (m & Hm & _). by apply elem_of_nil in Hm.
  - simpl map_M. unfold bind at 1. unfold settle at 1.
    unfold bind at 1. unfold storage_get at 1. cbn [table Storable_Account].
    destruct (st_accounts (storage w) !! m_id m) as [acc|] eqn:Hacc.
    + unfold storage_save, modify. cbn [table set_table id_of Storable_Account].
      set (w1 := set_storage _ w).
      assert (acc_id (strip acc) = m_id m) as Hid
        by (cbn [strip acc_id set_acc_orgs]; by apply Hkeyed).
      assert (accounts_keyed w1) as Hkeyed1.
      { intros k a. unfold w1. cbn [storage set_storage st_accounts].
        rewrite Hid. destruct (decide (k = m_id m)) as [->|Hk].
        - rewrite lookup_insert_eq. by intros [= <-].
        - rewrite lookup_insert_ne by done. apply Hkeyed. }
      destruct (IH w1 Hkeyed1) as (rs & w' & Hrun & Hdiff & Hk' & Hacc' & Hall & Hsome).
      unfold storage_save, modify in Hrun.
      cbn [table set_table id_of Storable_Account] in Hrun.
      unfold bind at 1. fold strip. rewrite Hrun.
      exists (None :: rs), w'. split; [done|].
      split; [by destruct Hdiff as (?&?&?&?&?&?&?&?&?&?)|]. split; [done|].
      assert (∀ k, st_accounts (storage w1) !! k =
                   if bool_decide (k = m_id m)
                   then strip <$> st_accounts (storage w) !! k
                   else st_accounts (storage w) !! k) as Hw1.
      { intros k. unfold w1. cbn [storage set_storage st_accounts]. rewrite Hid.
        destruct (decide (k = m_id m)) as [->|Hk].
        - rewrite bool_decide_eq_true_2 by done. by rewrite lookup_insert_eq, Hacc.
        - rewrite bool_decide_eq_false_2 by done. by rewrite lookup_insert_ne. }
      split; [|split].
      * intros k. rewrite Hacc', Hw1, fmap_cons.
        destruct (decide (k = m_id m)) as [->|Hk].
        -- rewrite (bool_decide_eq_true_2 (m_id m = m_id m)) by done.
           rewrite (bool_decide_eq_true_2 (m_id m ∈ m_id m :: _)) by (by left).
           destruct (bool_decide _); [|done].
           rewrite Hacc. simpl. f_equal. unfold strip. cbn [acc_orgs set_acc_orgs].
           by rewrite filter_idemp.
        -- rewrite (bool_decide_eq_false_2 (k = m_id m)) by done.
           destruct (decide (k ∈ m_id <$> members)) as [Hin|Hin].
           ++ rewrite !bool_decide_eq_true_2; [done | by right | done].
           ++ rewrite !bool_decide_eq_false_2; [done | | done].
              intros [?|?]%elem_of_cons; done.
      * intros Hex w''. simpl. apply Hall. intros m' Hm'.
        rewrite Hw1. destruct (bool_decide _).
        -- apply fmap_is_Some. apply Hex. by right.
        -- apply Hex. by right.
      * intros (m' & Hm' & Hnone) w''. simpl. apply Hsome.
        apply elem_of_cons in Hm' as [->|Hm']; [congruence|].
        exists m'. split; [done|]. rewrite Hw1.
        destruct (bool_decide _); by rewrite Hnone.
    + destruct (IH w Hkeyed) as (rs & w' & Hrun & Hdiff & Hk' & Hacc' & Hall & Hsome).
      unfold bind at 1. fold strip. rewrite Hrun.
      exists (Some NOT_FOUND :: rs), w'. split; [done|].
      split; [done|]. split; [done|]. split; [|split].
      * intros k. rewrite Hacc', fmap_cons.
        destruct (decide (k = m_id m)) as [->|Hk].
        -- rewrite (bool_decide_eq_true_2 (m_id m ∈ m_id m :: _)) by (by left).
           rewrite Hacc. by destruct (bool_decide _).
        -- destruct (decide (k ∈ m_id <$> members)) as [Hin|Hin].
           ++ rewrite !bool_decide_eq_true_2; [done | by right | done].
           ++ rewrite !bool_decide_eq_false_2; [done | | done].
              intros [?|?]%elem_of_cons; done.
      * intros Hex. destruct (Hex m) as [? ?]; [by left | congruence].
      * done.
Qed.

(** X9. deleteOrg is refused with INSUFFICIENT_PERMISSIONS, and nothing
    is written, unless the caller is a member of the organization with the
    role Owner.  For an owner, when the accounts of all members exist, the
    organization is deleted with all its vaults, every member account loses
    its entries for the organization, and no other account changes.  When
    the account of a member is gone, the call fails with NOT_FOUND after
    the vaults were deleted, and the organization stays in the storage. *)
Theorem deleteOrg_cascade w session account auth id org :
  authenticated w session account auth →
  st_orgs (storage w) !! id = Some org →
  (isOwner org (acc_id account) = false →
     deleteOrg id w = (Err INSUFFICIENT_PERMISSIONS, w)) ∧
  (isOwner org (acc_id account) = true → accounts_keyed w →
     (∀ m, m ∈ org_members org →
        is_Some (st_accounts (storage w) !! m_id m)) →
     ∃ w', deleteOrg id w = (Ok tt, w') ∧
       st_orgs (storage w') !! org_id org = None ∧
       (∀ v, v ∈ org_vaults org → st_vaults (storage w') !! vi_id v = None) ∧
       (∀ m, m ∈ org_members org →
          ∃ a, st_accounts (storage w') !! m_id m = Some a ∧
               ∀ o, o ∈ acc_orgs a → oi_id o ≠ org_id org) ∧
       (∀ k, k ∉ m_id <$> org_members org →
          st_accounts (storage w') !! k = st_accounts (storage w) !! k)) ∧
  (isOwner org (acc_id account) = true → accounts_keyed w →
     (∃ m, m ∈ org_members org ∧ st_accounts (storage w) !! m_id m = None) →
     ∃ w', deleteOrg id w = (Err NOT_FOUND, w') ∧
       st_orgs (storage w') !! id = Some org ∧
       (∀ v, v ∈ org_vaults org → st_vaults (storage w') !! vi_id v = None)).
Proof.
  intros Hctx Horg.
  assert (isOwner org (acc_id account) = true → accounts_keyed w →
            ∃ w1 rs w2,
              only_accounts_differ w1 w2 ∧
              st_orgs (storage w1) = st_orgs (storage w) ∧
              st_accounts (storage w1) = st_accounts (storage w) ∧
              (∀ v, v ∈ org_vaults org → st_vaults (storage w1) !! vi_id v = None) ∧
              (∀ k, st_accounts (storage w2) !! k =
                 if bool_decide (k ∈ m_id <$> org_members org)
                 then (λ acc, set_acc_orgs
                         (JS.filter (λ o, bool_decide (oi_id o ≠ org_id org))
                            (acc_orgs acc)) acc) <$> st_accounts (storage w) !! k
                 else st_accounts (storage w) !! k) ∧
              ((∀ m, m ∈ org_members org →
                  is_Some (st_accounts (storage w) !! m_id m)) →
                 ∀ w'', Promise_all rs w'' = (Ok tt, w'')) ∧
              ((∃ m, m ∈ org_members org ∧
                     st_accounts (storage w) !! m_id m = None) →
                 ∀ w'', Promise_all rs w'' = (Err NOT_FOUND, w'')) ∧
              deleteOrg id w =
                (Promise_all rs ;;;
                 storage_delete Org (org_id org) ;;;
                 log "org.delete") w2) as Hloop.
  { intros Howner Hkeyed.
    destruct (for_each_delete_vaults (org_vaults org) w)
      as (w1 & Hrun1 & Ha1 & Hau1 & Hs1 & Ho1 & Hc1 & Hl1 & Hv1).
    assert (accounts_keyed w1) as Hkeyed1.
    { intros k a. rewrite Ha1. apply Hkeyed. }
    destruct (detach_members (org_id org) (org_members org) w1 Hkeyed1)
      as (rs & w2 & Hrun2 & Hdiff & _ & Hacc2 & Hall & Hsome).
    exists w1, rs, w2. split; [done|]. split; [done|]. split; [done|].
    split; [|split; [|split; [|split]]].
    - intros v Hv. rewrite Hv1. rewrite bool_decide_eq_true_2; [done|].
      by apply list_elem_of_fmap_2.
    - intros k. rewrite Hacc2. by rewrite Ha1.
    - intros Hex. apply Hall. intros m Hm. rewrite Ha1. by apply Hex.
    - intros (m & Hm & Hnone). apply Hsome. exists m. by rewrite Ha1.
    - unfold deleteOrg. run_requireAuth Hctx. cbn [fst].
      unfold bind at 1. unfold storage_get at 1. cbn [table Storable_Org].
      rewrite Horg. rewrite Howner. cbn [negb].
      unfold bind at 1. rewrite Hrun1. unfold bind at 1. rewrite Hrun2. done. }
  split; [|split].
  - intros Howner. unfold deleteOrg. run_requireAuth Hctx. cbn [fst].
    unfold bind at 1. unfold storage_get at 1. cbn [table Storable_Org].
    rewrite Horg. by rewrite Howner.
  - intros Howner Hkeyed Hex.
    destruct (Hloop Howner Hkeyed)
      as (w1 & rs & w2 & Hdiff & Ho1 & Ha1 & Hv1 & Hacc2 & Hall & _ & ->).
    destruct Hdiff as (_ & _ & _ & _ & _ & _ & _ & _ & Ho2 & Hv2).
    unfold bind at 1. rewrite (Hall Hex). munfold.
    eexists. split; [reflexivity|].
    cbn [storage set_storage st_orgs st_vaults st_accounts add_log].
    split; [apply lookup_delete_eq|]. split; [|split].
    + intros v Hv. rewrite Hv2. by apply Hv1.
    + intros m Hm. rewrite Hacc2.
      rewrite bool_decide_eq_true_2 by (by apply list_elem_of_fmap_2).
      destruct (Hex m Hm) as [a Ha]. rewrite Ha. eexists. split; [reflexivity|].
      cbn [acc_orgs set_acc_orgs]. intros o Ho.
      apply elem_of_filter in Ho as [_ Ho]. by apply bool_decide_eq_true in Ho.
    + intros k Hk. rewrite Hacc2. by rewrite bool_decide_eq_false_2.
  - intros Howner Hkeyed Hex.
    destruct (Hloop Howner Hkeyed)
      as (w1 & rs & w2 & Hdiff & Ho1 & Ha1 & Hv1 & Hacc2 & _ & Hsome & ->).
    destruct Hdiff as (_ & _ & _ & _ & _ & _ & _ & _ & Ho2 & Hv2).
    unfold bind at 1. rewrite (Hsome Hex).
    exists w2. split; [done|]. split; [by rewrite Ho2, Ho1|].
    intros v Hv. rewrite Hv2. by apply Hv1.
Qed.

(** ** Auth tokens *)

Lemma redeemable_spec p r :
  undefined_or (ut_authenticatorId p)
    (λ id, bool_decide (r_authenticatorId r = id)) &&
  undefined_or (ut_requestId p) (λ id, bool_decide (r_id r = id)) &&
  bool_decide (r_token r = ut_token p) &&
  bool_decide (r_status r = Verified) &&
  bool_decide (r_purpose r = ut_purpose p) = true ↔ redeemable p r.
Proof.
  unfold redeemable, undefined_or.
  rewrite !andb_true_iff, !bool_decide_eq_true.
  destruct (ut_authenticatorId p) as [aid|], (ut_requestId p) as [rid|];
    rewrite ?bool_decide_eq_true;
    (split; [intros ((((? & ?) & ?) & ?) & ?); repeat split; try done;
               intros ? [= <-]; done
            | intros (H1 & H2 & ? & ? & ?); repeat split; eauto]).
Qed.

(** X10. A token is redeemed once.  [_useAuthToken] fails with
    AUTHENTICATION_FAILED, and writes nothing, when the Auth record of
    the email holds no verified request with the token, the purpose and,
    where given, the request id and the authenticator asked for (a pending
    request is not enough).  Otherwise it succeeds, and the stored record
    loses every request that has the id of the redeemed one, and nothing
    else; when the request id was given, redeeming the same token again
    fails. *)
Theorem _useAuthToken_single_use srv p w auth :
  st_auths (storage w) !! getIdFromEmail srv (ut_email p) = Some auth →
  auth_id auth = getIdFromEmail srv (ut_email p) →
  ((∀ r, r ∈ auth_authRequests auth → ¬ redeemable p r) →
     _useAuthToken srv p w = (Err AUTHENTICATION_FAILED, w)) ∧
  ((∃ r, r ∈ auth_authRequests auth ∧ redeemable p r) →
     ∃ r w' auth',
       r ∈ auth_authRequests auth ∧ redeemable p r ∧
       _useAuthToken srv p w = (Ok tt, w') ∧
       only_auths_differ w w' ∧
       stored_auth w' (getIdFromEmail srv (ut_email p)) = Some auth' ∧
       (∀ x, x ∈ auth_authRequests auth' ↔
               x ∈ auth_authRequests auth ∧ r_id x ≠ r_id r) ∧
       (is_Some (ut_requestId p) →
          _useAuthToken srv p w' = (Err AUTHENTICATION_FAILED, w'))).
Proof.
  intros Hstored Hid. split.
  - intros Hnone. unfold _useAuthToken. unfold bind at 1.
    rewrite (_getAuth_stored _ _ _ _ Hstored).
    replace (JS.find _ _) with (@None AuthRequest); [done|].
    symmetry. apply find_none. intros r Hr.
    apply not_true_is_false. intros Hm. apply redeemable_spec in Hm.
    by apply (Hnone r).
  - intros (r0 & Hr0 & Hred0). unfold _useAuthToken at 1. unfold bind at 1.
    rewrite (_getAuth_stored _ _ _ _ Hstored).
    destruct (JS.find _ (auth_authRequests auth)) as [r|] eqn:Hfind.
    2:{ exfalso. rewrite find_none in Hfind. specialize (Hfind r0 Hr0).
        apply redeemable_spec in Hred0. congruence. }
    apply find_some in Hfind as [Hr Hred]. apply redeemable_spec in Hred.
    munfold. eexists r, _, _. split; [done|]. split; [done|].
    split; [reflexivity|]. split; [by repeat split|].
    assert (∀ x, x ∈ JS.filter (λ r1, negb (bool_decide (r_id r1 = r_id r)))
                       (auth_authRequests auth) ↔
                 x ∈ auth_authRequests auth ∧ r_id x ≠ r_id r) as Hfilter.
    { intros x. rewrite elem_of_filter, negb_true_iff, bool_decide_eq_false.
      done. }
    split; [|split].
    + unfold stored_auth. cbn [storage set_storage st_auths].
      cbn [auth_id set_auth_authRequests]. rewrite Hid. apply lookup_insert_eq.
    + apply Hfilter.
    + intros [rid Hrid]. unfold _useAuthToken. unfold bind at 1.
      erewrite _getAuth_stored.
      2:{ cbn [storage set_storage st_auths].
          cbn [auth_id set_auth_authRequests]. rewrite Hid.
          apply lookup_insert_eq. }
      replace (JS.find _ _) with (@None AuthRequest); [done|].
      symmetry. apply find_none. intros x Hx.
      cbn [auth_authRequests set_auth_authRequests] in Hx.
      apply Hfilter in Hx as [_ Hne].
      apply not_true_is_false. intros Hm. apply redeemable_spec in Hm.
      destruct Hm as (_ & Hxid & _). destruct Hred as (_ & Hrid' & _).
      by rewrite (Hxid rid Hrid), (Hrid' rid Hrid) in Hne.
Qed.

(** ** Completing an auth request *)

Lemma find_update_found {A} (p : A → bool) (f : A → A) (l : list A) (x : A) :
  JS.find p l = Some x → p (f x) = true →
  JS.find p (JS.update_found p f l) = Some (f x).
Proof.
  induction l as [|y l IH]; simpl; [done|].
  destruct (p y) eqn:Hy.
  - intros [= ->] Hfx. simpl. by rewrite Hfx.
  - intros Hfind Hfx. simpl. rewrite Hy. by apply IH.
Qed.

Lemma elem_of_update_found_other {A} (p : A → bool) (f : A → A) (l : list A) (x : A) :
  (∀ y, p (f y) = p y) → p x = false →
  x ∈ JS.update_found p f l ↔ x ∈ l.
Proof.
  intros Hf Hx. induction l as [|y l IH]; simpl; [done|].
  destruct (p y) eqn:Hy; rewrite !elem_of_cons; [|by rewrite IH].
  split; intros [->|?]; auto.
  - rewrite Hf in Hx. congruence.
  - congruence.
Qed.

(** What [_useAuthToken] writes when it finds a request. *)
Lemma _useAuthToken_found srv p w auth r :
  st_auths (storage w) !! getIdFromEmail srv (ut_email p) = Some auth →
  r ∈ auth_authRequests auth → redeemable p r →
  ∃ r',
    r' ∈ auth_authRequests auth ∧ redeemable p r' ∧
    _useAuthToken srv p w =
      storage_save
        (set_auth_authRequests
           (JS.filter (λ x, negb (bool_decide (r_id x = r_id r')))
              (auth_authRequests auth)) auth) w.
Proof.
  intros Hstored Hr Hred. unfold _useAuthToken. unfold bind at 1.
  rewrite (_getAuth_stored _ _ _ _ Hstored).
  destruct (JS.find _ (auth_authRequests auth)) as [r'|] eqn:Hfind.
  - apply find_some in Hfind as [Hr' Hred']. apply redeemable_spec in Hred'.
    by exists r'.
  - rewrite find_none in Hfind. specialize (Hfind r Hr).
    apply redeemable_spec in Hred. congruence.
Qed.

Section CompleteAuthRequest.

Context (srv : Server) (p : CompleteAuthRequestParams) (w w1 : World).
Context (auth : Auth) (request : AuthRequest).
Context (authenticators : list Authenticator).
Context (i : nat) (authenticator : Authenticator) (provider : AuthServer).

Hypothesis Hstored :
  st_auths (storage w) !! getIdFromEmail srv (cp_email p) = Some auth.
Hypothesis Hid : auth_id auth = getIdFromEmail srv (cp_email p).
Hypothesis Hrequest :
  JS.find (λ m, bool_decide (r_id m = cp_id p)) (auth_authRequests auth)
    = Some request.
Hypothesis Hauthenticators :
  _getAuthenticators srv auth w = (Ok authenticators, w1).
Hypothesis Hauthenticator :
  JS.find (λ x, bool_decide (a_id x.2 = r_authenticatorId request))
    (imap pair authenticators) = Some (i, authenticator).
Hypothesis Htype : r_type request = a_type authenticator.
Hypothesis Hprovider :
  JS.find (λ prov, supportsType prov (r_type request)) (authServers srv)
    = Some provider.

(** X11. A failed attempt is counted.  When the provider rejects the
    data sent for a request, [completeAuthRequest] fails with the error of
    the provider, and the stored Auth record holds the request with one
    more try and otherwise as it was, in particular not verified; the
    requests with another id are the ones that were there. *)
Theorem completeAuthRequest_failed_attempt e :
  verifyAuthRequest provider authenticator request (cp_data p) = Err e →
  ∃ w' auth',
    completeAuthRequest srv p w = (Err e, w') ∧
    stored_auth w' (getIdFromEmail srv (cp_email p)) = Some auth' ∧
    JS.find (λ m, bool_decide (r_id m = cp_id p)) (auth_authRequests auth')
      = Some (set_r_tries (S (r_tries request)) request) ∧
    (∀ x, r_id x ≠ cp_id p →
       x ∈ auth_authRequests auth' ↔ x ∈ auth_authRequests auth).
Proof.
  intros Hverify. unfold completeAuthRequest. unfold bind at 1.
  rewrite (_getAuth_stored _ _ _ _ Hstored). rewrite Hrequest.
  unfold bind at 1. rewrite Hauthenticators. rewrite Hauthenticator.
  rewrite bool_decide_eq_false_2 by (by intros H; apply H).
  unfold _getAuthServer. rewrite Hprovider.
  munfold. rewrite Hverify. unfold modify.
  eexists _, _. split; [reflexivity|].
  unfold stored_auth. cbn [storage set_storage st_auths add_provider_call].
  cbn [auth_id set_auth_authRequests]. rewrite Hid.
  split; [apply lookup_insert_eq|].
  cbn [auth_authRequests set_auth_authRequests]. split.
  - apply (find_update_found _ (λ r, set_r_tries (S (r_tries r)) r)); [done|].
    cbn [r_id set_r_tries]. by apply find_some in Hrequest as [_ ?].
  - intros x Hx. apply elem_of_update_found_other; [done|].
    by apply bool_decide_eq_false.
Qed.

(** X12. A verified request yields a token.  When the provider accepts
    the data and the request is not there to test an authenticator,
    [completeAuthRequest] succeeds, the stored Auth record holds the
    request as Verified at the current time, the requests with another id
    are the ones that were there, a registered authenticator is stamped
    as last used now, and [_useAuthToken] then redeems the token of the
    request for its purpose. *)
Theorem completeAuthRequest_issues_token :
  verifyAuthRequest provider authenticator request (cp_data p) = Ok tt →
  r_purpose request ≠ TestAuthenticator →
  ∃ resp w' auth',
    completeAuthRequest srv p w = (Ok resp, w') ∧
    stored_auth w' (getIdFromEmail srv (cp_email p)) = Some auth' ∧
    JS.find (λ m, bool_decide (r_id m = cp_id p)) (auth_authRequests auth')
      = Some (set_r_verified (now w1) request) ∧
    (∀ x, r_id x ≠ cp_id p →
       x ∈ auth_authRequests auth' ↔ x ∈ auth_authRequests auth) ∧
    (is_Some (auth_authenticators auth !! i) →
       auth_authenticators auth' !! i
         = Some (set_a_lastUsed (Some (now w1)) authenticator)) ∧
    ∃ w'',
      _useAuthToken srv
        {| ut_email := cp_email p; ut_token := r_token request;
           ut_purpose := r_purpose request; ut_authenticatorId := None;
           ut_requestId := None |} w' = (Ok tt, w'').
Proof.
  intros Hverify Hpurpose. unfold completeAuthRequest. unfold bind at 1.
  rewrite (_getAuth_stored _ _ _ _ Hstored). rewrite Hrequest.
  unfold bind at 1. rewrite Hauthenticators. rewrite Hauthenticator.
  rewrite bool_decide_eq_false_2 by (by intros H; apply H).
  unfold _getAuthServer. rewrite Hprovider.
  rewrite (bool_decide_eq_false_2 (r_purpose request = TestAuthenticator))
    by done.
  munfold. rewrite Hverify. unfold modify.
  eexists _, _, _. split; [reflexivity|].
  unfold stored_auth.
  cbn [storage set_storage st_auths add_provider_call now].
  cbn [auth_id set_auth_authRequests set_auth_authenticators]. rewrite Hid.
  split; [apply lookup_insert_eq|].
  cbn [auth_authRequests auth_authenticators set_auth_authRequests
       set_auth_authenticators].
  assert (JS.find (λ m, bool_decide (r_id m = cp_id p))
            (JS.update_found (λ m, bool_decide (r_id m = cp_id p))
               (set_r_verified (now w1)) (auth_authRequests auth))
          = Some (set_r_verified (now w1) request)) as Hfound.
  { apply find_update_found; [done|].
    cbn [r_id set_r_verified]. by apply find_some in Hrequest as [_ ?]. }
  split; [done|]. split; [|split].
  - intros x Hx. apply elem_of_update_found_other; [done|].
    by apply bool_decide_eq_false.
  - intros [a Ha]. apply list_lookup_insert_eq.
    by apply lookup_lt_Some in Ha.
  - apply find_some in Hfound as [Hin _].
    match goal with |- ∃ _, _useAuthToken _ ?q ?w0 = _ =>
      assert (∃ a, st_auths (storage w0) !! getIdFromEmail srv (ut_email q)
                     = Some a ∧
                   set_r_verified (now w1) request ∈ auth_authRequests a)
        as (a & Ha & Hina)
    end.
    { eexists. split.
      - cbn [ut_email storage set_storage st_auths]. apply lookup_insert_eq.
      - exact Hin. }
    edestruct (_useAuthToken_found srv _ _ a _ Ha Hina) as (r' & _ & _ & Hrun);
      [by repeat split|].
    rewrite Hrun. munfold. by eexists.
Qed.

(** X13. A request that tests an authenticator is kept.  When the
    provider accepts the data of a request with the purpose
    TestAuthenticator, [completeAuthRequest] succeeds; the token is
    redeemed at once, but the record that is saved last is the one read
    before, so the stored Auth record still holds the request, as
    Verified, and the authenticators are not stamped. *)
Theorem completeAuthRequest_test_keeps_request :
  verifyAuthRequest provider authenticator request (cp_data p) = Ok tt →
  r_purpose request = TestAuthenticator →
  ∃ resp w' auth',
    completeAuthRequest srv p w = (Ok resp, w') ∧
    stored_auth w' (getIdFromEmail srv (cp_email p)) = Some auth' ∧
    JS.find (λ m, bool_decide (r_id m = cp_id p)) (auth_authRequests auth')
      = Some (set_r_verified (now w1) request) ∧
    auth_authenticators auth' = auth_authenticators auth.
Proof.
  intros Hverify Hpurpose. unfold completeAuthRequest. unfold bind at 1.
  rewrite (_getAuth_stored _ _ _ _ Hstored). rewrite Hrequest.
  unfold bind at 1. rewrite Hauthenticators. rewrite Hauthenticator.
  rewrite bool_decide_eq_false_2 by (by intros H; apply H).
  unfold _getAuthServer. rewrite Hprovider.
  rewrite (bool_decide_eq_true_2 (r_purpose request = TestAuthenticator))
    by done.
  munfold. rewrite Hverify. unfold modify.
  cbn [auth_id set_auth_authRequests]. rewrite Hid.
  assert (JS.find (λ m, bool_decide (r_id m = cp_id p))
            (JS.update_found (λ m, bool_decide (r_id m = cp_id p))
               (set_r_verified (now w1)) (auth_authRequests auth))
          = Some (set_r_verified (now w1) request)) as Hfound.
  { apply find_update_found; [done|].
    cbn [r_id set_r_verified]. by apply find_some in Hrequest as [_ ?]. }
  pose proof Hfound as Hin. apply find_some in Hin as [Hin _].
  match goal with |- context [_useAuthToken _ ?q ?w0] =>
    assert (∃ a, st_auths (storage w0) !! getIdFromEmail srv (ut_email q)
                   = Some a ∧
                 set_r_verified (now w1) request ∈ auth_authRequests a)
      as (a & Ha & Hina)
  end.
  { eexists. split.
    - cbn [ut_email storage set_storage st_auths]. apply lookup_insert_eq.
    - exact Hin. }
  edestruct (_useAuthToken_found srv _ _ a _ Ha Hina) as (r' & _ & _ & Hrun).
  { repeat split; try done; cbn [ut_authenticatorId ut_requestId];
      by intros ? [= <-]. }
  rewrite Hrun. munfold.
  eexists _, _, _. split; [reflexivity|].
  unfold stored_auth.
  cbn [storage set_storage st_auths add_provider_call now].
  cbn [auth_id set_auth_authRequests]. rewrite Hid.
  split; [apply lookup_insert_eq|]. by split.
Qed.

End CompleteAuthRequest.

(** ** Registering an authenticator *)

Lemma find_app_fresh {A} (p : A → bool) (l : list A) (x : A) :
  (∀ y, y ∈ l → p y = false) → p x = true → JS.find p (l ++ [x]) = Some x.
Proof.
  intros Hl Hx. induction l as [|y l IH]; simpl; [by rewrite Hx|].
  rewrite (Hl y) by left. apply IH. intros z Hz. apply Hl. by right.
Qed.

Lemma update_found_app_fresh {A} (p : A → bool) (f : A → A) (l : list A) (x : A) :
  (∀ y, y ∈ l → p y = false) → p x = true →
  JS.update_found p f (l ++ [x]) = l ++ [f x].
Proof.
  intros Hl Hx. induction l as [|y l IH]; simpl; [by rewrite Hx|].
  rewrite (Hl y) by left. f_equal. apply IH. intros z Hz. apply Hl. by right.
Qed.

(** X14. Registration takes two steps.  For a signed-in caller and a
    type that a provider supports, [startRegisterAuthenticator] appends
    an authenticator with a new id to the Auth record, in the context and
    in the storage; until it is activated, no auth request can select it.
    When no other authenticator of the record has its id,
    [completeRegisterAuthenticator] for this id activates it with the
    state the provider wrote, and leaves the other authenticators as they
    were. *)
Theorem register_then_activate srv p w session account auth provider
    st data data2 st2 out2 :
  let new :=
    {| a_id := uuid_source srv (drawn w); a_type := reg_type p;
       a_status := AuthenticatorRegistering; a_purposes := reg_purposes p;
       a_lastUsed := None; a_device := reg_device p; a_state := "" |} in
  authenticated w session account auth →
  JS.find (λ prov, supportsType prov (reg_type p)) (authServers srv)
    = Some provider →
  initAuthenticator provider new auth (reg_data p) = Ok (st, data) →
  (∀ a, a ∈ auth_authenticators auth → a_id a ≠ a_id new) →
  activateAuthenticator provider (set_a_state st new) data2 = Ok (st2, out2) →
  ∃ w1 w2 auth1 auth2,
    startRegisterAuthenticator srv p w =
      (Ok {| rr_id := a_id new; rr_data := data; rr_type := reg_type p |}, w1) ∧
    authenticated w1 session account auth1 ∧
    stored_auth w1 (auth_id auth) = Some auth1 ∧
    auth_authenticators auth1
      = auth_authenticators auth ++ [set_a_state st new] ∧
    (∀ q, selectable q (set_a_state st new) = false) ∧
    completeRegisterAuthenticator srv
      {| ca_id := a_id new; ca_data := data2 |} w1 =
      (Ok {| cc_id := a_id new; cc_data := out2 |}, w2) ∧
    authenticated w2 session account auth2 ∧
    stored_auth w2 (auth_id auth) = Some auth2 ∧
    auth_authenticators auth2
      = auth_authenticators auth ++ [set_a_active st2 (set_a_state st new)].
Proof.
  intros new Hctx Hprov Hinit Hfresh Hactivate.
  unfold startRegisterAuthenticator. run_requireAuth Hctx. cbn [snd].
  unfold new_Authenticator, _getAuthServer. rewrite Hprov.
  munfold. fold new. rewrite Hinit. unfold modify. cbn [fst snd].
  eexists _, _, _, _. split; [reflexivity|].
  destruct Hctx as (Hs & Ha & Hau).
  split.
  { repeat split; cbn [context set_context set_ctx_auth ctx_session ctx_account
      ctx_auth set_storage add_provider_call set_drawn]; done. }
  split.
  { unfold stored_auth. cbn [storage set_storage st_auths].
    cbn [auth_id set_auth_authenticators]. apply lookup_insert_eq. }
  split; [reflexivity|].
  split.
  { intros q. apply not_true_is_false. intros Hq.
    apply selectable_spec in Hq as (_ & _ & _ & _ & Hstatus). done. }
  assert (∀ y, y ∈ auth_authenticators auth →
            bool_decide (a_id y = a_id new) = false) as Hfresh'.
  { intros y Hy. apply bool_decide_eq_false. by apply Hfresh. }
  unfold completeRegisterAuthenticator. unfold bind at 1.
  erewrite _requireAuth_authenticated.
  2:{ repeat split; cbn [context set_context set_ctx_auth ctx_session
        ctx_account ctx_auth set_storage add_provider_call set_drawn];
        [exact Hs | exact Ha]. }
  cbn [snd ca_id ca_data auth_authenticators set_auth_authenticators].
  rewrite (find_app_fresh _ _ (set_a_state st new) Hfresh')
    by (by apply bool_decide_eq_true).
  unfold _getAuthServer. cbn [a_type set_a_state new]. rewrite Hprov.
  munfold. fold new. rewrite Hactivate. unfold modify. cbn [fst snd].
  split; [reflexivity|].
  split.
  { repeat split; cbn [context set_context set_ctx_auth ctx_session ctx_account
      ctx_auth set_storage add_provider_call set_drawn]; done. }
  split.
  { unfold stored_auth. cbn [storage set_storage st_auths].
    cbn [auth_id set_auth_authenticators]. apply lookup_insert_eq. }
  cbn [auth_authenticators set_auth_authenticators].
  apply update_found_app_fresh; [done | by apply bool_decide_eq_true].
Qed.

(** X15. A registration that cannot be completed changes nothing.
    [completeRegisterAuthenticator] fails with AUTHENTICATION_FAILED, in
    the same world, when the Auth record of the caller has no
    authenticator with the given id; and when the provider refuses to
    activate the authenticator, it fails with the error of the provider,
    and neither the storage nor the context changes, so the authenticator
    keeps its status. *)
Theorem completeRegisterAuthenticator_refused srv p w session account auth :
  authenticated w session account auth →
  ((∀ a, a ∈ auth_authenticators auth → a_id a ≠ ca_id p) →
     completeRegisterAuthenticator srv p w = (Err AUTHENTICATION_FAILED, w)) ∧
  (∀ method provider e,
     JS.find (λ m, bool_decide (a_id m = ca_id p)) (auth_authenticators auth)
       = Some method →
     JS.find (λ prov, supportsType prov (a_type method)) (authServers srv)
       = Some provider →
     activateAuthenticator provider method (ca_data p) = Err e →
     ∃ w', completeRegisterAuthenticator srv p w = (Err e, w') ∧
           storage w' = storage w ∧ context w' = context w).
Proof.
  intros Hctx. split.
  - intros Hnone. unfold completeRegisterAuthenticator.
    run_requireAuth Hctx. cbn [snd].
    replace (JS.find _ _) with (@None Authenticator); [done|].
    symmetry. apply find_none. intros a Ha.
    apply bool_decide_eq_false. by apply Hnone.
  - intros method provider e Hfind Hprov Hactivate.
    unfold completeRegisterAuthenticator.
    run_requireAuth Hctx. cbn [snd]. rewrite Hfind.
    unfold _getAuthServer. rewrite Hprov. munfold. rewrite Hactivate.
    by eexists.
Qed.

(** ** Starting the handshake *)

(** X16. From a device that is not trusted, [initAuth] without a token
    fails with AUTHENTICATION_REQUIRED whether or not the email belongs
    to an account: the answer is the same for a record with an account
    and for one without, and nothing but the log entry is added to what
    reading the record left. *)
Theorem initAuth_untrusted_needs_token srv srp_initialize p w auth w1 :
  _getAuth srv (ia_email p) w = (Ok auth, w1) →
  truthy (device_trusted (ctx_device (context w)) auth) = false →
  truthy_string (ia_verify p) = None →
  initAuth srv srp_initialize p w
    = (Err AUTHENTICATION_REQUIRED, add_log "auth.init" w1).
Proof.
  intros Hget Htrusted Hverify. unfold initAuth. unfold bind at 1.
  rewrite Hget. munfold. unfold modify. cbn [context add_log].
  destruct (_getAuth_effect srv (ia_email p) w) as (auth' & w' & Hget' & Hdiff).
  rewrite Hget in Hget'. injection Hget' as <- <-.
  destruct Hdiff as (-> & _). by rewrite Htrusted, Hverify.
Qed.

Lemma filter_app_fresh {A} (p : A → bool) (l : list A) (x : A) :
  (∀ y, y ∈ l → p y = true) → p x = false → JS.filter p (l ++ [x]) = l.
Proof.
  intros Hl Hx. induction l as [|y l IH]; simpl; [by rewrite Hx|].
  rewrite (Hl y) by left. f_equal. apply IH. intros z Hz. apply Hl. by right.
Qed.

Lemma createSession_keeps_account srv p w acc auth w1 srpState M1 K :
  st_accounts (storage w) !! cs_account p = Some acc →
  _getAuth srv (acc_email acc) w = (Ok auth, w1) →
  JS.find (λ s, bool_decide (srp_id s = cs_srpId p)) (auth_srpSessions auth)
    = Some srpState →
  srp_setA srv srpState (cs_A p) = Ok (M1, K) →
  cs_M p = M1 →
  ∃ session w',
    createSession srv p w = (Ok session, w') ∧
    st_accounts (storage w') !! cs_account p = Some acc.
Proof.
  intros Hacc Hget Hfind HsetA HM.
  destruct (_getAuth_effect srv (acc_email acc) w) as (auth' & w1' & Hget' & Hdiff).
  rewrite Hget in Hget'. injection Hget' as <- <-.
  destruct Hdiff as (_ & _ & _ & _ & _ & _ & Haccs & _).
  unfold createSession.
  unfold bind at 1. unfold storage_get at 1. cbn [table Storable_Account].
  rewrite Hacc. unfold bind at 1. rewrite Hget, Hfind.
  unfold bind at 1. unfold lift at 1. rewrite HsetA. cbn [fst snd].
  unfold equalCT. rewrite bool_decide_eq_true_2 by done. cbn [negb].
  munfold. cbn [context set_drawn storage now drawn].
  destruct (ctx_device (context w1)) as [d|] eqn:Hd; cbn beta iota;
    [destruct (negb _ && cs_addTrustedDevice p) eqn:Hadd|];
    (eexists _, _; split; [reflexivity|];
     cbn [storage set_storage st_accounts add_log set_drawn]; rewrite Haccs;
     destruct (decide (acc_id acc = cs_account p)) as [->|Hne];
     [apply lookup_insert_eq | by rewrite lookup_insert_ne]).
Qed.

(** X17. The handshake that [initAuth] opens is the one that
    [createSession] closes.  From a trusted device, for a record with an
    account, [initAuth] answers with the account id, the key parameters
    and the public value of a new SRP session, which it stores with the
    record.  When no older SRP session has the same id, [createSession]
    for this id with the matching proof then signs the account in, adds
    the session to the record, and takes the SRP session off the record
    again, so that the handshake cannot be closed twice. *)
Theorem initAuth_then_createSession srv srp_initialize p w auth accId acc
    state B A M1 K add :
  let srpId := uuid_source srv (drawn w) in
  st_auths (storage w) !! getIdFromEmail srv (ia_email p) = Some auth →
  auth_id auth = getIdFromEmail srv (ia_email p) →
  truthy (device_trusted (ctx_device (context w)) auth) = true →
  truthy_string (auth_account auth) = Some accId →
  srp_initialize srpId (auth_verifier auth) = Ok (state, B) →
  (∀ s, s ∈ auth_srpSessions auth → srp_id s ≠ srpId) →
  st_accounts (storage w) !! accId = Some acc →
  acc_email acc = ia_email p →
  srp_setA srv {| srp_id := srpId; srp_state := state |} A = Ok (M1, K) →
  ∃ w1 session w2 auth2,
    initAuth srv srp_initialize p w =
      (Ok {| ir_account := accId; ir_keyParams := auth_keyParams auth;
             ir_B := B; ir_srpId := srpId |}, w1) ∧
    createSession srv
      {| cs_account := accId; cs_srpId := srpId; cs_A := A; cs_M := M1;
         cs_addTrustedDevice := add |} w1 = (Ok session, w2) ∧
    s_account session = accId ∧ s_key session = None ∧
    stored_auth w2 (auth_id auth) = Some auth2 ∧
    auth_srpSessions auth2 = auth_srpSessions auth ∧
    auth_sessions auth2
      = auth_sessions auth ++ [session_info (set_s_key (Some K) session)] ∧
    createSession srv
      {| cs_account := accId; cs_srpId := srpId; cs_A := A; cs_M := M1;
         cs_addTrustedDevice := add |} w2
      = (Err INVALID_CREDENTIALS, add_log "login" w2).
Proof.
  intros srpId Hstored Hid Htrusted Haccount Hsrp Hfresh Hacc Hemail HsetA.
  unfold initAuth. unfold bind at 1.
  rewrite (_getAuth_stored _ _ _ _ Hstored).
  munfold. unfold modify. cbn [context add_log]. rewrite Htrusted, Haccount.
  cbn [drawn add_log]. fold srpId. rewrite Hsrp. cbn [fst snd].
  set (auth1 := set_auth_srpSessions _ auth).
  match goal with |- ∃ w1 _ _ _, (_, ?w0) = _ ∧ _ => set (w1 := w0) end.
  assert (st_auths (storage w1) !! getIdFromEmail srv (acc_email acc)
          = Some auth1) as Hstored1.
  { unfold w1. cbn [storage set_storage st_auths]. rewrite Hemail.
    unfold auth1 at 1. cbn [auth_id set_auth_srpSessions]. rewrite Hid.
    apply lookup_insert_eq. }
  assert (∀ y, y ∈ auth_srpSessions auth →
            bool_decide (srp_id y = srpId) = false) as Hfresh'.
  { intros y Hy. apply bool_decide_eq_false. by apply Hfresh. }
  set (q := {| cs_account := accId; cs_srpId := srpId; cs_A := A; cs_M := M1;
               cs_addTrustedDevice := add |}).
  destruct (createSession_success srv q w1 acc auth1 w1
              {| srp_id := srpId; srp_state := state |} M1 K)
    as (session & w2 & auth2 & Hrun & Hkey & _ & Haccid & _ & Hst2 & Hsrp2 & Hsess2).
  { exact Hacc. }
  { by apply _getAuth_stored. }
  { cbn [cs_srpId q auth_srpSessions set_auth_srpSessions auth1].
    apply find_app_fresh; [done | by apply bool_decide_eq_true]. }
  { exact HsetA. }
  { done. }
  exists w1, session, w2, auth2. split; [done|]. split; [done|].
  split; [done|]. split; [done|].
  assert (auth_srpSessions auth2 = auth_srpSessions auth) as Hsrp2'.
  { rewrite Hsrp2. cbn [auth_srpSessions set_auth_srpSessions auth1 srp_id].
    apply filter_app_fresh.
    - intros y Hy. by rewrite Hfresh'.
    - by rewrite bool_decide_eq_true_2. }
  split; [done|]. split; [done|]. split; [done|].
  destruct (createSession_keeps_account srv q w1 acc auth1 w1
              {| srp_id := srpId; srp_state := state |} M1 K)
    as (session' & w2' & Hrun' & Hacc2).
  { exact Hacc. }
  { by apply _getAuth_stored. }
  { cbn [cs_srpId q auth_srpSessions set_auth_srpSessions auth1].
    apply find_app_fresh; [done | by apply bool_decide_eq_true]. }
  { exact HsetA. }
  { done. }
  rewrite Hrun in Hrun'. injection Hrun' as <- <-.
  apply (createSession_no_handshake srv q w2 acc auth2 w2).
  - exact Hacc2.
  - apply _getAuth_stored. rewrite Hemail, <- Hid. exact Hst2.
  - rewrite Hsrp2'. apply find_none. intros y Hy. by apply Hfresh'.
Qed.

Lemma _useAuthToken_none srv p w auth :
  st_auths (storage w) !! getIdFromEmail srv (ut_email p) = Some auth →
  (∀ r, r ∈ auth_authRequests auth → ¬ redeemable p r) →
  _useAuthToken srv p w = (Err AUTHENTICATION_FAILED, w).
Proof.
  intros Hstored Hnone. unfold _useAuthToken. unfold bind at 1.
  rewrite (_getAuth_stored _ _ _ _ Hstored).
  replace (JS.find _ _) with (@None AuthRequest); [done|].
  symmetry. apply find_none. intros r Hr.
  apply not_true_is_false. intros Hm. apply redeemable_spec in Hm.
  by apply (Hnone r).
Qed.

(** X18. [initAuth] with a token, from a device that is not trusted.
    Without a verified Login request for the token, it fails with
    AUTHENTICATION_FAILED, whether or not the email belongs to an
    account.  With one, and no account, it fails with NOT_FOUND and the
    request is gone from the stored record.  With one, and an account, it
    succeeds; the record that it saves with the new SRP session is the
    one read before the token was redeemed, so the stored record holds
    the requests it held before. *)
Theorem initAuth_with_token srv srp_initialize p w auth verify :
  let q := {| ut_email := ia_email p; ut_token := verify; ut_purpose := Login;
              ut_authenticatorId := None; ut_requestId := None |} in
  st_auths (storage w) !! getIdFromEmail srv (ia_email p) = Some auth →
  auth_id auth = getIdFromEmail srv (ia_email p) →
  truthy (device_trusted (ctx_device (context w)) auth) = false →
  truthy_string (ia_verify p) = Some verify →
  ((∀ r, r ∈ auth_authRequests auth → ¬ redeemable q r) →
     initAuth srv srp_initialize p w
       = (Err AUTHENTICATION_FAILED, add_log "auth.init" w)) ∧
  ((∃ r, r ∈ auth_authRequests auth ∧ redeemable q r) →
     truthy_string (auth_account auth) = None →
     ∃ r w' auth',
       r ∈ auth_authRequests auth ∧ redeemable q r ∧
       initAuth srv srp_initialize p w = (Err NOT_FOUND, w') ∧
       stored_auth w' (auth_id auth) = Some auth' ∧
       ∀ x, x ∈ auth_authRequests auth' ↔
              x ∈ auth_authRequests auth ∧ r_id x ≠ r_id r) ∧
  (∀ accId state B,
     (∃ r, r ∈ auth_authRequests auth ∧ redeemable q r) →
     truthy_string (auth_account auth) = Some accId →
     srp_initialize (uuid_source srv (drawn w)) (auth_verifier auth)
       = Ok (state, B) →
     ∃ resp w' auth',
       initAuth srv srp_initialize p w = (Ok resp, w') ∧
       ir_account resp = accId ∧
       stored_auth w' (auth_id auth) = Some auth' ∧
       auth_authRequests auth' = auth_authRequests auth).
Proof.
  intros q Hstored Hid Htrusted Hverify.
  assert (initAuth srv srp_initialize p w =
    (_useAuthToken srv q ;;;
     match truthy_string (auth_account auth) with
     | None => throw NOT_FOUND
     | Some account =>
         srpId <- uuid srv ;;
         srp <- lift (srp_initialize srpId (auth_verifier auth)) ;;
         let srpState := {| srp_id := srpId; srp_state := srp.1 |} in
         let auth :=
           set_auth_srpSessions (auth_srpSessions auth ++ [srpState]) auth in
         storage_save auth ;;;
         ret {| ir_account := account; ir_keyParams := auth_keyParams auth;
                ir_B := srp.2; ir_srpId := srpId |}
     end) (add_log "auth.init" w)) as ->.
  { unfold initAuth. unfold bind at 1.
    rewrite (_getAuth_stored _ _ _ _ Hstored).
    unfold bind at 1. unfold log at 1, modify at 1.
    unfold bind at 1. unfold get_device at 1. cbn [context add_log].
    by rewrite Htrusted, Hverify. }
  assert (st_auths (storage (add_log "auth.init" w))
            !! getIdFromEmail srv (ut_email q) = Some auth) as Hstored' by done.
  split; [|split].
  - intros Hnone. unfold bind at 1.
    by rewrite (_useAuthToken_none _ _ _ _ Hstored' Hnone).
  - intros (r0 & Hr0 & Hred0) Haccount.
    destruct (_useAuthToken_found _ _ _ _ _ Hstored' Hr0 Hred0)
      as (r & Hr & Hred & Hrun).
    unfold bind at 1. rewrite Hrun, Haccount. munfold.
    eexists r, _, _. split; [done|]. split; [done|]. split; [reflexivity|].
    unfold stored_auth. cbn [storage set_storage st_auths add_log].
    cbn [auth_id set_auth_authRequests]. split; [apply lookup_insert_eq|].
    intros x. cbn [auth_authRequests set_auth_authRequests].
    by rewrite elem_of_filter, negb_true_iff, bool_decide_eq_false.
  - intros accId state B (r0 & Hr0 & Hred0) Haccount Hsrp.
    destruct (_useAuthToken_found _ _ _ _ _ Hstored' Hr0 Hred0)
      as (r & Hr & Hred & Hrun).
    unfold bind at 1. rewrite Hrun, Haccount. munfold. unfold modify.
    cbn [drawn set_storage add_log]. rewrite Hsrp.
    eexists _, _, _. split; [reflexivity|]. split; [reflexivity|].
    unfold stored_auth. cbn [storage set_storage st_auths add_log set_drawn].
    cbn [auth_id set_auth_srpSessions set_auth_authRequests].
    split; [apply lookup_insert_eq|]. reflexivity.
Qed.

(** ** The metadata of an organization *)

Lemma updateMetaData_vaults (org : Org) (l : list VaultInfo) w :
  ∃ rs w',
    map_M (λ vaultInfo : VaultInfo,
      try_catch
        (vault <- storage_get Vault (vi_id vaultInfo) ;;
         let vault :=
           {| v_id := v_id vault; v_name := vi_name vaultInfo;
              v_owner := v_owner vault;
              v_org := Some {| oi_id := org_id org; oi_name := org_name org;
                               oi_revision := Some (org_revision org) |};
              v_revision := v_revision vault;
              v_keyParams := v_keyParams vault;
              v_encryptionParams := v_encryptionParams vault;
              v_accessors := v_accessors vault;
              v_encryptedData := v_encryptedData vault;
              v_updated := v_updated vault |} in
         storage_save vault ;;;
         ret (set_vi_revision (Some (v_revision vault)) vaultInfo, false))
        (λ e, if bool_decide (e ≠ NOT_FOUND) then throw e
              else ret (vaultInfo, true))) l w = (Ok rs, w') ∧
    context w' = context w ∧ now w' = now w ∧ drawn w' = drawn w ∧
    provider_calls w' = provider_calls w ∧ outbox w' = outbox w ∧
    logs w' = logs w ∧
    st_accounts (storage w') = st_accounts (storage w) ∧
    st_auths (storage w') = st_auths (storage w) ∧
    st_sessions (storage w') = st_sessions (storage w) ∧
    st_orgs (storage w') = st_orgs (storage w) ∧
    (∀ k, is_Some (st_vaults (storage w) !! k) →
          is_Some (st_vaults (storage w') !! k)) ∧
    vi_id <$> (fst <$> rs) = vi_id <$> l ∧
    (∀ r, r ∈ rs → r.2 = false → is_Some (st_vaults (storage w') !! vi_id r.1)).
Proof.
  revert w. induction l as [|v l IH]; intros w.
  - exists [], w. repeat split; try done. intros r Hr. by apply elem_of_nil in Hr.
  - simpl map_M. unfold bind at 1. unfold try_catch at 1.
    unfold bind at 1. unfold storage_get at 1. cbn [table Storable_Vault].
    destruct (st_vaults (storage w) !! vi_id v) as [vault|] eqn:Hv.
    + unfold bind at 1. unfold storage_save at 1, modify at 1.
      cbn [table set_table id_of Storable_Vault v_id]. unfold ret at 1.
      cbv beta iota zeta. unfold bind at 1.
      match goal with |- context [map_M ?f l ?w0] =>
        destruct (IH w0) as (rs & w' & Hrun & Hc & Hn & Hd & Hp & Hob & Hl &
                             Ha & Hau & Hs & Ho & Hmono & Hids & Hkept);
        assert (map_M f l w0 = (Ok rs, w')) as -> by exact Hrun
      end.
      unfold ret.
      eexists _, w'. split; [reflexivity|].
      repeat split; try done.
      * intros k Hk. apply Hmono. cbn [storage set_storage st_vaults].
        destruct (decide (k = v_id vault)) as [->|Hne].
        -- rewrite lookup_insert_eq. by eexists.
        -- by rewrite lookup_insert_ne.
      * rewrite !fmap_cons. cbn [fst vi_id set_vi_revision]. by rewrite Hids.
      * intros r [->|Hr]%elem_of_cons Hflag; [|by apply Hkept].
        cbn [fst vi_id set_vi_revision]. apply Hmono.
        cbn [storage set_storage st_vaults].
        destruct (decide (vi_id v = v_id vault)) as [->|Hne].
        -- rewrite lookup_insert_eq. by eexists.
        -- rewrite lookup_insert_ne by done. by rewrite Hv.
    + rewrite bool_decide_eq_false_2 by (intros H; by apply H).
      unfold ret at 1. cbv beta iota zeta. unfold bind at 1.
      destruct (IH w) as (rs & w' & Hrun & Hc & Hn & Hd & Hp & Hob & Hl &
                          Ha & Hau & Hs & Ho & Hmono & Hids & Hkept).
      match goal with |- context [map_M ?f l ?w0] =>
        assert (map_M f l w0 = (Ok rs, w')) as -> by exact Hrun
      end.
      unfold ret.
      eexists _, w'. split; [reflexivity|].
      repeat split; try done.
      * rewrite !fmap_cons. cbn [fst]. by rewrite Hids.
      * intros r [->|Hr]%elem_of_cons Hflag; [done | by apply Hkept].
Qed.

Lemma updateMetaData_members (org : Org) (l : list OrgMember) w :
  ∃ rs w',
    map_M (λ member : OrgMember,
      try_catch
        (acc <- storage_get Account (m_id member) ;;
         let acc :=
           set_acc_orgs
             (JS.filter (λ o, bool_decide (oi_id o ≠ org_id org)) (acc_orgs acc)
              ++ [{| oi_id := org_id org; oi_name := org_name org;
                     oi_revision := Some (org_revision org) |}]) acc in
         storage_save acc ;;;
         ret (set_m_name (acc_name acc) member, false))
        (λ e, if bool_decide (e ≠ NOT_FOUND) then throw e
              else ret (member, true))) l w = (Ok rs, w') ∧
    context w' = context w ∧ now w' = now w ∧ drawn w' = drawn w ∧
    provider_calls w' = provider_calls w ∧ outbox w' = outbox w ∧
    logs w' = logs w ∧
    st_vaults (storage w') = st_vaults (storage w) ∧
    st_auths (storage w') = st_auths (storage w) ∧
    st_sessions (storage w') = st_sessions (storage w) ∧
    st_orgs (storage w') = st_orgs (storage w) ∧
    (∀ k, is_Some (st_accounts (storage w) !! k) →
          is_Some (st_accounts (storage w') !! k)) ∧
    Forall2 (λ m r, m_id r.1 = m_id m ∧ m_role r.1 = m_role m ∧
                    m_email r.1 = m_email m ∧ m_vaults r.1 = m_vaults m) l rs ∧
    (∀ r, r ∈ rs → r.2 = false → is_Some (st_accounts (storage w') !! m_id r.1)).
Proof.
  revert w. induction l as [|m l IH]; intros w.
  - exists [], w. repeat split; try done. intros r Hr. by apply elem_of_nil in Hr.
  - simpl map_M. unfold bind at 1. unfold try_catch at 1.
    unfold bind at 1. unfold storage_get at 1. cbn [table Storable_Account].
    destruct (st_accounts (storage w) !! m_id m) as [acc|] eqn:Hm.
    + unfold bind at 1. unfold storage_save at 1, modify at 1.
      cbn [table set_table id_of Storable_Account acc_id set_acc_orgs].
      unfold ret at 1. cbv beta iota zeta. unfold bind at 1.
      match goal with |- context [map_M ?f l ?w0] =>
        destruct (IH w0) as (rs & w' & Hrun & Hc & Hn & Hd & Hp & Hob & Hl &
                             Hv & Hau & Hs & Ho & Hmono & Hids & Hkept);
        assert (map_M f l w0 = (Ok rs, w')) as -> by exact Hrun
      end.
      unfold ret.
      eexists _, w'. split; [reflexivity|].
      repeat split; try done.
      * intros k Hk. apply Hmono. cbn [storage set_storage st_accounts].
        destruct (decide (k = acc_id acc)) as [->|Hne].
        -- rewrite lookup_insert_eq. by eexists.
        -- by rewrite lookup_insert_ne.
      * by constructor.
      * intros r [->|Hr]%elem_of_cons Hflag; [|by apply Hkept].
        cbn [fst m_id set_m_name]. apply Hmono.
        cbn [storage set_storage st_accounts].
        destruct (decide (m_id m = acc_id acc)) as [->|Hne].
        -- rewrite lookup_insert_eq. by eexists.
        -- rewrite lookup_insert_ne by done. by rewrite Hm.
    + rewrite bool_decide_eq_false_2 by (intros H; by apply H).
      unfold ret at 1. cbv beta iota zeta. unfold bind at 1.
      destruct (IH w) as (rs & w' & Hrun & Hc & Hn & Hd & Hp & Hob & Hl &
                          Hv & Hau & Hs & Ho & Hmono & Hids & Hkept).
      match goal with |- context [map_M ?f l ?w0] =>
        assert (map_M f l w0 = (Ok rs, w')) as -> by exact Hrun
      end.
      unfold ret.
      eexists _, w'. split; [reflexivity|].
      repeat split; try done.
      * by constructor.
      * intros r [->|Hr]%elem_of_cons Hflag; [done | by apply Hkept].
Qed.

Lemma kept_not_flagged {A} (key : A → string) (rs : list (A * bool)) (x : A) :
  x ∈ JS.filter
        (λ v, bool_decide
                (key v ∉ (list_to_set (key <$> (fst <$> JS.filter snd rs))
                            : gset string)))
        (fst <$> rs) →
  ∃ r, r ∈ rs ∧ r.1 = x ∧ r.2 = false.
Proof.
  intros [Hx Hkeep]%elem_of_filter. apply bool_decide_eq_true in Hkeep.
  apply list_elem_of_fmap in Hx as (r & -> & Hr).
  exists r. split; [done|]. split; [done|].
  destruct (r.2) eqn:Hflag; [|done]. exfalso. apply Hkeep.
  apply elem_of_list_to_set. apply list_elem_of_fmap_2.
  apply list_elem_of_fmap_2. by apply elem_of_filter.
Qed.

(** What [updateMetaData] keeps and what it renews. *)
Lemma updateMetaData_spec srv org w :
  ∃ org' w',
    updateMetaData srv org w = (Ok org', w') ∧
    org_id org' = org_id org ∧ org_name org' = org_name org ∧
    org_owner org' = org_owner org ∧ org_groups org' = org_groups org ∧
    org_invites org' = org_invites org ∧
    org_publicKey org' = org_publicKey org ∧
    org_keyParams org' = org_keyParams org ∧
    org_encryptionParams org' = org_encryptionParams org ∧
    org_encryptedData org' = org_encryptedData org ∧
    org_signingParams org' = org_signingParams org ∧
    org_accessors org' = org_accessors org ∧
    org_minMemberUpdated org' = org_minMemberUpdated org ∧
    org_revision org' = uuid_source srv (drawn w) ∧
    org_updated org' = now w ∧
    (∀ v, v ∈ org_vaults org' →
       vi_id v ∈ vi_id <$> org_vaults org ∧
       is_Some (st_vaults (storage w') !! vi_id v)) ∧
    (∀ m, m ∈ org_members org' →
       (∃ m0, m0 ∈ org_members org ∧ m_id m = m_id m0 ∧ m_role m = m_role m0) ∧
       is_Some (st_accounts (storage w') !! m_id m)) ∧
    st_orgs (storage w') = st_orgs (storage w) ∧
    st_auths (storage w') = st_auths (storage w) ∧
    st_sessions (storage w') = st_sessions (storage w) ∧
    context w' = context w.
Proof.
  unfold updateMetaData. unfold bind at 1. unfold uuid at 1.
  unfold bind at 1. unfold date_now at 1. cbv beta iota zeta.
  unfold bind at 1.
  match goal with |- context [map_M ?f (org_vaults ?o) ?w0] =>
    destruct (updateMetaData_vaults o (org_vaults o) w0)
      as (vs & w1 & Hrun1 & Hc1 & _ & _ & _ & _ & _ & Ha1 & Hau1 & Hs1 & Ho1 &
          _ & Hids1 & Hkept1);
    assert (map_M f (org_vaults o) w0 = (Ok vs, w1)) as -> by exact Hrun1
  end.
  unfold bind at 1.
  match goal with |- context [map_M ?f (org_members ?o) ?w0] =>
    destruct (updateMetaData_members o (org_members o) w0)
      as (ms & w2 & Hrun2 & Hc2 & _ & _ & _ & _ & _ & Hv2 & Hau2 & Hs2 & Ho2 &
          _ & Hids2 & Hkept2);
    assert (map_M f (org_members o) w0 = (Ok ms, w2)) as -> by exact Hrun2
  end.
  unfold ret. eexists _, w2. split; [reflexivity|].
  cbn [org_id org_name org_owner org_groups org_invites org_revision
       org_publicKey org_keyParams org_encryptionParams org_encryptedData
       org_signingParams org_accessors org_minMemberUpdated
       org_updated org_vaults org_members set_org_members set_org_vaults
       set_org_revision] in *.
  cbn [now set_drawn] in *.
  repeat split; try done.
  - apply kept_not_flagged in H as (r & Hr & <- & _).
    rewrite <- Hids1. by do 2 apply list_elem_of_fmap_2.
  - apply kept_not_flagged in H as (r & Hr & <- & Hflag).
    rewrite Hv2. by apply Hkept1.
  - apply kept_not_flagged in H as (r & Hr & <- & _).
    apply list_elem_of_lookup in Hr as [i Hi].
    destruct (Forall2_lookup_r _ _ _ _ _ Hids2 Hi) as (m0 & Hm0 & Hid & Hrole & _).
    exists m0. split; [by eapply list_elem_of_lookup_2 | done].
  - apply kept_not_flagged in H as (r & Hr & <- & Hflag). by apply Hkept2.
  - by rewrite Ho2, Ho1.
  - by rewrite Hau2, Hau1.
  - by rewrite Hs2, Hs1.
  - by rewrite Hc2, Hc1.
Qed.

(** X19. [updateMetaData] always succeeds and leaves no dangling
    reference.  It gives the organization a new revision and the current
    time, and keeps its id, name, owner, groups and invites; every vault
    that the result lists was listed before and is in the storage, and
    every member that it lists was a member before, with the same role,
    and has an account in the storage.  Organizations, Auth records,
    sessions and the context are not written. *)
Theorem updateMetaData_no_dangling srv org w :
  ∃ org' w',
    updateMetaData srv org w = (Ok org', w') ∧
    org_id org' = org_id org ∧ org_name org' = org_name org ∧
    org_owner org' = org_owner org ∧ org_groups org' = org_groups org ∧
    org_invites org' = org_invites org ∧
    org_revision org' = uuid_source srv (drawn w) ∧
    org_updated org' = now w ∧
    (∀ v, v ∈ org_vaults org' →
       vi_id v ∈ vi_id <$> org_vaults org ∧
       is_Some (st_vaults (storage w') !! vi_id v)) ∧
    (∀ m, m ∈ org_members org' →
       (∃ m0, m0 ∈ org_members org ∧ m_id m = m_id m0 ∧ m_role m = m_role m0) ∧
       is_Some (st_accounts (storage w') !! m_id m)) ∧
    st_orgs (storage w') = st_orgs (storage w) ∧
    st_auths (storage w') = st_auths (storage w) ∧
    st_sessions (storage w') = st_sessions (storage w) ∧
    context w' = context w.
Proof.
  destruct (updateMetaData_spec srv org w)
    as (org' & w' & Hrun & Hid & Hname & Howner & Hgroups & Hinvites & _ & _ &
        _ & _ & _ & _ & _ & Hrev & Hupd & Hvaults & Hmembers & Hrest).
  by exists org', w'.
Qed.

(** ** Updating an organization *)

Lemma filter_nil {A} (p : A → bool) (l : list A) :
  JS.filter p l = [] ↔ ∀ x, x ∈ l → p x = false.
Proof.
  split.
  - intros Hnil x Hx. apply not_true_is_false. intros Hp.
    assert (x ∈ JS.filter p l) as Hin by (by apply elem_of_filter).
    rewrite Hnil in Hin. by apply elem_of_nil in Hin.
  - intros Hall. destruct (JS.filter p l) as [|x l'] eqn:Hf; [done|].
    assert (x ∈ JS.filter p l) as Hin by (rewrite Hf; left).
    apply elem_of_filter in Hin as [Hx Hp]. rewrite (Hall x Hx) in Hp. done.
Qed.

Lemma some_false {A} (p : A → bool) (l : list A) :
  JS.some p l = false ↔ ∀ x, x ∈ l → p x = false.
Proof.
  split.
  - intros Hsome x Hx. apply not_true_is_false. intros Hp.
    assert (JS.some p l = true) by (apply some_exists; by exists x).
    congruence.
  - intros Hall. apply not_true_is_false. intros Hsome.
    apply some_exists in Hsome as (x & Hx & Hp). rewrite (Hall x Hx) in Hp. done.
Qed.

(** X20. What an accepted update of an organization went through.  When
    [updateOrg] succeeds, the provisioning of the caller has an entry for
    the organization that is not Frozen, the update was based on the
    stored revision, the caller is the owner or an admin of the
    organization, minMemberUpdated did not go back, and the members and
    groups are within their quotas, where -1 stands for no limit.  For a
    caller who is not an owner, moreover, the update has exactly the
    members the organization had, each with the role it had, and exactly
    its invites. *)
Theorem updateOrg_accepted srv w session account auth org p org' w' :
  authenticated w session account auth →
  st_orgs (storage w) !! org_id p = Some org →
  updateOrg srv p w = (Ok org', w') →
  ∃ op,
    JS.find (λ o, bool_decide (op_orgId o = org_id p))
      (prov_orgs (getProvisioning srv auth)) = Some op ∧
    op_status op ≠ ProvFrozen ∧
    org_revision p = org_revision org ∧
    (org_owner org = acc_id account ∨ isOwner org (acc_id account) = true ∨
     isAdmin org (acc_id account) = true) ∧
    org_minMemberUpdated org ≤ org_minMemberUpdated p ∧
    (op_quota_members op = -1 ∨
     Z.of_nat (length (org_members p)) ≤ op_quota_members op) ∧
    (op_quota_groups op = -1 ∨
     Z.of_nat (length (org_groups p)) ≤ op_quota_groups op) ∧
    (org_owner org ≠ acc_id account → isOwner org (acc_id account) = false →
       (∀ m, m ∈ org_members p →
          ∃ m0, getMember org (m_id m) = Some m0 ∧ m_role m0 = m_role m) ∧
       (∀ m0, m0 ∈ org_members org →
          ∃ m, m ∈ org_members p ∧ m_id m = m_id m0) ∧
       (∀ i, i ∈ org_invites p → is_Some (getInvite org (inv_id i))) ∧
       (∀ i0, i0 ∈ org_invites org →
          ∃ i, i ∈ org_invites p ∧ inv_id i = inv_id i0)).
Proof.
  intros Hctx Horg. run_updateOrg Hctx Horg.
  destruct (JS.find _ (prov_orgs _)) as [op|] eqn:Hprov; [|done].
  destruct (bool_decide (op_status op = ProvFrozen)) eqn:Hfrozen; [done|].
  destruct (bool_decide (org_revision p ≠ org_revision org)) eqn:Hrev; [done|].
  destruct (negb _) eqn:Hadmin; [done|].
  destruct (org_minMemberUpdated p <? org_minMemberUpdated org) eqn:Hmin; [done|].
  destruct (negb _ && _) eqn:Howner; [done|].
  destruct (bool_decide (op_quota_members op ≠ -1) && _) eqn:Hqm; [done|].
  destruct (bool_decide (op_quota_groups op ≠ -1) && _) eqn:Hqg; [done|].
  intros _. exists op. split; [done|].
  apply bool_decide_eq_false in Hfrozen, Hrev.
  split; [done|]. split; [by apply dec_stable|].
  split.
  { apply negb_false_iff in Hadmin.
    rewrite !orb_true_iff, bool_decide_eq_true in Hadmin. tauto. }
  split; [by apply Z.ltb_ge|].
  split.
  { apply andb_false_iff in Hqm as [Hq|Hq].
    - left. apply bool_decide_eq_false in Hq. by apply dec_stable.
    - right. rewrite Z.gtb_ltb in Hq. by apply Z.ltb_ge in Hq. }
  split.
  { apply andb_false_iff in Hqg as [Hq|Hq].
    - left. apply bool_decide_eq_false in Hq. by apply dec_stable.
    - right. rewrite Z.gtb_ltb in Hq. by apply Z.ltb_ge in Hq. }
  intros Hnot_owner Hnot_isOwner.
  rewrite Hnot_isOwner, (bool_decide_eq_false_2 _ Hnot_owner) in Howner.
  cbn [orb negb andb] in Howner.
  rewrite !orb_false_iff, !negb_false_iff, !bool_decide_eq_true in Howner.
  destruct Howner as ((((Hadded & Hremoved) & Hinvited) & Huninvited) & Hroles).
  rewrite filter_nil in Hadded. rewrite filter_nil in Hremoved.
  rewrite filter_nil in Hinvited. rewrite filter_nil in Huninvited.
  rewrite some_false in Hroles.
  split; [|split; [|split]].
  - intros m Hm. specialize (Hroles m Hm).
    destruct (getMember org (m_id m)) as [m0|]; [|done].
    exists m0. split; [done|]. apply bool_decide_eq_false in Hroles.
    by apply dec_stable.
  - intros m0 Hm0. specialize (Hremoved m0 Hm0).
    apply negb_false_iff, some_exists in Hremoved as (m & Hm & Heq).
    apply bool_decide_eq_true in Heq. by exists m.
  - intros i Hi. specialize (Hinvited i Hi).
    apply negb_false_iff in Hinvited. by apply bool_decide_eq_true in Hinvited.
  - intros i0 Hi0. specialize (Huninvited i0 Hi0).
    apply negb_false_iff, some_exists in Huninvited as (i & Hi & Heq).
    apply bool_decide_eq_true in Heq. by exists i.
Qed.

(** X21. What an accepted update of an organization can change.  The
    organization that a successful [updateOrg] returns is the one it
    stored.  It has the id and the owner of the stored organization,
    whoever sent the update, and the groups of the update; its name, keys,
    encrypted data, accessors, invites and minMemberUpdated are those of
    the update when the caller is an owner, and those of the stored
    organization otherwise.  Its members and vaults are among those that
    the update lists, a member with the role that the update gives it. *)
Theorem updateOrg_result srv w session account auth org p org' w' :
  authenticated w session account auth →
  st_orgs (storage w) !! org_id p = Some org →
  updateOrg srv p w = (Ok org', w') →
  let is_owner :=
    bool_decide (org_owner org = acc_id account) ||
    isOwner org (acc_id account) in
  let src := if is_owner then p else org in
  st_orgs (storage w') !! org_id org = Some org' ∧
  org_id org' = org_id org ∧ org_owner org' = org_owner org ∧
  org_groups org' = org_groups p ∧
  org_name org' = org_name src ∧ org_publicKey org' = org_publicKey src ∧
  org_keyParams org' = org_keyParams src ∧
  org_encryptionParams org' = org_encryptionParams src ∧
  org_encryptedData org' = org_encryptedData src ∧
  org_signingParams org' = org_signingParams src ∧
  org_accessors org' = org_accessors src ∧
  org_invites org' = org_invites src ∧
  org_minMemberUpdated org' = org_minMemberUpdated src ∧
  (∀ m, m ∈ org_members org' →
     ∃ m0, m0 ∈ org_members p ∧ m_id m = m_id m0 ∧ m_role m = m_role m0) ∧
  (∀ v, v ∈ org_vaults org' → vi_id v ∈ vi_id <$> org_vaults p).
Proof.
  intros Hctx Horg Hrun is_owner src. revert Hrun. run_updateOrg Hctx Horg.
  destruct (JS.find _ (prov_orgs _)) as [op|] eqn:Hprov; [|done].
  destruct (bool_decide (op_status op = ProvFrozen)) eqn:Hfrozen; [done|].
  destruct (bool_decide (org_revision p ≠ org_revision org)) eqn:Hrev; [done|].
  destruct (negb _) eqn:Hadmin; [done|].
  destruct (org_minMemberUpdated p <? org_minMemberUpdated org) eqn:Hmin; [done|].
  destruct (negb _ && _) eqn:Howner; [done|].
  destruct (bool_decide (op_quota_members op ≠ -1) && _) eqn:Hqm; [done|].
  destruct (bool_decide (op_quota_groups op ≠ -1) && _) eqn:Hqg; [done|].
  clear Hadmin Howner Hqm Hqg.
  unfold bind at 1. destruct (map_M _ _ w) as [[invited|e] w1]; [|done].
  unfold bind at 1. destruct (map_M _ _ w1) as [[uninvited|e] w2]; [|done].
  unfold bind at 1. destruct (map_M _ _ w2) as [[removed|e] w3]; [|done].
  unfold bind at 1.
  match goal with |- context [updateMetaData srv ?o ?w0] =>
    destruct (updateMetaData_spec srv o w0)
      as (org1 & w4 & -> & Hid & Hname & Hown & Hgroups & Hinvites & Hpk & Hkp &
          Hep & Hed & Hsp & Hac & Hmm & _ & _ & Hvaults & Hmembers & _)
  end.
  unfold bind at 1. destruct (for_each _ _ w4) as [[[]|e] w5]; [|done].
  unfold bind at 1. destruct (Promise_all _ w5) as [[[]|e] w6]; [|done].
  munfold. unfold modify. intros [= <- <-].
  cbn [storage set_storage st_orgs add_log]. rewrite Hid.
  split; [destruct (_ || _); apply lookup_insert_eq|].
  rewrite Hname, Hown, Hgroups, Hinvites, Hpk, Hkp, Hep, Hed, Hsp, Hac, Hmm.
  unfold src, is_owner.
  destruct (_ || _); cbn [org_id org_name org_owner org_groups org_invites
    org_publicKey org_keyParams org_encryptionParams org_encryptedData
    org_signingParams org_accessors org_minMemberUpdated org_members
    org_vaults] in *;
    (repeat (split; [reflexivity|])); (split; [|intros v Hv; by apply Hvaults]);
    intros m Hm; by apply Hmembers.
Qed.

(** ** Updating an account *)

(** Renaming a member in its organizations leaves the context alone. *)
Lemma rename_in_orgs_context srv (accId name : string) (l : list OrgInfo) w r w' :
  for_each l (λ o,
    org <- storage_get Org (oi_id o) ;;
    WHEN (negb (isMember org accId)) THROW SERVER_ERROR ;;
    let org :=
      set_org_members
        (JS.update_found (λ m, bool_decide (m_id m = accId))
           (set_m_name name) (org_members org)) org in
    org <- updateMetaData srv org ;;
    storage_save org) w = (r, w') →
  context w' = context w.
Proof.
  revert w. induction l as [|o l IH]; intros w; simpl for_each.
  - by intros [= _ <-].
  - unfold bind at 1. unfold bind at 1. unfold storage_get at 1.
    cbn [table Storable_Org].
    destruct (st_orgs (storage w) !! oi_id o) as [org|]; [|by intros [= _ <-]].
    destruct (negb (isMember org accId)); [by intros [= _ <-]|].
    cbv zeta. unfold bind at 1.
    match goal with |- context [updateMetaData srv ?o ?w0] =>
      destruct (updateMetaData_spec srv o w0) as (org1 & w1 & -> & Hspec)
    end.
    unfold storage_save at 1, modify at 1.
    intros Hrun. apply IH in Hrun. rewrite Hrun.
    cbn [context set_storage].
    by destruct Hspec as (_&_&_&_&_&_&_&_&_&_&_&_&_&_&_&_&_&_&_&?).
Qed.

Lemma map_M_preserves {A B} (Inv : World → Prop) (f : A → M B) (l : list A) :
  (∀ x w r w', f x w = (r, w') → Inv w → Inv w') →
  ∀ w r w', map_M f l w = (r, w') → Inv w → Inv w'.
Proof.
  intros Hf. induction l as [|x l IH]; intros w r w'; simpl.
  - by intros [= _ <-].
  - unfold bind at 1. destruct (f x w) as [[y|e] w1] eqn:Hx.
    + unfold bind at 1. destruct (map_M f l w1) as [[ys|e] w2] eqn:Hl;
        intros [= _ <-] Hw; eapply IH; eauto.
    + intros [= _ <-] Hw. eauto.
Qed.

Lemma for_each_preserves {A} (Inv : World → Prop) (body : A → M unit)
    (l : list A) :
  (∀ x w r w', body x w = (r, w') → Inv w → Inv w') →
  ∀ w r w', for_each l body w = (r, w') → Inv w → Inv w'.
Proof.
  intros Hf. induction l as [|x l IH]; intros w r w'; simpl.
  - by intros [= _ <-].
  - unfold bind at 1. destruct (body x w) as [[y|e] w1] eqn:Hx.
    + intros Hl Hw. eapply IH; eauto.
    + intros [= _ <-] Hw. eauto.
Qed.

(** [updateMetaData] writes accounts under their own ids, and changes
    nothing of an account but the organizations that it lists. *)
Lemma updateMetaData_accounts srv (w0 : World) org w r w' :
  updateMetaData srv org w = (r, w') →
  accounts_keyed w ∧ accounts_but_orgs w0 w →
  accounts_keyed w' ∧ accounts_but_orgs w0 w'.
Proof.
  pose (Inv := λ w, accounts_keyed w ∧ accounts_but_orgs w0 w).
  unfold updateMetaData. unfold bind at 1. unfold uuid at 1.
  unfold bind at 1. unfold date_now at 1. cbv beta iota zeta.
  unfold bind at 1.
  match goal with |- context [map_M ?f ?l ?w1] =>
    assert (∀ x wa ra wb, f x wa = (ra, wb) → Inv wa → Inv wb) as Hbody1;
    [|destruct (map_M f l w1) as [[vs|e] w2] eqn:Hvaults;
      pose proof (map_M_preserves Inv f l Hbody1 _ _ _ Hvaults) as Hstep1]
  end.
  { intros v w1 r1 w1'. unfold try_catch, bind, storage_get.
    cbn [table Storable_Vault].
    destruct (st_vaults (storage w1) !! vi_id v); [by intros [= _ <-]|].
    rewrite bool_decide_eq_false_2 by (intros H; by apply H).
    by intros [= _ <-]. }
  2:{ intros [= _ <-] Hinv. apply Hstep1. exact Hinv. }
  unfold bind at 1.
  match goal with |- context [map_M ?f ?l w2] =>
    assert (∀ x wa ra wb, f x wa = (ra, wb) → Inv wa → Inv wb) as Hbody2;
    [|destruct (map_M f l w2) as [[ms|e] w3] eqn:Hmembers;
      pose proof (map_M_preserves Inv f l Hbody2 _ _ _ Hmembers) as Hstep2;
      intros [= _ <-] Hinv; apply Hstep2, Hstep1; exact Hinv]
  end.
  intros m w1 r1 w1'. unfold try_catch, bind, storage_get.
  cbn [table Storable_Account].
  destruct (st_accounts (storage w1) !! m_id m) as [acc|] eqn:Hacc.
  2:{ rewrite bool_decide_eq_false_2 by (intros H; by apply H).
      by intros [= _ <-]. }
  munfold. intros [= _ <-] [Hkeyed Hsame].
  cbn [acc_id set_acc_orgs]. split.
  - intros k a. cbn [storage set_storage st_accounts].
    destruct (decide (k = acc_id acc)) as [->|Hne].
    + rewrite lookup_insert_eq. by intros [= <-].
    + rewrite lookup_insert_ne by done. apply Hkeyed.
  - intros k. cbn [storage set_storage st_accounts].
    destruct (decide (k = acc_id acc)) as [->|Hne].
    + rewrite lookup_insert_eq, <- Hsame, (Hkeyed _ _ Hacc), Hacc. done.
    + rewrite lookup_insert_ne by done. apply Hsame.
Qed.

(** Renaming a member in its organizations changes nothing of the stored
    accounts but the organizations that they list, and fails only with
    NOT_FOUND or SERVER_ERROR. *)
Lemma rename_in_orgs_accounts srv (w0 : World) (accId name : string)
    (l : list OrgInfo) w r w' :
  for_each l (λ o,
    org <- storage_get Org (oi_id o) ;;
    WHEN (negb (isMember org accId)) THROW SERVER_ERROR ;;
    let org :=
      set_org_members
        (JS.update_found (λ m, bool_decide (m_id m = accId))
           (set_m_name name) (org_members org)) org in
    org <- updateMetaData srv org ;;
    storage_save org) w = (r, w') →
  accounts_keyed w ∧ accounts_but_orgs w0 w →
  accounts_keyed w' ∧ accounts_but_orgs w0 w'.
Proof.
  apply (for_each_preserves
           (λ w, accounts_keyed w ∧ accounts_but_orgs w0 w)).
  intros o w1 r1 w1'. unfold bind at 1. unfold storage_get at 1.
  cbn [table Storable_Org].
  destruct (st_orgs (storage w1) !! oi_id o) as [org|]; [|by intros [= _ <-]].
  destruct (negb (isMember org accId)); [by intros [= _ <-]|].
  cbv zeta. unfold bind at 1.
  match goal with |- context [updateMetaData srv ?o ?wa] =>
    destruct (updateMetaData srv o wa) as [[org1|e] w2] eqn:Hmeta
  end.
  - unfold storage_save, modify. intros [= _ <-] Hinv.
    by apply (updateMetaData_accounts _ w0 _ _ _ _ Hmeta) in Hinv.
  - intros [= _ <-] Hinv.
    by apply (updateMetaData_accounts _ w0 _ _ _ _ Hmeta) in Hinv.
Qed.

Lemma rename_in_orgs_errors srv (accId name : string) (l : list OrgInfo)
    w e w' :
  for_each l (λ o,
    org <- storage_get Org (oi_id o) ;;
    WHEN (negb (isMember org accId)) THROW SERVER_ERROR ;;
    let org :=
      set_org_members
        (JS.update_found (λ m, bool_decide (m_id m = accId))
           (set_m_name name) (org_members org)) org in
    org <- updateMetaData srv org ;;
    storage_save org) w = (Err e, w') →
  e = NOT_FOUND ∨ e = SERVER_ERROR.
Proof.
  revert w. induction l as [|o l IH]; intros w; simpl for_each; [done|].
  unfold bind at 1. unfold bind at 1. unfold storage_get at 1.
  cbn [table Storable_Org].
  destruct (st_orgs (storage w) !! oi_id o) as [org|];
    [|intros [= <- _]; by left].
  destruct (negb (isMember org accId)); [intros [= <- _]; by right|].
  cbv zeta. unfold bind at 1.
  match goal with |- context [updateMetaData srv ?o ?w0] =>
    destruct (updateMetaData_spec srv o w0) as (org1 & w1 & -> & _)
  end.
  unfold storage_save at 1, modify at 1. apply IH.
Qed.

(** What [updateAccount] does with an update that carries the revision
    of the account in the context. *)
Lemma updateAccount_run srv w session account auth p :
  authenticated w session account auth →
  acc_revision p = acc_revision account →
  let account1 :=
    {| acc_id := acc_id account; acc_email := acc_email p;
       acc_name := acc_name p; acc_publicKey := acc_publicKey p;
       acc_keyParams := acc_keyParams p;
       acc_encryptionParams := acc_encryptionParams p;
       acc_encryptedData := acc_encryptedData p;
       acc_revision := uuid_source srv (drawn w);
       acc_orgs := acc_orgs account; acc_mainVault := acc_mainVault account;
       acc_updated := now w |} in
  ∃ r w',
    updateAccount srv p w = (r, w') ∧
    (r = Ok account1 ∨ r = Err NOT_FOUND ∨ r = Err SERVER_ERROR) ∧
    (acc_name p = acc_name account → r = Ok account1) ∧
    ctx_session (context w') = Some session ∧
    ctx_account (context w') = Some account1 ∧
    ctx_auth (context w') = Some auth ∧
    (accounts_keyed w →
       accounts_keyed w' ∧
       ∃ stored, st_accounts (storage w') !! acc_id account = Some stored ∧
                 set_acc_orgs [] stored = set_acc_orgs [] account1).
Proof.
  intros Hctx Hrev account1.
  unfold updateAccount at 1. run_requireAuth Hctx. cbn [fst].
  rewrite bool_decide_eq_false_2 by (by intros H; apply H).
  unfold bind at 1. unfold uuid at 1. unfold bind at 1. unfold date_now at 1.
  cbv zeta. unfold bind at 1. unfold mutate_ctx_account at 1, modify at 1.
  unfold bind at 1. unfold storage_save at 1, modify at 1.
  cbn [table set_table id_of Storable_Account acc_id now set_drawn].
  fold account1. unfold bind at 1.
  set (saved := set_storage _ _).
  assert (ctx_session (context saved) = Some session ∧
          ctx_account (context saved) = Some account1 ∧
          ctx_auth (context saved) = Some auth) as Hsaved.
  { destruct Hctx as (Hs & Ha & Hau). unfold saved.
    repeat split; cbn [context set_context set_storage set_ctx_account
      set_drawn ctx_session ctx_account ctx_auth]; done. }
  assert (accounts_keyed w →
          accounts_keyed saved ∧ accounts_but_orgs saved saved) as Hkeyed.
  { intros Hk. split; [|done]. intros k a. unfold saved.
    cbn [storage set_storage set_context set_drawn st_accounts].
    destruct (decide (k = acc_id account)) as [->|Hne].
    - rewrite lookup_insert_eq. by intros [= <-].
    - rewrite lookup_insert_ne by done. apply Hk. }
  assert (st_accounts (storage saved) !! acc_id account = Some account1)
    as Hstored.
  { unfold saved. cbn [storage set_storage set_context set_drawn st_accounts].
    apply lookup_insert_eq. }
  set (loop := if bool_decide (acc_name account ≠ acc_name p) then _ else _).
  assert (∀ r w5, loop saved = (r, w5) →
            context w5 = context saved ∧
            (accounts_keyed saved ∧ accounts_but_orgs saved saved →
             accounts_keyed w5 ∧ accounts_but_orgs saved w5) ∧
            (∀ e, r = Err e → e = NOT_FOUND ∨ e = SERVER_ERROR) ∧
            (acc_name p = acc_name account → r = Ok tt)) as Hloop.
  { intros r w5. unfold loop.
    destruct (bool_decide (acc_name account ≠ acc_name p)) eqn:Hname.
    - intros Hrun. split; [by eapply rename_in_orgs_context|].
      split; [by eapply rename_in_orgs_accounts|]. split.
      + intros e ->. by eapply rename_in_orgs_errors.
      + intros Heq. apply bool_decide_eq_true in Hname. by destruct Hname.
    - intros [= <- <-]. split; [done|]. split; [done|].
      split; [by intros e|done]. }
  destruct (loop saved) as [r5 w5] eqn:Hrun.
  destruct (Hloop r5 w5 eq_refl) as (Hc5 & Hinv5 & Herr5 & Hok5).
  assert (accounts_keyed w →
          accounts_keyed w5 ∧
          ∃ stored, st_accounts (storage w5) !! acc_id account = Some stored ∧
                    set_acc_orgs [] stored = set_acc_orgs [] account1)
    as Hstored5.
  { intros Hk. destruct (Hinv5 (Hkeyed Hk)) as [Hk5 Hsame5].
    split; [done|]. specialize (Hsame5 (acc_id account)).
    rewrite Hstored in Hsame5.
    destruct (st_accounts (storage w5) !! acc_id account) as [stored|];
      [|done].
    exists stored. split; [done|].
    exact (Some_inj _ _ Hsame5). }
  destruct Hsaved as (Hs & Ha & Hau).
  destruct r5 as [[]|e].
  - munfold. unfold modify. eexists _, _. split; [reflexivity|].
    cbn [context storage add_log]. rewrite Hc5.
    split; [by left|]. split; [done|]. split; [done|]. split; [done|].
    split; [done|]. exact Hstored5.
  - eexists _, _. split; [reflexivity|]. rewrite Hc5.
    split; [destruct (Herr5 e eq_refl) as [-> | ->]; auto|].
    split; [intros Heq; by specialize (Hok5 Heq)|].
    split; [done|]. split; [done|]. split; [done|]. exact Hstored5.
Qed.

(** X22. Which resend of an update of an account is refused.  The
    account that a successful [updateAccount] returns has the id, the
    organizations and the main vault of the account of the caller,
    whatever the update says, and a new revision; it is the account of
    the context afterwards, and the stored account is this account, but
    for the organizations that it lists.  When the new revision differs
    from the one the update carried, the same update sent again in a
    request that [authenticate] accepts afterwards, for a session of the
    account, fails with OUTDATED_REVISION and changes nothing.  A request
    whose context was filled before, and holds the account as it was, is
    not compared with the stored revision: the same update is never
    answered with OUTDATED_REVISION then, and when it does not change the
    name it is accepted and stored once more, under a revision of its
    own. *)
Theorem updateAccount_lost_update srv w session account auth p account' w' :
  authenticated w session account auth →
  accounts_keyed w →
  updateAccount srv p w = (Ok account', w') →
  uuid_source srv (drawn w) ≠ acc_revision p →
  acc_id account' = acc_id account ∧
  acc_orgs account' = acc_orgs account ∧
  acc_mainVault account' = acc_mainVault account ∧
  acc_revision account' = uuid_source srv (drawn w) ∧
  authenticated w' session account' auth ∧
  (∃ stored,
     st_accounts (storage w') !! acc_id account = Some stored ∧
     set_acc_orgs [] stored = set_acc_orgs [] account') ∧
  (∀ req ra s w'',
     req_auth req = Some ra →
     st_sessions (storage w') !! ra_session ra = Some s →
     s_account s = acc_id account →
     authenticate srv req w' = (Ok tt, w'') →
     updateAccount srv p w'' = (Err OUTDATED_REVISION, w'')) ∧
  (∀ w2 session2 auth2,
     storage w2 = storage w' →
     authenticated w2 session2 account auth2 →
     ∃ r w'',
       updateAccount srv p w2 = (r, w'') ∧
       r ≠ Err OUTDATED_REVISION ∧
       (acc_name p = acc_name account →
          ∃ account'' stored,
            r = Ok account'' ∧
            acc_revision account'' = uuid_source srv (drawn w2) ∧
            st_accounts (storage w'') !! acc_id account = Some stored ∧
            acc_revision stored = uuid_source srv (drawn w2))).
Proof.
  intros Hctx Hkeyed Hrun Hfresh.
  destruct (decide (acc_revision p = acc_revision account)) as [Hrev|Hrev].
  2:{ by rewrite (updateAccount_outdated _ _ _ _ _ _ Hctx Hrev) in Hrun. }
  pose proof (updateAccount_run srv w session account auth p Hctx Hrev) as H.
  cbv zeta in H.
  destruct H as (r & w1 & Hrun1 & Hr & _ & Hs & Ha & Hau & Hst).
  rewrite Hrun in Hrun1. injection Hrun1 as <- <-.
  destruct Hr as [Hr|[Hr|Hr]]; [|done..]. injection Hr as ->.
  cbn [acc_id acc_orgs acc_mainVault acc_revision].
  split; [done|]. split; [done|]. split; [done|]. split; [done|].
  split; [done|].
  destruct (Hst Hkeyed) as (Hkeyed' & stored & Hstored & Hsame).
  split; [by exists stored|].
  assert (acc_revision stored = uuid_source srv (drawn w)) as Hnew
    by (by apply (f_equal acc_revision) in Hsame).
  split.
  - intros req ra s w'' Hra Hsess Hown Hauth.
    destruct (authenticate_account _ _ _ _ _ Hra Hauth)
      as (s0 & account2 & Hs0 & Hacc2 & Hc2 & _).
    rewrite Hsess in Hs0. injection Hs0 as <-.
    rewrite Hown, Hstored in Hacc2. injection Hacc2 as <-.
    destruct (authenticate_context _ _ _ _ _ Hra Hauth)
      as (session3 & account3 & auth3 & Hctx3 & _).
    assert (account3 = stored) as ->.
    { destruct Hctx3 as (_ & Ha3 & _). congruence. }
    apply (updateAccount_outdated _ _ _ _ _ _ Hctx3). congruence.
  - intros w2 session2 auth2 Hstorage Hctx2.
    pose proof (updateAccount_run srv w2 session2 account auth2 p Hctx2 Hrev)
      as H2.
    cbv zeta in H2.
    destruct H2 as (r & w'' & Hrun2 & Hr2 & Hok2 & _ & _ & _ & Hst2).
    exists r, w''. split; [done|]. split.
    { by destruct Hr2 as [-> | [-> | ->]]. }
    intros Hname.
    destruct Hst2 as (_ & stored2 & Hstored2 & Hsame2).
    { intros k a. rewrite Hstorage. apply Hkeyed'. }
    eexists _, stored2. split; [by apply Hok2|]. split; [reflexivity|].
    split; [done|]. by apply (f_equal acc_revision) in Hsame2.
Qed.

(** X23. A failed rename is not undone.  When the update changes the
    name of the account and the first organization that the account
    lists is not in the storage, [updateAccount] fails with NOT_FOUND,
    but the account was saved before: the storage and the context hold
    it with the new name and a new revision, and no log entry is
    written. *)
Theorem updateAccount_not_atomic srv w session account auth p o rest :
  authenticated w session account auth →
  acc_revision p = acc_revision account →
  acc_name account ≠ acc_name p →
  acc_orgs account = o :: rest →
  st_orgs (storage w) !! oi_id o = None →
  ∃ w' account',
    updateAccount srv p w = (Err NOT_FOUND, w') ∧
    st_accounts (storage w') !! acc_id account = Some account' ∧
    ctx_account (context w') = Some account' ∧
    acc_name account' = acc_name p ∧
    acc_revision account' = uuid_source srv (drawn w) ∧
    logs w' = logs w.
Proof.
  intros Hctx Hrev Hname Horgs Hgone.
  unfold updateAccount. run_requireAuth Hctx. cbn [fst].
  rewrite bool_decide_eq_false_2 by (by intros H; apply H).
  rewrite (bool_decide_eq_true_2 (acc_name account ≠ acc_name p)) by done.
  cbn [acc_orgs]. rewrite Horgs. simpl for_each.
  munfold. unfold modify.
  cbn [storage set_storage set_context set_drawn st_orgs]. rewrite Hgone.
  eexists _, _. split; [reflexivity|].
  cbn [storage set_storage set_context set_drawn st_accounts context
       set_ctx_account ctx_account logs].
  split; [apply lookup_insert_eq|]. by repeat split.
Qed.

(** ** Trusting a device at login *)

(** X24. [createSession] trusts a device once.  When the handshake
    succeeds, the stored Auth record lists every device it listed before;
    without the flag addTrustedDevice it lists no other, and with the
    flag the device of the request is trusted afterwards.  A device that
    is listed already is not listed again: when the ids of the trusted
    devices were distinct, they still are. *)
Theorem createSession_trusts_device srv p w acc auth w1 srpState M1 K :
  st_accounts (storage w) !! cs_account p = Some acc →
  _getAuth srv (acc_email acc) w = (Ok auth, w1) →
  JS.find (λ s, bool_decide (srp_id s = cs_srpId p)) (auth_srpSessions auth)
    = Some srpState →
  srp_setA srv srpState (cs_A p) = Ok (M1, K) →
  cs_M p = M1 →
  ∃ session w' auth',
    createSession srv p w = (Ok session, w') ∧
    stored_auth w' (auth_id auth) = Some auth' ∧
    (∀ d, d ∈ auth_trustedDevices auth → d ∈ auth_trustedDevices auth') ∧
    (cs_addTrustedDevice p = false →
       auth_trustedDevices auth' = auth_trustedDevices auth) ∧
    (cs_addTrustedDevice p = true →
       ∀ d, ctx_device (context w) = Some d →
            truthy (device_trusted (Some d) auth') = true) ∧
    (NoDup (dev_id <$> auth_trustedDevices auth) →
       NoDup (dev_id <$> auth_trustedDevices auth')).
Proof.
  intros Hacc Hget Hfind HsetA HM.
  destruct (_getAuth_effect srv (acc_email acc) w) as (auth0 & w0 & Hget' & Hdiff).
  rewrite Hget in Hget'. injection Hget' as <- <-.
  destruct Hdiff as (Hc & _).
  unfold createSession.
  unfold bind at 1. unfold storage_get at 1. cbn [table Storable_Account].
  rewrite Hacc. unfold bind at 1. rewrite Hget, Hfind.
  unfold bind at 1. unfold lift at 1. rewrite HsetA. cbn [fst snd].
  unfold equalCT. rewrite bool_decide_eq_true_2 by done. cbn [negb].
  munfold. cbn [context set_drawn storage now drawn]. rewrite Hc.
  destruct (ctx_device (context w)) as [d|] eqn:Hd; cbn beta iota.
  - cbn [auth_trustedDevices set_auth_srpSessions set_auth_sessions].
    destruct (JS.some _ (auth_trustedDevices auth)) eqn:Hlisted; cbn [negb andb].
    + eexists _, _, _. split; [reflexivity|]. split.
      { unfold stored_auth. cbn [storage set_storage st_auths add_log].
        apply lookup_insert_eq. }
      cbn [auth_trustedDevices set_auth_srpSessions set_auth_sessions].
      split; [done|]. split; [done|]. split; [|done].
      intros _ d' [= <-]. cbn [truthy device_trusted auth_trustedDevices].
      apply some_exists in Hlisted as (t & Ht & Heq).
      replace (JS.some _ _) with true; [done|]. symmetry.
      apply some_exists. exists t. split; [done|].
      apply bool_decide_eq_true in Heq. by apply bool_decide_eq_true.
    + destruct (cs_addTrustedDevice p) eqn:Hadd.
      * eexists _, _, _. split; [reflexivity|]. split.
        { unfold stored_auth. cbn [storage set_storage st_auths add_log].
          apply lookup_insert_eq. }
        cbn [auth_trustedDevices set_auth_trustedDevices set_auth_srpSessions
             set_auth_sessions].
        split; [intros x Hx; apply elem_of_app; by left|].
        split; [done|]. split.
        -- intros _ d' [= <-]. cbn [truthy device_trusted auth_trustedDevices
             set_auth_trustedDevices].
           replace (JS.some _ _) with true; [done|]. symmetry.
           apply some_exists. exists d. split.
           ++ apply elem_of_app. right. by left.
           ++ by apply bool_decide_eq_true.
        -- intros Hnodup. rewrite fmap_app. apply list.NoDup_app.
           split; [done|]. split; [|apply NoDup_singleton].
           intros id Hid [->|Hnil%elem_of_nil]%elem_of_cons; [|done].
           apply list_elem_of_fmap in Hid as (t & Heq & Ht).
           rewrite some_false in Hlisted. specialize (Hlisted t Ht).
           apply bool_decide_eq_false in Hlisted. by rewrite Heq in Hlisted.
      * eexists _, _, _. split; [reflexivity|]. split.
        { unfold stored_auth. cbn [storage set_storage st_auths add_log].
          apply lookup_insert_eq. }
        cbn [auth_trustedDevices set_auth_srpSessions set_auth_sessions].
        done.
  - eexists _, _, _. split; [reflexivity|]. split.
    { unfold stored_auth. cbn [storage set_storage st_auths add_log].
      apply lookup_insert_eq. }
    cbn [auth_trustedDevices set_auth_srpSessions set_auth_sessions].
    done.
Qed.

(** ** Changing the verifier *)

(** X25. A new verifier is the one of the next handshake.  When a
    signed-in caller whose Auth record is stored under the hash of
    [email] sets a verifier that is not empty with [updateAuth], the key parameters, the
    authenticators, the sessions and the trusted devices of the stored
    record stay as they are, and an [initAuth] for [email] from a trusted
    device then hands the new verifier to the SRP server, and no other. *)
Theorem updateAuth_then_initAuth srv srp_initialize w session account auth
    email verifier accId state B :
  authenticated w session account auth →
  auth_id auth = getIdFromEmail srv email →
  verifier ≠ "" →
  truthy (device_trusted (ctx_device (context w)) auth) = true →
  truthy_string (auth_account auth) = Some accId →
  srp_initialize (uuid_source srv (drawn w)) (Some verifier) = Ok (state, B) →
  ∃ w1 auth1 w2,
    updateAuth
      {| ua_verifier := Some verifier; ua_keyParams := None;
         ua_mfaOrder := None |} w = (Ok tt, w1) ∧
    stored_auth w1 (auth_id auth) = Some auth1 ∧
    auth_verifier auth1 = Some verifier ∧
    auth_keyParams auth1 = auth_keyParams auth ∧
    auth_authenticators auth1 = auth_authenticators auth ∧
    auth_sessions auth1 = auth_sessions auth ∧
    auth_trustedDevices auth1 = auth_trustedDevices auth ∧
    initAuth srv srp_initialize {| ia_email := email; ia_verify := None |} w1 =
      (Ok {| ir_account := accId; ir_keyParams := auth_keyParams auth;
             ir_B := B; ir_srpId := uuid_source srv (drawn w) |}, w2).
Proof.
  intros Hctx Hid Hverifier Htrusted Haccount Hsrp.
  unfold updateAuth. run_requireAuth Hctx. cbn [snd ua_verifier ua_keyParams
    ua_mfaOrder truthy_string].
  rewrite (bool_decide_eq_false_2 (verifier = "")) by done.
  munfold. unfold modify.
  eexists _, _, _. split; [reflexivity|].
  unfold stored_auth. cbn [storage set_storage st_auths add_log set_context].
  cbn [auth_id set_auth_verifier]. split; [apply lookup_insert_eq|].
  cbn [auth_verifier auth_keyParams auth_authenticators auth_sessions
       auth_trustedDevices].
  split; [done|]. split; [done|]. split; [done|]. split; [done|].
  split; [done|].
  unfold initAuth. unfold bind at 1. cbn [ia_email ia_verify].
  erewrite _getAuth_stored.
  2:{ cbn [storage set_storage st_auths add_log set_context]. rewrite <- Hid.
      apply lookup_insert_eq. }
  munfold. unfold modify.
  cbn [context set_context set_storage add_log set_ctx_auth ctx_device
       auth_account auth_verifier set_auth_verifier drawn].
  change (device_trusted (ctx_device (context w))
            (set_auth_verifier (Some verifier) auth))
    with (device_trusted (ctx_device (context w)) auth).
  rewrite Htrusted, Haccount. cbn [drawn add_log set_storage set_context].
  rewrite Hsrp. cbn [fst snd auth_keyParams].
  reflexivity.
Qed.

(** ** The properties at work *)

Lemma removeTrustedDevice_spec_witness :
  removeTrustedDevice "device-9" Scenario.world_trusted
    = (Err NOT_FOUND, Scenario.world_trusted) ∧
  ∃ w' auth',
    removeTrustedDevice "device-1" Scenario.world_trusted = (Ok tt, w') ∧
    stored_auth w' "hash:a@x.com" = Some auth' ∧
    device_trusted (Some Sample.device) auth' = Some false.
Proof.
  destruct (removeTrustedDevice_spec Scenario.world_trusted Sample.session
              Sample.alice Sample.auth_trusted "device-9") as [Hnone _];
    [by repeat split|].
  destruct (removeTrustedDevice_spec Scenario.world_trusted Sample.session
              Sample.alice Sample.auth_trusted "device-1") as [_ Hsome];
    [by repeat split|].
  split.
  - apply Hnone. intros d Hd. simpl in Hd.
    apply list_elem_of_singleton in Hd as ->. done.
  - destruct (Hsome Sample.device) as (w' & auth' & Hrun & _ & Hst & _ & Hnodup);
      [simpl; by left | reflexivity |].
    exists w', auth'. split; [done|]. split; [done|].
    apply Hnodup. simpl. apply NoDup_singleton.
Defined.

Lemma authenticate_rejection_witness :
  ∃ ra, req_auth (Scenario.signed "session-9" "key-1") = Some ra ∧
        st_sessions (storage Scenario.visitor) !! ra_session ra = None.
Proof.
  destruct (authenticate_rejection Sample.srv
              (Scenario.signed "session-9" "key-1") Scenario.visitor
              INVALID_SESSION Scenario.visitor) as (_ & ra & Hra & _);
    [vm_compute; reflexivity|].
  exists ra. split; [done|]. injection Hra as <-. reflexivity.
Defined.

Lemma authenticate_upsert_witness :
  ∃ session account auth,
    authenticated
      (authenticate Sample.srv (Scenario.signed "session-1" "key-1")
         Scenario.visitor).2 session account auth ∧
    s_lastUsed session = 2000 ∧
    auth_sessions auth = [session_info session].
Proof.
  destruct (authenticate_upsert Sample.srv
              (Scenario.signed "session-1" "key-1")
              {| ra_session := "session-1"; ra_time := 1990;
                 ra_signature := "key-1" |}
              Scenario.visitor
              (authenticate Sample.srv (Scenario.signed "session-1" "key-1")
                 Scenario.visitor).2)
    as (session0 & account & auth0 & session & auth & Hs0 & Hacc & Hget & Hctx &
        Hid & _ & Hused & _ & _ & _ & _ & _ & _ & Hlisted & _);
    [reflexivity | vm_compute; reflexivity |].
  exists session, account, auth. split; [done|]. split; [done|].
  injection Hs0 as <-. injection Hacc as <-. injection Hget as <-.
  destruct Hlisted as (l1 & x & l2 & Hl & _ & _ & ->).
  { exists (session_info Sample.session).
    split; [simpl; by left | by rewrite Hid]. }
  cbn [auth_sessions Sample.auth1 Sample.auth_of] in Hl.
  destruct l1 as [|? [|? ?]]; simpl in Hl; [|done..].
  by injection Hl as _ <-.
Defined.

Lemma revokeSession_refused_witness :
  revokeSession "session-9" Sample.world1 = (Err NOT_FOUND, Sample.world1) ∧
  revokeSession "session-2" Sample.world1
    = (Err INSUFFICIENT_PERMISSIONS, Sample.world1).
Proof.
  destruct (revokeSession_refused Sample.world1 Sample.session Sample.alice
              Sample.auth1 "session-9") as [Hnone _]; [by repeat split|].
  destruct (revokeSession_refused Sample.world1 Sample.session Sample.alice
              Sample.auth1 "session-2") as [_ Hother]; [by repeat split|].
  split; [by apply Hnone|].
  apply (Hother Sample.session_bob); [reflexivity | done].
Defined.


Lemma getOrg_existence_hiding_witness :
  getOrg "org-1" Sample.world_bob = (Err NOT_FOUND, Sample.world_bob) ∧
  getOrg "org-9" Sample.world_bob = (Err NOT_FOUND, Sample.world_bob) ∧
  getOrg "org-1" Sample.world1 = (Ok Sample.org, add_log "org.get" Sample.world1).
Proof.
  destruct (getOrg_existence_hiding Sample.world_bob Sample.session_bob
              Sample.bob Sample.auth_bob "org-1") as [[_ Hhidden] _];
    [by repeat split|].
  destruct (getOrg_existence_hiding Sample.world_bob Sample.session_bob
              Sample.bob Sample.auth_bob "org-9") as [[_ Hmissing] _];
    [by repeat split|].
  destruct (getOrg_existence_hiding Sample.world1 Sample.session
              Sample.alice Sample.auth1 "org-1") as [_ Hmember];
    [by repeat split|].
  split; [|split].
  - apply Hhidden. vm_compute. by split.
  - apply Hmissing. vm_compute. done.
  - apply Hmember; [reflexivity | by left].
Defined.

Lemma getVault_existence_hiding_witness :
  getVault Sample.srv "vault-9" Sample.world_bob
    = (Err NOT_FOUND, Sample.world_bob) ∧
  getVault Sample.srv "vault-a" Sample.world_bob
    = (Err NOT_FOUND, Sample.world_bob) ∧
  getVault Sample.srv "vault-a" Sample.world1
    = (Ok Sample.vault, add_log "vault.get" Sample.world1).
Proof.
  destruct (getVault_existence_hiding Sample.srv Sample.world_bob
              Sample.session_bob Sample.bob Sample.auth_bob "vault-9")
    as (Hmissing & _); [by repeat split|].
  destruct (getVault_existence_hiding Sample.srv Sample.world_bob
              Sample.session_bob Sample.bob Sample.auth_bob "vault-a")
    as (_ & Hhidden & _); [by repeat split|].
  destruct (getVault_existence_hiding Sample.srv Sample.world1
              Sample.session Sample.alice Sample.auth1 "vault-a")
    as (_ & Hown & _); [by repeat split|].
  split; [|split].
  - by apply Hmissing.
  - by rewrite (Hhidden Sample.vault eq_refl eq_refl).
  - by rewrite (Hown Sample.vault eq_refl eq_refl).
Defined.

Lemma updateVault_needs_read_access_witness :
  ∃ e', updateVault Sample.srv Sample.vault Sample.world_bob
          = (Err e', Sample.world_bob) ∧
        (e' = NOT_FOUND ∨ e' = PROVISIONING_NOT_ALLOWED).
Proof.
  apply (updateVault_needs_read_access Sample.srv Sample.world_bob
           Sample.session_bob Sample.bob Sample.auth_bob Sample.vault
           NOT_FOUND Sample.world_bob); [by repeat split|].
  vm_compute. reflexivity.
Defined.

Lemma sample_accounts_keyed auth ctx t : accounts_keyed (Sample.world auth ctx t).
Proof.
  intros k a. cbn [Sample.world storage Sample.store st_accounts].
  intros [[<- <-]|[_ [<- <-]%lookup_singleton_Some]]%lookup_insert_Some;
    reflexivity.
Qed.

Lemma deleteOrg_cascade_witness :
  deleteOrg "org-1" Sample.world_bob
    = (Err INSUFFICIENT_PERMISSIONS, Sample.world_bob) ∧
  ∃ w' a, deleteOrg "org-1" Sample.world1 = (Ok tt, w') ∧
    st_orgs (storage w') !! "org-1" = None ∧
    st_accounts (storage w') !! "alice" = Some a ∧
    ∀ o, o ∈ acc_orgs a → oi_id o ≠ "org-1".
Proof.
  destruct (deleteOrg_cascade Sample.world_bob Sample.session_bob Sample.bob
              Sample.auth_bob "org-1" Sample.org) as (Hrefused & _);
    [by repeat split | reflexivity |].
  destruct (deleteOrg_cascade Sample.world1 Sample.session Sample.alice
              Sample.auth1 "org-1" Sample.org) as (_ & Hdeleted & _);
    [by repeat split | reflexivity |].
  split; [by apply Hrefused|].
  destruct Hdeleted as (w' & Hrun & Horg & _ & Hmembers & _).
  - reflexivity.
  - apply sample_accounts_keyed.
  - intros m Hm. simpl in Hm. apply list_elem_of_singleton in Hm as ->.
    by eexists.
  - destruct (Hmembers {| m_id := "alice"; m_name := "Alice";
                          m_email := "a@x.com"; m_role := RoleOwner;
                          m_vaults := [] |}) as (a & Ha & Horgs);
      [simpl; by left|].
    by exists w', a.
Defined.

Lemma _useAuthToken_single_use_witness :
  _useAuthToken Sample.srv (Scenario.redeem Login)
    (Scenario.visitor_with (Scenario.authRequest Login Pending))
    = (Err AUTHENTICATION_FAILED,
       Scenario.visitor_with (Scenario.authRequest Login Pending)) ∧
  ∃ w',
    _useAuthToken Sample.srv (Scenario.redeem Login)
      (Scenario.visitor_with (Scenario.authRequest Login Verified))
      = (Ok tt, w') ∧
    _useAuthToken Sample.srv (Scenario.redeem Login) w'
      = (Err AUTHENTICATION_FAILED, w').
Proof.
  destruct (_useAuthToken_single_use Sample.srv (Scenario.redeem Login)
              (Scenario.visitor_with (Scenario.authRequest Login Pending))
              (Scenario.auth_with (Scenario.authRequest Login Pending)))
    as [Hpending _]; [reflexivity | reflexivity |].
  destruct (_useAuthToken_single_use Sample.srv (Scenario.redeem Login)
              (Scenario.visitor_with (Scenario.authRequest Login Verified))
              (Scenario.auth_with (Scenario.authRequest Login Verified)))
    as [_ Hverified]; [reflexivity | reflexivity |].
  split.
  - apply Hpending. intros r Hr (_ & _ & _ & Hstatus & _). simpl in Hr.
    apply list_elem_of_singleton in Hr as ->. done.
  - destruct Hverified as (r & w' & auth' & _ & _ & Hrun & _ & _ & _ & Hagain).
    + exists (Scenario.authRequest Login Verified).
      split; [simpl; by left|]. repeat split; try done.
      by intros id [= <-].
    + exists w'. split; [done|]. apply Hagain. by eexists.
Defined.

Lemma completeAuthRequest_failed_attempt_witness :
  ∃ w' auth',
    completeAuthRequest Sample.srv (Scenario.answer "000000")
      (Scenario.visitor_with (Scenario.authRequest Login Pending))
      = (Err AUTHENTICATION_FAILED, w') ∧
    stored_auth w' "hash:a@x.com" = Some auth' ∧
    JS.find (λ m, bool_decide (r_id m = "req-1")) (auth_authRequests auth')
      = Some (set_r_tries 1 (Scenario.authRequest Login Pending)).
Proof.
  destruct (completeAuthRequest_failed_attempt Sample.srv
              (Scenario.answer "000000")
              (Scenario.visitor_with (Scenario.authRequest Login Pending))
              (add_provider_call
                 (CallInitAuthenticator AuthType_Email "ad_hoc_a@x.com_email")
                 (Scenario.visitor_with (Scenario.authRequest Login Pending)))
              (Scenario.auth_with (Scenario.authRequest Login Pending))
              (Scenario.authRequest Login Pending)
              [Sample.totp "totp-1"; Scenario.adHoc] 1%nat Scenario.adHoc
              Sample.emailProvider)
    with (e := AUTHENTICATION_FAILED)
    as (w' & auth' & Hrun & Hstored & Hfind & _);
    [reflexivity | reflexivity | reflexivity | vm_compute; reflexivity
    | reflexivity | reflexivity | reflexivity | reflexivity |].
  by exists w', auth'.
Defined.

Lemma completeAuthRequest_issues_token_witness :
  ∃ resp w' w'',
    completeAuthRequest Sample.srv (Scenario.answer "123456")
      (Scenario.visitor_with (Scenario.authRequest Login Pending))
      = (Ok resp, w') ∧
    _useAuthToken Sample.srv
      {| ut_email := "a@x.com"; ut_token := "token-1"; ut_purpose := Login;
         ut_authenticatorId := None; ut_requestId := None |} w' = (Ok tt, w'').
Proof.
  destruct (completeAuthRequest_issues_token Sample.srv
              (Scenario.answer "123456")
              (Scenario.visitor_with (Scenario.authRequest Login Pending))
              (add_provider_call
                 (CallInitAuthenticator AuthType_Email "ad_hoc_a@x.com_email")
                 (Scenario.visitor_with (Scenario.authRequest Login Pending)))
              (Scenario.auth_with (Scenario.authRequest Login Pending))
              (Scenario.authRequest Login Pending)
              [Sample.totp "totp-1"; Scenario.adHoc] 1%nat Scenario.adHoc
              Sample.emailProvider)
    as (resp & w' & auth' & Hrun & _ & _ & _ & _ & w'' & Hredeem);
    [reflexivity | reflexivity | reflexivity | vm_compute; reflexivity
    | reflexivity | reflexivity | reflexivity | reflexivity | done |].
  by exists resp, w', w''.
Defined.

Lemma completeAuthRequest_test_keeps_request_witness :
  ∃ resp w' auth',
    completeAuthRequest Sample.srv (Scenario.answer "123456")
      (Scenario.visitor_with (Scenario.authRequest TestAuthenticator Pending))
      = (Ok resp, w') ∧
    stored_auth w' "hash:a@x.com" = Some auth' ∧
    JS.find (λ m, bool_decide (r_id m = "req-1")) (auth_authRequests auth')
      = Some (set_r_verified 2000
                (Scenario.authRequest TestAuthenticator Pending)).
Proof.
  destruct (completeAuthRequest_test_keeps_request Sample.srv
              (Scenario.answer "123456")
              (Scenario.visitor_with
                 (Scenario.authRequest TestAuthenticator Pending))
              (add_provider_call
                 (CallInitAuthenticator AuthType_Email "ad_hoc_a@x.com_email")
                 (Scenario.visitor_with
                    (Scenario.authRequest TestAuthenticator Pending)))
              (Scenario.auth_with
                 (Scenario.authRequest TestAuthenticator Pending))
              (Scenario.authRequest TestAuthenticator Pending)
              [Sample.totp "totp-1"; Scenario.adHoc] 1%nat Scenario.adHoc
              Sample.emailProvider)
    as (resp & w' & auth' & Hrun & Hstored & Hfind & _);
    [reflexivity | reflexivity | reflexivity | vm_compute; reflexivity
    | reflexivity | reflexivity | reflexivity | reflexivity | reflexivity |].
  by exists resp, w', auth'.
Defined.

Lemma register_then_activate_witness :
  ∃ w1 w2 auth2,
    startRegisterAuthenticator Sample.srv Scenario.register_email Sample.world1
      = (Ok {| rr_id := "uuid-0"; rr_data := ""; rr_type := AuthType_Email |},
         w1) ∧
    completeRegisterAuthenticator Sample.srv
      {| ca_id := "uuid-0"; ca_data := None |} w1
      = (Ok {| cc_id := "uuid-0"; cc_data := "" |}, w2) ∧
    stored_auth w2 "hash:a@x.com" = Some auth2 ∧
    a_status <$> auth_authenticators auth2
      = [AuthenticatorActive; AuthenticatorActive].
Proof.
  pose proof (register_then_activate Sample.srv Scenario.register_email
                Sample.world1 Sample.session Sample.alice Sample.auth1
                Sample.emailProvider "" "" None "" "") as H.
  cbv zeta in H.
  destruct H as (w1 & w2 & auth1 & auth2 & Hstart & _ & _ & _ & _ & Hcomplete &
                 _ & Hstored & Hlist);
    [by repeat split | reflexivity | reflexivity | | reflexivity |].
  { intros a Ha. simpl in Ha. apply list_elem_of_singleton in Ha as ->. done. }
  exists w1, w2, auth2. split; [exact Hstart|]. split; [exact Hcomplete|].
  split; [exact Hstored|]. rewrite Hlist. reflexivity.
Defined.

Lemma completeRegisterAuthenticator_refused_witness :
  completeRegisterAuthenticator Sample.srv
    {| ca_id := "totp-9"; ca_data := None |} Sample.world1
    = (Err AUTHENTICATION_FAILED, Sample.world1).
Proof.
  destruct (completeRegisterAuthenticator_refused Sample.srv
              {| ca_id := "totp-9"; ca_data := None |} Sample.world1
              Sample.session Sample.alice Sample.auth1) as [Hunknown _];
    [by repeat split|].
  apply Hunknown. intros a Ha. simpl in Ha.
  apply list_elem_of_singleton in Ha as ->. done.
Defined.

Lemma initAuth_untrusted_needs_token_witness :
  initAuth Sample.srv Scenario.srp_initialize
    {| ia_email := "a@x.com"; ia_verify := None |} Scenario.visitor
    = (Err AUTHENTICATION_REQUIRED, add_log "auth.init" Scenario.visitor) ∧
  initAuth Sample.srv Scenario.srp_initialize
    {| ia_email := "nobody@x.com"; ia_verify := Some "" |} Scenario.visitor
    = (Err AUTHENTICATION_REQUIRED, add_log "auth.init" Scenario.visitor).
Proof.
  split.
  - apply (initAuth_untrusted_needs_token Sample.srv Scenario.srp_initialize
             {| ia_email := "a@x.com"; ia_verify := None |} Scenario.visitor
             Sample.auth1 Scenario.visitor); reflexivity.
  - apply (initAuth_untrusted_needs_token Sample.srv Scenario.srp_initialize
             {| ia_email := "nobody@x.com"; ia_verify := Some "" |}
             Scenario.visitor
             (Auth_init Sample.srv (new_Auth "nobody@x.com"))
             Scenario.visitor); reflexivity.
Defined.

Lemma initAuth_then_createSession_witness :
  ∃ w1 session w2,
    initAuth Sample.srv Scenario.srp_initialize
      {| ia_email := "a@x.com"; ia_verify := None |} Scenario.visitor_trusted
      = (Ok {| ir_account := "alice"; ir_keyParams := "kp-a";
               ir_B := "B:verifier-a"; ir_srpId := "uuid-0" |}, w1) ∧
    createSession Sample.srv (Sample.handshake "uuid-0" "M1:state:uuid-0A1") w1
      = (Ok session, w2) ∧
    createSession Sample.srv (Sample.handshake "uuid-0" "M1:state:uuid-0A1") w2
      = (Err INVALID_CREDENTIALS, add_log "login" w2).
Proof.
  pose proof (initAuth_then_createSession Sample.srv Scenario.srp_initialize
                {| ia_email := "a@x.com"; ia_verify := None |}
                Scenario.visitor_trusted Sample.auth_trusted "alice"
                Sample.alice "state:uuid-0" "B:verifier-a" "A1"
                "M1:state:uuid-0A1" "K:state:uuid-0A1" true) as H.
  cbv zeta in H.
  destruct H as (w1 & session & w2 & auth2 & Hinit & Hcreate & _ & _ & _ & _ &
                 _ & Hagain);
    [reflexivity | reflexivity | reflexivity | reflexivity | reflexivity
    | | reflexivity | reflexivity | reflexivity |].
  { intros s Hs. simpl in Hs. apply list_elem_of_singleton in Hs as ->. done. }
  by exists w1, session, w2.
Defined.

Lemma initAuth_with_token_witness :
  initAuth Sample.srv Scenario.srp_initialize
    {| ia_email := "a@x.com"; ia_verify := Some "token-1" |}
    (Scenario.visitor_with (Scenario.authRequest Login Pending))
    = (Err AUTHENTICATION_FAILED,
       add_log "auth.init"
         (Scenario.visitor_with (Scenario.authRequest Login Pending))) ∧
  ∃ resp w' auth',
    initAuth Sample.srv Scenario.srp_initialize
      {| ia_email := "a@x.com"; ia_verify := Some "token-1" |}
      (Scenario.visitor_with (Scenario.authRequest Login Verified))
      = (Ok resp, w') ∧
    stored_auth w' "hash:a@x.com" = Some auth' ∧
    auth_authRequests auth' = [Scenario.authRequest Login Verified].
Proof.
  pose proof (initAuth_with_token Sample.srv Scenario.srp_initialize
                {| ia_email := "a@x.com"; ia_verify := Some "token-1" |}
                (Scenario.visitor_with (Scenario.authRequest Login Pending))
                (Scenario.auth_with (Scenario.authRequest Login Pending))
                "token-1") as Hpending.
  pose proof (initAuth_with_token Sample.srv Scenario.srp_initialize
                {| ia_email := "a@x.com"; ia_verify := Some "token-1" |}
                (Scenario.visitor_with (Scenario.authRequest Login Verified))
                (Scenario.auth_with (Scenario.authRequest Login Verified))
                "token-1") as Hverified.
  cbv zeta in Hpending, Hverified.
  destruct Hpending as (Hfailed & _);
    [reflexivity | reflexivity | reflexivity | reflexivity |].
  destruct Hverified as (_ & _ & Hok);
    [reflexivity | reflexivity | reflexivity | reflexivity |].
  split.
  - apply Hfailed. intros r Hr (_ & _ & _ & Hstatus & _). simpl in Hr.
    apply list_elem_of_singleton in Hr as ->. done.
  - destruct (Hok "alice" "state:uuid-0" "B:verifier-a")
      as (resp & w' & auth' & Hrun & _ & Hstored & Hrequests).
    + exists (Scenario.authRequest Login Verified).
      split; [simpl; by left|]. by repeat split.
    + reflexivity.
    + reflexivity.
    + by exists resp, w', auth'.
Defined.

Lemma updateOrg_accepted_witness :
  ∃ op,
    JS.find (λ o, bool_decide (op_orgId o = "org-1"))
      (prov_orgs (getProvisioning Sample.srv Sample.auth1)) = Some op ∧
    op_status op ≠ ProvFrozen ∧
    (op_quota_members op = -1 ∨ 1 ≤ op_quota_members op).
Proof.
  destruct (updateOrg_accepted Sample.srv Sample.world1 Sample.session
              Sample.alice Sample.auth1 Sample.org Sample.org
              (Scenario.result Sample.org Scenario.org_resent)
              Scenario.org_resent.2)
    as (op & Hop & Hstatus & _ & _ & _ & Hquota & _);
    [by repeat split | reflexivity | vm_compute; reflexivity |].
  by exists op.
Defined.

Lemma updateOrg_result_witness :
  st_orgs (storage Scenario.org_resent.2) !! "org-1"
    = Some (Scenario.result Sample.org Scenario.org_resent) ∧
  org_owner (Scenario.result Sample.org Scenario.org_resent) = "alice" ∧
  org_name (Scenario.result Sample.org Scenario.org_resent) = "Acme".
Proof.
  pose proof (updateOrg_result Sample.srv Sample.world1 Sample.session
                Sample.alice Sample.auth1 Sample.org Sample.org
                (Scenario.result Sample.org Scenario.org_resent)
                Scenario.org_resent.2) as H.
  cbv zeta in H.
  destruct H as (Hstored & _ & Howner & _ & Hname & _);
    [by repeat split | reflexivity | vm_compute; reflexivity |].
  split; [exact Hstored|]. split; [exact Howner | exact Hname].
Defined.

Lemma updateAccount_lost_update_witness :
  acc_revision (Scenario.result Sample.alice Scenario.account_resent)
    = "uuid-0" ∧
  (let w'' :=
     (authenticate Sample.srv (Sample.request 1990)
        Scenario.account_resent.2).2 in
   updateAccount Sample.srv Sample.alice w''
     = (Err OUTDATED_REVISION, w'')) ∧
  ∃ r w'',
    updateAccount Sample.srv Sample.alice
      (set_context (context Sample.world1) Scenario.account_resent.2)
      = (r, w'') ∧
    r ≠ Err OUTDATED_REVISION.
Proof.
  destruct (updateAccount_lost_update Sample.srv Sample.world1 Sample.session
              Sample.alice Sample.auth1 Sample.alice
              (Scenario.result Sample.alice Scenario.account_resent)
              Scenario.account_resent.2)
    as (_ & _ & _ & Hrev & _ & _ & Hafter & Hbefore);
    [by repeat split | apply sample_accounts_keyed | vm_compute; reflexivity
    | done |].
  split; [exact Hrev|]. split.
  - intros w''.
    apply (Hafter (Sample.request 1990)
             {| ra_session := "session-1"; ra_time := 1990;
                ra_signature := "key-1" |} Sample.session);
      [reflexivity | vm_compute; reflexivity | reflexivity
      | vm_compute; reflexivity].
  - destruct (Hbefore
                (set_context (context Sample.world1) Scenario.account_resent.2)
                Sample.session Sample.auth1)
      as (r & w'' & Hrun & Hr & _); [reflexivity | by repeat split |].
    by exists r, w''.
Defined.

Lemma updateAccount_not_atomic_witness :
  ∃ w' account',
    updateAccount Sample.srv Scenario.alicia Scenario.world_without_org
      = (Err NOT_FOUND, w') ∧
    st_accounts (storage w') !! "alice" = Some account' ∧
    acc_name account' = "Alicia".
Proof.
  destruct (updateAccount_not_atomic Sample.srv Scenario.world_without_org
              Sample.session Sample.alice Sample.auth1 Scenario.alicia
              {| oi_id := "org-1"; oi_name := "Acme";
                 oi_revision := Some "rev-o" |} [])
    as (w' & account' & Hrun & Hstored & _ & Hname & _);
    [by repeat split | reflexivity | done | reflexivity | reflexivity |].
  by exists w', account'.
Defined.

Lemma createSession_trusts_device_witness :
  ∃ session w' auth',
    createSession Sample.srv (Sample.handshake "srp-1" "M1:b1A1")
      Scenario.visitor = (Ok session, w') ∧
    stored_auth w' "hash:a@x.com" = Some auth' ∧
    truthy (device_trusted (Some Sample.device) auth') = true ∧
    NoDup (dev_id <$> auth_trustedDevices auth').
Proof.
  destruct (createSession_trusts_device Sample.srv
              (Sample.handshake "srp-1" "M1:b1A1") Scenario.visitor
              Sample.alice Sample.auth1 Scenario.visitor
              {| srp_id := "srp-1"; srp_state := "b1" |} "M1:b1A1" "K:b1A1")
    as (session & w' & auth' & Hrun & Hstored & _ & _ & Htrusted & Hnodup);
    [reflexivity ..|].
  exists session, w', auth'. split; [done|]. split; [done|]. split.
  - by apply Htrusted.
  - apply Hnodup. simpl. constructor.
Defined.

Lemma updateAuth_then_initAuth_witness :
  ∃ w1 w2,
    updateAuth
      {| ua_verifier := Some "verifier-2"; ua_keyParams := None;
         ua_mfaOrder := None |} Scenario.world_trusted = (Ok tt, w1) ∧
    initAuth Sample.srv Scenario.srp_initialize
      {| ia_email := "a@x.com"; ia_verify := None |} w1
      = (Ok {| ir_account := "alice"; ir_keyParams := "kp-a";
               ir_B := "B:verifier-2"; ir_srpId := "uuid-0" |}, w2).
Proof.
  destruct (updateAuth_then_initAuth Sample.srv Scenario.srp_initialize
              Scenario.world_trusted Sample.session Sample.alice
              Sample.auth_trusted "a@x.com" "verifier-2" "alice"
              "state:uuid-0" "B:verifier-2")
    as (w1 & auth1 & w2 & Hupdate & _ & _ & _ & _ & _ & _ & Hinit);
    [by repeat split | reflexivity | done | reflexivity ..|].
  by exists w1, w2.
Defined.
